(** * The dual-provider request adapter (aiService)

    A shallow embedding of [getAIResponse] (the Gemini-style adapter, called
    ProviderA in the specification) and [getOpenAIResponse] (the OpenAI-style
    adapter, ProviderB), together with the properties the specification states
    about them.

    The two functions are JavaScript [async] functions that build a request
    object in memory, serialise it, perform one [fetch] and inspect the parsed
    reply.  They are embedded as computations in a state-and-exception monad
    over a [World]: the object heap (arrays and objects are references, so
    aliasing and in-place mutation such as [Array.prototype.push] are
    visible), the console, and the log of requests handed to [fetch].  The
    network, the process environment and the two string coercions of the
    JavaScript runtime that the code can reach are parameters of the
    development.

    A call is followed from its start to its end as one sequence of steps.
    What other tasks do while the call is suspended at an [await] is not
    part of the model; the adapters read nothing of the heap once they have
    serialised the request, which they do before the first [await]. *)

From Stdlib Require Import ZArith NArith String DecimalString DecimalN DecimalNat.
From Stdlib Require Import Floats.SpecFloat.
From stdpp Require Import base option list gmap strings.

Local Open Scope string_scope.
Set Warnings "-register-all".

(** ** Values *)

(** Heap locations. *)
Abbreviation loc := positive.

(** JavaScript values as the adapters see them.  Numbers are IEEE-754
    binary64, in the Standard Library's specification form. *)
Inductive val : Type :=
| VUndefined
| VNull
| VBool (b : bool)
| VNum (x : spec_float)
| VStr (s : string)
| VRef (l : loc).

(** Heap-allocated objects: arrays, and plain objects whose own properties
    are kept in insertion order (the order [JSON.stringify] emits them). *)
Inductive obj : Type :=
| Arr (elems : list val)
| Obj (props : list (string * val)).

(** JSON documents: what [JSON.stringify] produces and what
    [response.json()] yields.  The fields of an object are its own
    properties, in order; in a parsed object their names are distinct. *)
Inductive json : Type :=
| JNull
| JBool (b : bool)
| JNum (x : spec_float)
| JStr (s : string)
| JArr (elems : list json)
| JObj (fields : list (string * json)).

(** A value read out of a parsed reply: [None] is [undefined]. *)
Abbreviation jsv := (option json).
Abbreviation undefined := (@None json).

(** Thrown values.  [Error] is [new Error(message)]; the messages of the
    engine-raised [TypeError] and [SyntaxError] are engine specific and not
    kept. *)
Inductive error : Type :=
| Error (message : string)
| TypeError
| SyntaxError.

(** Own property lookup in an insertion-ordered property list. *)
Fixpoint prop_lookup {A : Type} (name : string) (props : list (string * A)) : option A :=
  match props with
  | [] => None
  | (k, v) :: rest => if String.eqb k name then Some v else prop_lookup name rest
  end.

(** ** Numbers *)

(** The numeric literals of the request bodies, as binary64 values. *)
Definition num_0_7 : spec_float := S754_finite false 6305039478318694 (-53).
Definition num_0_95 : spec_float := S754_finite false 8556839292003942 (-53).
Definition num_40 : spec_float := S754_finite false 5629499534213120 (-47).
Definition num_500 : spec_float := S754_finite false 8796093022208000 (-44).
Definition num_1 : spec_float := S754_finite false 4503599627370496 (-52).
Definition num_zero : spec_float := S754_zero false.

(** [x] is the binary64 value nearest to [num / den]: a positive normal
    number [m * 2 ^ e] with [e <= 0], at most half a unit in the last place
    away. *)
Definition nearest_binary64 (x : spec_float) (num den : Z) : Prop :=
  match x with
  | S754_finite false m e =>
      (e <= 0 ∧ 2 ^ 52 <= Z.pos m < 2 ^ 53
       ∧ 2 * Z.abs (Z.pos m * den - num * 2 ^ (- e)) <= den)%Z
  | _ => False
  end.

(** A length as a number.  The mantissa is not normalised to 53 bits; the
    value denoted is [n], and lengths are only ever compared with zero. *)
Definition num_of_nat (n : nat) : spec_float :=
  match n with
  | O => num_zero
  | S _ => S754_finite false (Pos.of_nat n) 0
  end.

(** [Number::toString] on a non-negative integer. *)
Definition string_of_N (n : N) : string := NilZero.string_of_uint (N.to_uint n).
Definition string_of_nat (n : nat) : string := NilZero.string_of_uint (Nat.to_uint n).

(** ** The world *)

Record Request : Type := mkRequest {
  url : string;
  method : string;
  headers : list (string * string);
  (** The [body] option of [fetch]: the document [JSON.stringify] produced
      ([None] when it produced [undefined]).  The text of the serialisation
      is not modelled, the document it denotes is. *)
  body : option json
}.

Record Response : Type := mkResponse {
  status : N;
  (** The reply body as [response.json()] parses it; [None] when the body
      is not a JSON text. *)
  parsed : option json
}.

(** [Response.ok], as the Fetch standard defines it: the status is in the
    range 200 to 299. *)
Definition ok (r : Response) : bool :=
  (200 <=? status r)%N && (status r <=? 299)%N.

Inductive FetchResult : Type :=
| NetworkFailure
| Responded (r : Response).

Inductive logged : Type :=
| LogValue (v : jsv)
| LogError (e : error).

Record World : Type := mkWorld {
  heap : gmap loc obj;
  console : list (string * logged);
  network : list Request
}.

Definition set_heap (h : gmap loc obj) (w : World) : World :=
  {| heap := h; console := console w; network := network w |}.

(** ** The monad of adapter computations *)

Inductive outcome (A : Type) : Type :=
| Return (a : A)
| Throw (e : error).
Arguments Return {A} a.
Arguments Throw {A} e.

Definition M (A : Type) : Type := World → outcome A * World.

Definition ret {A} (a : A) : M A := λ w, (Return a, w).

Definition bind {A B} (m : M A) (k : A → M B) : M B :=
  λ w, match m w with
       | (Return a, w') => k a w'
       | (Throw e, w') => (Throw e, w')
       end.

Definition throw {A} (e : error) : M A := λ w, (Throw e, w).

(** [try { m } catch (error) { handler error }]. *)
Definition try_catch {A} (m : M A) (handler : error → M A) : M A :=
  λ w, match m w with
       | (Return a, w') => (Return a, w')
       | (Throw e, w') => handler e w'
       end.

(** A pure step that may throw. *)
Definition lift {A} (o : outcome A) : M A := λ w, (o, w).

Declare Scope js_scope.
Delimit Scope js_scope with js.
Notation "x <- m ;; k" := (bind m (λ x, k))
  (at level 100, m at next level, right associativity) : js_scope.
Notation "m ;;; k" := (bind m (λ _, k))
  (at level 100, right associativity) : js_scope.
Local Open Scope js_scope.

(** ** Heap operations *)

Definition fresh_loc (h : gmap loc obj) : loc := fresh (dom h).

Definition alloc (o : obj) : M val :=
  λ w, let l := fresh_loc (heap w) in
       (Return (VRef l), set_heap (<[l := o]> (heap w)) w).

(** An object literal [{ k1: v1, ... }] and an array literal [[v1, ...]]. *)
Definition new_object (props : list (string * val)) : M val := alloc (Obj props).
Definition new_array (elems : list val) : M val := alloc (Arr elems).

(** [v.name] on a heap value, for a name that is not an array index.
    Reading a property of [undefined] or [null] throws. *)
Definition get_prop (v : val) (name : string) : M val :=
  λ w, match v with
       | VUndefined | VNull => (Throw TypeError, w)
       | VRef l =>
           match heap w !! l with
           | Some (Obj props) => (Return (default VUndefined (prop_lookup name props)), w)
           | Some (Arr elems) =>
               (Return (if String.eqb name "length"
                        then VNum (num_of_nat (length elems)) else VUndefined), w)
           | None => (Return VUndefined, w)
           end
       | VStr s =>
           (Return (if String.eqb name "length"
                    then VNum (num_of_nat (String.length s)) else VUndefined), w)
       | VBool _ | VNum _ => (Return VUndefined, w)
       end.

(** [a === b] on values: no coercion, references compare by identity and
    numbers as IEEE values. *)
Definition strict_equal (a b : val) : bool :=
  match a, b with
  | VUndefined, VUndefined | VNull, VNull => true
  | VBool x, VBool y => Bool.eqb x y
  | VStr x, VStr y => String.eqb x y
  | VRef x, VRef y => Pos.eqb x y
  | VNum x, VNum y =>
      match SFcompare x y with Some Eq => true | _ => false end
  | _, _ => false
  end.

(** Running a callback over the elements, left to right. *)
Fixpoint for_each (f : val → M val) (elems : list val) : M (list val) :=
  match elems with
  | [] => ret []
  | x :: rest => y <- f x ;; ys <- for_each f rest ;; ret (y :: ys)
  end.

(** [arr.map(f)]: the elements are read, the callback runs on each and the
    results go into a new array.  On anything but an array the method is
    missing (or the receiver is [undefined]/[null]) and the call throws. *)
Definition array_map (f : val → M val) (arr : val) : M val :=
  λ w, match arr with
       | VRef l =>
           match heap w !! l with
           | Some (Arr elems) => (ys <- for_each f elems ;; new_array ys) w
           | _ => (Throw TypeError, w)
           end
       | _ => (Throw TypeError, w)
       end.

(** [arr.push(x)]: the array object at [arr] is updated in place. *)
Definition array_push (arr : val) (x : val) : M val :=
  λ w, match arr with
       | VRef l =>
           match heap w !! l with
           | Some (Arr elems) =>
               (Return (VNum (num_of_nat (S (length elems)))),
                set_heap (<[l := Arr (elems ++ [x])]> (heap w)) w)
           | _ => (Throw TypeError, w)
           end
       | _ => (Throw TypeError, w)
       end.

(** The elements of an array, for the spread [...arr] in an array literal. *)
Definition spread (arr : val) : M (list val) :=
  λ w, match arr with
       | VRef l =>
           match heap w !! l with
           | Some (Arr elems) => (Return elems, w)
           | _ => (Throw TypeError, w)
           end
       | _ => (Throw TypeError, w)
       end.

(** ** Serialisation *)

(** Numbers that are not finite serialise as [null], and a zero as [0]
    whatever its sign. *)
Definition json_of_num (x : spec_float) : json :=
  match x with
  | S754_nan | S754_infinity _ => JNull
  | S754_zero _ => JNum num_zero
  | _ => JNum x
  end.

(** The elements of an array and the members of an object, given the
    serialisation [rec] of a value: an array turns [undefined] into [null],
    an object omits the property. *)
Fixpoint stringify_items (rec : val → option (option json)) (vs : list val)
    : option (list json) :=
  match vs with
  | [] => Some []
  | x :: rest =>
      match rec x, stringify_items rec rest with
      | Some j, Some js => Some (default JNull j :: js)
      | _, _ => None
      end
  end.

Fixpoint stringify_members (rec : val → option (option json))
    (ps : list (string * val)) : option (list (string * json)) :=
  match ps with
  | [] => Some []
  | (k, x) :: rest =>
      match rec x, stringify_members rec rest with
      | Some (Some j), Some fs => Some ((k, j) :: fs)
      | Some None, Some fs => Some fs
      | _, _ => None
      end
  end.

(** [JSON.stringify] as a document.  The outer [option] is [None] when the
    traversal does not finish within [fuel] dereferences (or meets a
    location that holds nothing); the inner one is [None] for [undefined]. *)
Fixpoint stringify (fuel : nat) (h : gmap loc obj) (v : val) : option (option json) :=
  match v with
  | VUndefined => Some None
  | VNull => Some (Some JNull)
  | VBool b => Some (Some (JBool b))
  | VNum x => Some (Some (json_of_num x))
  | VStr s => Some (Some (JStr s))
  | VRef l =>
      match fuel with
      | O => None
      | S fuel' =>
          match h !! l with
          | None => None
          | Some (Arr elems) =>
              match stringify_items (stringify fuel' h) elems with
              | Some js => Some (Some (JArr js))
              | None => None
              end
          | Some (Obj props) =>
              match stringify_members (stringify fuel' h) props with
              | Some fs => Some (Some (JObj fs))
              | None => None
              end
          end
      end
  end.

(** [JSON.stringify(v)].  A chain of distinct objects is no longer than the
    heap is large, so running out of [S (size heap)] dereferences means the
    structure is circular, on which [JSON.stringify] throws a [TypeError]. *)
Definition JSON_stringify (v : val) : M (option json) :=
  λ w, match stringify (S (size (heap w))) (heap w) v with
       | Some j => (Return j, w)
       | None => (Throw TypeError, w)
       end.

(** ** Reading a parsed reply *)

(** Property keys: a name ([x.content]) or an index ([x[0]]). *)
Inductive key : Type :=
| KName (name : string)
| KIndex (i : nat).

Definition key_name (k : key) : string :=
  match k with
  | KName name => name
  | KIndex i => string_of_nat i
  end.

(** The [i]-th character of a string, as a string.  Strings are sequences
    of bytes here and of UTF-16 code units in JavaScript; the adapters only
    ever test such a character for having a property, which it has not. *)
Fixpoint string_index (s : string) (i : nat) : jsv :=
  match s, i with
  | EmptyString, _ => None
  | String c _, O => Some (JStr (String c EmptyString))
  | String _ rest, S i' => string_index rest i'
  end.

(** [v[k]] or [v.k] on a value of a parsed reply.  A [KName] is an
    identifier, never the spelling of an index.  The length of a string is
    counted in bytes here and in UTF-16 code units in JavaScript; the
    adapters only compare it with zero. *)
Definition jget (v : jsv) (k : key) : outcome jsv :=
  match v with
  | None | Some JNull => Throw TypeError
  | Some (JObj fields) => Return (prop_lookup (key_name k) fields)
  | Some (JArr elems) =>
      Return (match k with
              | KIndex i => elems !! i
              | KName name =>
                  if String.eqb name "length"
                  then Some (JNum (num_of_nat (length elems))) else None
              end)
  | Some (JStr s) =>
      Return (match k with
              | KIndex i => string_index s i
              | KName name =>
                  if String.eqb name "length"
                  then Some (JNum (num_of_nat (String.length s))) else None
              end)
  | Some (JBool _) | Some (JNum _) => Return None
  end.

(** ToBoolean. *)
Definition truthy (v : jsv) : bool :=
  match v with
  | None | Some JNull => false
  | Some (JBool b) => b
  | Some (JNum x) =>
      match x with
      | S754_zero _ | S754_nan => false
      | _ => true
      end
  | Some (JStr s) => negb (String.eqb s "")
  | Some (JArr _) | Some (JObj _) => true
  end.

(** [v.k1.k2...], left to right; the first read of a property of
    [undefined] or [null] throws. *)
Fixpoint jpath (v : jsv) (ks : list key) : M jsv :=
  match ks with
  | [] => ret v
  | k :: rest => x <- lift (jget v k) ;; jpath x rest
  end.

(** [a && b] in a condition: [b] is evaluated only when [a] is truthy. *)
Definition js_and (a b : M bool) : M bool :=
  x <- a ;; if x then b else ret false.
Infix "&&&&" := js_and (at level 85, right associativity) : js_scope.

Definition console_error (label : string) (x : logged) : M unit :=
  λ w, (Return tt,
        {| heap := heap w; console := console w ++ [(label, x)]; network := network w |}).

(** [await response.json()]. *)
Definition response_json (r : Response) : M json :=
  match parsed r with
  | Some j => ret j
  | None => throw SyntaxError
  end.

(** ** The persona texts *)

(** The text of [initialPrompt] in [getAIResponse]. *)
Definition initialPrompt_text : string :=
  "You are a helpful and patient tech support agent. Your goal is to assist the user in troubleshooting common technical issues. Provide clear, step-by-step instructions and ask clarifying questions when needed. Keep your responses professional and focused on problem-solving. This is for training purposes, so be thorough in your explanations. Start by asking the user what problem they are experiencing.".

(** The content of the system message in [getOpenAIResponse]. *)
Definition system_content : string :=
  "You are a helpful and patient tech support agent. Your goal is to assist the user in troubleshooting common technical issues. Provide clear, step-by-step instructions and ask clarifying questions when needed. Keep your responses professional and focused on problem-solving.".

(** ** The adapters *)

Section Adapters.

(** [process.env]. *)
Variable env : string → option string.

(** The network: what [fetch] answers to a request. *)
Variable fetch : Request → FetchResult.

(** The runtime's StringToNumber, and [Array.prototype.toString] on an
    array of a parsed reply, which joins the elements as strings and throws
    when an element has no string to give.  The adapters reach them only
    through [x.length > 0] on an object whose own [length] is a string or
    an array. *)
Variable StringToNumber : string → spec_float.
Variable ArrayToString : list json → outcome string.

(** ToNumber on a value of a parsed reply.  An object is first turned into
    a primitive by its [valueOf], then by its [toString]: of an object of a
    parsed reply the inherited [valueOf] gives the object back and an own
    [valueOf] is no function, so that the inherited [toString] decides with
    the string [[object Object]], which is not a numeric literal; an own
    member named [toString] is no function either, and the conversion
    throws a [TypeError]. *)
Definition ToNumber (v : jsv) : outcome spec_float :=
  match v with
  | None => Return S754_nan
  | Some JNull => Return num_zero
  | Some (JBool b) => Return (if b then num_1 else num_zero)
  | Some (JNum x) => Return x
  | Some (JStr s) => Return (StringToNumber s)
  | Some (JArr elems) =>
      match ArrayToString elems with
      | Return s => Return (StringToNumber s)
      | Throw e => Throw e
      end
  | Some (JObj fields) =>
      match prop_lookup "toString" fields with
      | Some _ => Throw TypeError
      | None => Return S754_nan
      end
  end.

(** [v > 0]. *)
Definition greater_than_zero (v : jsv) : outcome bool :=
  match ToNumber v with
  | Return x => Return (SFltb num_zero x)
  | Throw e => Throw e
  end.

(** [process.env.NAME || ""]. *)
Definition env_or_empty (name : string) : string :=
  match env name with
  | Some k => k
  | None => ""
  end.

(** [await fetch(url, options)]: the request is recorded, and a network
    failure rejects with a [TypeError]. *)
Definition do_fetch (req : Request) : M Response :=
  λ w, let w' := {| heap := heap w; console := console w;
                    network := network w ++ [req] |} in
       match fetch req with
       | NetworkFailure => (Throw TypeError, w')
       | Responded r => (Return r, w')
       end.

(** The object literal [{ role: r, parts: [{ text: t }] }]. *)
Definition role_parts (r : string) (t : val) : M val :=
  part <- new_object [("text", t)] ;;
  parts <- new_array [part] ;;
  new_object [("role", VStr r); ("parts", parts)].

(** Lines 12 to 40 of [getAIResponse]: the request object. *)
Definition getAIResponse_payload (chatHistory : val) (userInput : string)
    (isFirstMessage : bool) : M val :=
  (* Prepare the chat history for the API payload *)
  apiChatHistory <-
    array_map (λ msg,
      role <- get_prop msg "role" ;;
      text <- get_prop msg "text" ;;
      role_parts (if strict_equal role (VStr "user") then "user" else "model") text)
    chatHistory ;;
  (* Add the current user message to the API chat history *)
  current <- role_parts "user" (VStr userInput) ;;
  array_push apiChatHistory current ;;;
  (* Define the initial prompt for the AI to set its persona *)
  initialPrompt <- role_parts "user" (VStr initialPrompt_text) ;;
  (* If it's the very first message, include the initial persona prompt *)
  payloadContents <-
    (if isFirstMessage
     then (first <- role_parts "user" (VStr userInput) ;;
           new_array [initialPrompt; first])
     else ret apiChatHistory) ;;
  generationConfig <-
    new_object [("temperature", VNum num_0_7); ("topK", VNum num_40);
                ("topP", VNum num_0_95); ("maxOutputTokens", VNum num_500)] ;;
  new_object [("contents", payloadContents);
              ("generationConfig", generationConfig)].

(** Lines 53 to 68 of [getAIResponse]: what is made of the reply. *)
Definition getAIResponse_result (response : Response) : M jsv :=
  if negb (ok response)
  then throw (Error ("API request failed with status: "
                     ++ string_of_N (status response)))
  else
    result <- response_json response ;;
    let result := Some result in
    valid <-
      ((c <- jpath result [KName "candidates"] ;; ret (truthy c))
       &&&& (n <- jpath result [KName "candidates"; KName "length"] ;;
             lift (greater_than_zero n))
       &&&& (c <- jpath result [KName "candidates"; KIndex 0; KName "content"] ;;
             ret (truthy c))
       &&&& (p <- jpath result [KName "candidates"; KIndex 0; KName "content";
                               KName "parts"] ;;
             ret (truthy p))
       &&&& (n <- jpath result [KName "candidates"; KIndex 0; KName "content";
                               KName "parts"; KName "length"] ;;
             lift (greater_than_zero n))) ;;
    if valid
    then jpath result [KName "candidates"; KIndex 0; KName "content";
                       KName "parts"; KIndex 0; KName "text"]
    else
      console_error "Unexpected API response structure:" (LogValue result) ;;;
      throw (Error "Invalid response format from AI service").

(** [isFirstMessage] defaults to [false] when the argument is omitted. *)
Definition getAIResponse (chatHistory : val) (userInput : string)
    (isFirstMessage : bool) : M jsv :=
  try_catch
    (payload <- getAIResponse_payload chatHistory userInput isFirstMessage ;;
     let apiKey := env_or_empty "REACT_APP_GEMINI_API_KEY" in
     let apiUrl :=
       "https://generativelanguage.googleapis.com/v1beta/models/gemini-2.0-flash:generateContent?key="
       ++ apiKey in
     text <- JSON_stringify payload ;;
     response <-
       do_fetch {| url := apiUrl; method := "POST";
                   headers := [("Content-Type", "application/json")];
                   body := text |} ;;
     getAIResponse_result response)
    (λ error,
       console_error "Error in AI service:" (LogError error) ;;;
       throw error (* Re-throw to handle in the component *)).

(** Lines 84 to 97 of [getOpenAIResponse]: the [messages] array. *)
Definition getOpenAIResponse_messages (chatHistory : val) (userInput : string) : M val :=
  system <- new_object [("role", VStr "system"); ("content", VStr system_content)] ;;
  (* Convert chat history to OpenAI format *)
  converted <-
    array_map (λ msg,
      role <- get_prop msg "role" ;;
      text <- get_prop msg "text" ;;
      new_object [("role", VStr (if strict_equal role (VStr "model")
                                 then "assistant" else "user"));
                  ("content", text)])
    chatHistory ;;
  history <- spread converted ;;
  (* Add current user message *)
  current <- new_object [("role", VStr "user"); ("content", VStr userInput)] ;;
  new_array (system :: history ++ [current]).

(** Lines 116 to 127 of [getOpenAIResponse]. *)
Definition getOpenAIResponse_result (response : Response) : M jsv :=
  if negb (ok response)
  then throw (Error ("OpenAI API request failed with status: "
                     ++ string_of_N (status response)))
  else
    data <- response_json response ;;
    let data := Some data in
    valid <-
      ((c <- jpath data [KName "choices"] ;; ret (truthy c))
       &&&& (n <- jpath data [KName "choices"; KName "length"] ;;
             lift (greater_than_zero n))
       &&&& (m <- jpath data [KName "choices"; KIndex 0; KName "message"] ;;
             ret (truthy m))) ;;
    if valid
    then jpath data [KName "choices"; KIndex 0; KName "message"; KName "content"]
    else
      console_error "Unexpected OpenAI API response structure:" (LogValue data) ;;;
      throw (Error "Invalid response format from OpenAI service").

Definition getOpenAIResponse (chatHistory : val) (userInput : string) : M jsv :=
  try_catch
    (messages <- getOpenAIResponse_messages chatHistory userInput ;;
     let apiKey := env_or_empty "REACT_APP_OPENAI_API_KEY" in
     request <-
       new_object [("model", VStr "gpt-3.5-turbo"); ("messages", messages);
                   ("temperature", VNum num_0_7); ("max_tokens", VNum num_500)] ;;
     text <- JSON_stringify request ;;
     response <-
       do_fetch {| url := "https://api.openai.com/v1/chat/completions";
                   method := "POST";
                   headers := [("Content-Type", "application/json");
                               ("Authorization", "Bearer " ++ apiKey)];
                   body := text |} ;;
     getOpenAIResponse_result response)
    (λ error,
       console_error "Error in OpenAI service:" (LogError error) ;;;
       throw error).

End Adapters.

(** The two providers of the specification: the Gemini-style adapter
    [getAIResponse] and the OpenAI-style adapter [getOpenAIResponse]. *)
Inductive Provider : Type := ProviderA | ProviderB.

(** The one contract of the specification, [respond(history, newMessage,
    isFirstTurn)], dispatched as the caller (App.js) dispatches it: the
    OpenAI-style adapter is called without the first-turn flag. *)
Definition respond (env : string → option string) (fetch : Request → FetchResult)
    (StringToNumber : string → spec_float) (ArrayToString : list json → outcome string)
    (p : Provider) (history : val) (userText : string) (isFirstTurn : bool) : M jsv :=
  match p with
  | ProviderA =>
      getAIResponse env fetch StringToNumber ArrayToString history userText isFirstTurn
  | ProviderB =>
      getOpenAIResponse env fetch StringToNumber ArrayToString history userText
  end.

(** ** The conversation of the specification *)

Inductive Speaker : Type := User | Agent.

Record Turn : Type := mkTurn { role : Speaker; text : string }.

(** The role strings the caller keeps in a message object. *)
Definition speaker_of_role (r : string) : option Speaker :=
  if String.eqb r "user" then Some User
  else if String.eqb r "model" then Some Agent
  else None.

(** The turn a message object of the heap stands for: an object with a
    [role] of ["user"] or ["model"] and a string [text] (other properties,
    such as the caller's [model] tag, are allowed). *)
Definition read_turn (h : gmap loc obj) (v : val) : option Turn :=
  match v with
  | VRef l =>
      match h !! l with
      | Some (Obj props) =>
          match prop_lookup "role" props, prop_lookup "text" props with
          | Some (VStr r), Some (VStr t) =>
              match speaker_of_role r with
              | Some s => Some {| role := s; text := t |}
              | None => None
              end
          | _, _ => None
          end
      | _ => None
      end
  | _ => None
  end.

(** The conversation an array of the heap stands for. *)
Definition read_history (h : gmap loc obj) (v : val) : option (list Turn) :=
  match v with
  | VRef l =>
      match h !! l with
      | Some (Arr elems) => mapM (read_turn h) elems
      | _ => None
      end
  | _ => None
  end.

(** The message object the caller keeps for a turn, and the conversation
    laid out in a heap: one object per turn, then the array of them. *)
Definition role_name (s : Speaker) : string :=
  match s with
  | User => "user"
  | Agent => "model"
  end.

Definition turn_object (t : Turn) : obj :=
  Obj [("role", VStr (role_name (role t))); ("text", VStr (text t))].

Fixpoint store_turns (ts : list Turn) (h : gmap loc obj) : list val * gmap loc obj :=
  match ts with
  | [] => ([], h)
  | t :: rest =>
      let l := fresh_loc h in
      let (vs, h') := store_turns rest (<[l := turn_object t]> h) in
      (VRef l :: vs, h')
  end.

Definition store_history (ts : list Turn) (h : gmap loc obj) : val * gmap loc obj :=
  let (vs, h') := store_turns ts h in
  let l := fresh_loc h' in
  (VRef l, <[l := Arr vs]> h').

(** ** The request bodies the specification describes *)

(** A ProviderA turn: [{role, parts: [{text}]}]. *)
Definition role_parts_json (r t : string) : json :=
  JObj [("role", JStr r); ("parts", JArr [JObj [("text", JStr t)]])].

Definition providerA_role (s : Speaker) : string :=
  match s with
  | User => "user"
  | Agent => "model"
  end.

Definition providerA_turn (t : Turn) : json :=
  role_parts_json (providerA_role (role t)) (text t).

Definition providerA_contents (history : list Turn) (userText : string)
    (isFirstTurn : bool) : list json :=
  if isFirstTurn
  then [role_parts_json "user" initialPrompt_text; role_parts_json "user" userText]
  else map providerA_turn history ++ [role_parts_json "user" userText].

Definition generationConfig_json : json :=
  JObj [("temperature", JNum num_0_7); ("topK", JNum num_40);
        ("topP", JNum num_0_95); ("maxOutputTokens", JNum num_500)].

Definition providerA_body (history : list Turn) (userText : string)
    (isFirstTurn : bool) : json :=
  JObj [("contents", JArr (providerA_contents history userText isFirstTurn));
        ("generationConfig", generationConfig_json)].

(** A ProviderB message: [{role, content}]. *)
Definition message_json (r c : string) : json :=
  JObj [("role", JStr r); ("content", JStr c)].

Definition providerB_role (s : Speaker) : string :=
  match s with
  | User => "user"
  | Agent => "assistant"
  end.

Definition providerB_turn (t : Turn) : json :=
  message_json (providerB_role (role t)) (text t).

Definition providerB_messages (history : list Turn) (userText : string) : list json :=
  message_json "system" system_content
    :: map providerB_turn history ++ [message_json "user" userText].

Definition providerB_body (history : list Turn) (userText : string) : json :=
  JObj [("model", JStr "gpt-3.5-turbo");
        ("messages", JArr (providerB_messages history userText));
        ("temperature", JNum num_0_7); ("max_tokens", JNum num_500)].

(** The request each adapter hands to [fetch]. *)
Definition expected_request (env : string → option string) (p : Provider)
    (history : list Turn) (userText : string) (isFirstTurn : bool) : Request :=
  match p with
  | ProviderA =>
      {| url := "https://generativelanguage.googleapis.com/v1beta/models/gemini-2.0-flash:generateContent?key="
                ++ env_or_empty env "REACT_APP_GEMINI_API_KEY";
         method := "POST";
         headers := [("Content-Type", "application/json")];
         body := Some (providerA_body history userText isFirstTurn) |}
  | ProviderB =>
      {| url := "https://api.openai.com/v1/chat/completions";
         method := "POST";
         headers := [("Content-Type", "application/json");
                     ("Authorization",
                      "Bearer " ++ env_or_empty env "REACT_APP_OPENAI_API_KEY")];
         body := Some (providerB_body history userText) |}
  end.

(** The list of turns a request carries: [contents] for ProviderA,
    [messages] for ProviderB. *)
Definition turns_field (p : Provider) : string :=
  match p with
  | ProviderA => "contents"
  | ProviderB => "messages"
  end.

Definition sent_turns (p : Provider) (req : Request) : option (list json) :=
  match body req with
  | Some (JObj fields) =>
      match prop_lookup (turns_field p) fields with
      | Some (JArr turns) => Some turns
      | _ => None
      end
  | _ => None
  end.

(** ** The failures of the specification's taxonomy, as the errors thrown *)

Definition HttpFailure (p : Provider) (status : N) : error :=
  match p with
  | ProviderA => Error ("API request failed with status: " ++ string_of_N status)
  | ProviderB => Error ("OpenAI API request failed with status: " ++ string_of_N status)
  end.

Definition MalformedResponse (p : Provider) : error :=
  match p with
  | ProviderA => Error "Invalid response format from AI service"
  | ProviderB => Error "Invalid response format from OpenAI service"
  end.

(** What each adapter makes of a reply. *)
Definition result_phase (StringToNumber : string → spec_float)
    (ArrayToString : list json → outcome string) (p : Provider) (r : Response) : M jsv :=
  match p with
  | ProviderA => getAIResponse_result StringToNumber ArrayToString r
  | ProviderB => getOpenAIResponse_result StringToNumber ArrayToString r
  end.

Definition catch_label (p : Provider) : string :=
  match p with
  | ProviderA => "Error in AI service:"
  | ProviderB => "Error in OpenAI service:"
  end.

(** The rest of a call once [fetch] has settled, inside the [try]. *)
Definition after_fetch (StringToNumber : string → spec_float)
    (ArrayToString : list json → outcome string) (p : Provider) (answer : FetchResult) : M jsv :=
  try_catch
    match answer with
    | NetworkFailure => throw TypeError
    | Responded r => result_phase StringToNumber ArrayToString p r
    end
    (λ error, console_error (catch_label p) (LogError error) ;;; throw error).

(** ** What the specification expects of a reply *)

(** What following the expected shape of a reply body, through objects and
    lists, ends in: [Malformed] when a field on the way is absent or a list
    on the way is empty, [Text] when the field at the end holds a string,
    [Unspecified] for every other body. *)
Inductive Leaf : Type :=
| Malformed
| Text (s : string)
| Unspecified.

(** ProviderA: [candidates[0].content.parts[0].text]. *)
Definition reply_text_A (body : json) : Leaf :=
  match body with
  | JObj top =>
      match prop_lookup "candidates" top with
      | None | Some (JArr []) => Malformed
      | Some (JArr (JObj candidate :: _)) =>
          match prop_lookup "content" candidate with
          | None => Malformed
          | Some (JObj content) =>
              match prop_lookup "parts" content with
              | None | Some (JArr []) => Malformed
              | Some (JArr (JObj part :: _)) =>
                  match prop_lookup "text" part with
                  | Some (JStr s) => Text s
                  | _ => Unspecified
                  end
              | _ => Unspecified
              end
          | _ => Unspecified
          end
      | _ => Unspecified
      end
  | _ => Unspecified
  end.

(** ProviderB: [choices[0].message.content]. *)
Definition reply_text_B (body : json) : Leaf :=
  match body with
  | JObj top =>
      match prop_lookup "choices" top with
      | None | Some (JArr []) => Malformed
      | Some (JArr (JObj choice :: _)) =>
          match prop_lookup "message" choice with
          | None => Malformed
          | Some (JObj message) =>
              match prop_lookup "content" message with
              | Some (JStr s) => Text s
              | _ => Unspecified
              end
          | _ => Unspecified
          end
      | _ => Unspecified
      end
  | _ => Unspecified
  end.

Definition reply_text (p : Provider) (body : json) : Leaf :=
  match p with
  | ProviderA => reply_text_A body
  | ProviderB => reply_text_B body
  end.

(** The top-level list of a reply. *)
Definition top_field (p : Provider) : string :=
  match p with
  | ProviderA => "candidates"
  | ProviderB => "choices"
  end.

(** [v.k1.k2...] as a value: the pure content of [jpath]. *)
Fixpoint path_value (v : jsv) (ks : list key) : outcome jsv :=
  match ks with
  | [] => Return v
  | k :: rest =>
      match jget v k with
      | Return x => path_value x rest
      | Throw e => Throw e
      end
  end.


(** ** Predicates on computations *)

(** From world [w] with known part [g] of the heap to world [w'] with known
    part [g']: both heaps grow, what was allocated in [w] keeps its standing
    in the known part, and nothing is logged or sent. *)
Record grows (g : gmap loc obj) (w : World) (g' : gmap loc obj) (w' : World) : Prop := {
  grows_known : g ⊆ g';
  grows_sub : g' ⊆ heap w';
  grows_heap : heap w ⊆ heap w';
  grows_old : ∀ l, is_Some (heap w !! l) → g' !! l = g !! l;
  grows_console : console w' = console w;
  grows_network : network w' = network w;
  grows_size : (size (heap w) ≤ size (heap w'))%nat
}.

(** [preserves h0 m Q]: run from any heap that extends [h0], the computation
    [m] ends in a heap that still extends [h0], whatever it returns or
    throws; a returned value satisfies [Q]. *)
Definition preserves {A} (h0 : gmap loc obj) (m : M A) (Q : A → Prop) : Prop :=
  ∀ w, h0 ⊆ heap w →
    h0 ⊆ heap (m w).2
    ∧ match (m w).1 with
      | Return a => Q a
      | Throw _ => True
      end.

(** A reference to an object allocated after [h0] was taken. *)
Definition fresh_for (h0 : gmap loc obj) (v : val) : Prop :=
  ∃ l, v = VRef l ∧ h0 !! l = None.

Definition any {A} : A → Prop := λ _, True.

(** A computation that touches neither the heap nor the network. *)
Definition quiet {A} (m : M A) : Prop :=
  ∀ w, heap (m w).2 = heap w ∧ network (m w).2 = network w.

(** ** A conversation and replies to try the adapters on *)

(** The heap of a caller holding the conversation
    [[{role: 'user', text: 'hi'}, {role: 'model', text: 'hello', model: 'gemini'}]]. *)
Definition example_heap : gmap loc obj :=
  <[3%positive := Arr [VRef 1; VRef 2]]>
    (<[2%positive := Obj [("role", VStr "model"); ("text", VStr "hello");
                          ("model", VStr "gemini")]]>
       (<[1%positive := Obj [("role", VStr "user"); ("text", VStr "hi")]]> ∅)).

Definition example_world : World :=
  {| heap := example_heap; console := []; network := [] |}.

Definition example_chatHistory : val := VRef 3.

Definition example_history : list Turn :=
  [{| role := User; text := "hi" |}; {| role := Agent; text := "hello" |}].

(** No API key is configured. *)
Definition example_env : string → option string := λ _, None.

(** A server that answers every request with [r]. *)
Definition answering (r : Response) : Request → FetchResult := λ _, Responded r.

Definition example_StringToNumber : string → spec_float := λ _, S754_nan.
Definition example_ArrayToString : list json → outcome string := λ _, Return "".

(** The success bodies of the two providers around a text. *)
Definition success_body (p : Provider) (s : string) : json :=
  match p with
  | ProviderA =>
      JObj [("candidates",
             JArr [JObj [("content", JObj [("parts", JArr [JObj [("text", JStr s)]])])]])]
  | ProviderB =>
      JObj [("choices", JArr [JObj [("message", JObj [("content", JStr s)])]])]
  end.

(** Replies of the example servers. *)
Definition reply_unparsed : Response := {| status := 200; parsed := None |}.

Definition reply_503 : Response :=
  {| status := 503; parsed := Some (success_body ProviderA "ok") |}.

Definition reply_no_choices : Response :=
  {| status := 200; parsed := Some (JObj [("choices", JArr [])]) |}.


Definition padded_text : string := "  Restart the router,  then wait.  ".

Definition reply_padded : Response :=
  {| status := 200; parsed := Some (success_body ProviderA padded_text) |}.


Definition reply_no_text : Response :=
  {| status := 200;
     parsed := Some (JObj [("candidates",
                            JArr [JObj [("content",
                                         JObj [("parts", JArr [JObj []])])]])]) |}.

Definition reply_no_content : Response :=
  {| status := 200;
     parsed := Some (JObj [("choices", JArr [JObj [("message", JObj [])]])]) |}.

Definition reply_null : Response := {| status := 200; parsed := Some JNull |}.

Definition reply_null_candidate : Response :=
  {| status := 200; parsed := Some (JObj [("candidates", JArr [JNull])]) |}.

(** An environment with both keys set. *)
Definition example_env_keyed : string → option string := λ _, Some "k".

(** The world the example caller is in once a first call has been made. *)
Definition example_world_later : World :=
  (respond example_env (answering reply_padded) example_StringToNumber
     example_ArrayToString ProviderA example_chatHistory "it's slow" false
     example_world).2.

(** ** Parts of the world a computation leaves as they are *)

(** [keeps f m]: the computation [m] leaves the part [f] of the world as it
    found it, whether it returns or throws. *)
Definition keeps {A B} (f : World → B) (m : M A) : Prop :=
  ∀ w, f (m w).2 = f w.

(** A part of the world that does not depend on the heap. *)
Definition heap_blind {B} (f : World → B) : Prop :=
  ∀ h w, f (set_heap h w) = f w.

(** [m] logs nothing when it returns, and only appends when it throws. *)
Definition silent_on_return {A} (m : M A) : Prop :=
  ∀ w, match (m w).1 with
       | Return _ => console (m w).2 = console w
       | Throw _ => ∃ extra, console (m w).2 = (console w ++ extra)%list
       end.

(** A value that is a reference to an array of the heap. *)
Definition is_array (h : gmap loc obj) (v : val) : bool :=
  match v with
  | VRef l =>
      match h !! l with
      | Some (Arr _) => true
      | _ => false
      end
  | _ => false
  end.

(** [m] throws nothing but [TypeError]. *)
Definition only_TypeError {A} (m : M A) : Prop :=
  ∀ w, match (m w).1 with
       | Return _ => True
       | Throw e => e = TypeError
       end.

(** A server that cannot be reached. *)
Definition unreachable : Request → FetchResult := λ _, NetworkFailure.

(** ** Shapes of a reply, as the guards of the adapters see them *)

(** A property that is absent or holds a falsy value: [null], [false], a
    zero, the empty string. *)
Definition falsy_field (name : string) (fields : list (string * json)) : bool :=
  negb (truthy (prop_lookup name fields)).

(** A body in which one of the fields the guard of [getAIResponse] tests for
    truth ([candidates], [candidates[0].content], [content.parts]) is absent
    or falsy. *)
Definition falsy_on_the_way_A (body : json) : bool :=
  match body with
  | JObj top =>
      falsy_field "candidates" top
      || match prop_lookup "candidates" top with
         | Some (JArr (JObj candidate :: _)) =>
             falsy_field "content" candidate
             || match prop_lookup "content" candidate with
                | Some (JObj content) => falsy_field "parts" content
                | _ => false
                end
         | _ => false
         end
  | _ => false
  end.

(** The same for [getOpenAIResponse]: [choices] and [choices[0].message]. *)
Definition falsy_on_the_way_B (body : json) : bool :=
  match body with
  | JObj top =>
      falsy_field "choices" top
      || match prop_lookup "choices" top with
         | Some (JArr (JObj choice :: _)) => falsy_field "message" choice
         | _ => false
         end
  | _ => false
  end.

Definition falsy_on_the_way (p : Provider) (body : json) : bool :=
  match p with
  | ProviderA => falsy_on_the_way_A body
  | ProviderB => falsy_on_the_way_B body
  end.

(** The value at the end of the expected path, whatever it is ([None] at
    the inner level when the last object has no such property), for a body of
    the expected shape down to the last object. *)
Definition reply_leaf (p : Provider) (body : json) : option jsv :=
  match p, body with
  | ProviderA, JObj top =>
      match prop_lookup "candidates" top with
      | Some (JArr (JObj candidate :: _)) =>
          match prop_lookup "content" candidate with
          | Some (JObj content) =>
              match prop_lookup "parts" content with
              | Some (JArr (JObj part :: _)) => Some (prop_lookup "text" part)
              | _ => None
              end
          | _ => None
          end
      | _ => None
      end
  | ProviderB, JObj top =>
      match prop_lookup "choices" top with
      | Some (JArr (JObj choice :: _)) =>
          match prop_lookup "message" choice with
          | Some (JObj message) => Some (prop_lookup "content" message)
          | _ => None
          end
      | _ => None
      end
  | _, _ => None
  end.

Definition is_object (body : json) : bool :=
  match body with
  | JObj _ => true
  | _ => false
  end.

Definition reply_null_content : Response :=
  {| status := 200;
     parsed := Some (JObj [("candidates", JArr [JObj [("content", JNull)]])]) |}.

Definition reply_number_text : Response :=
  {| status := 200;
     parsed := Some (JObj [("choices",
                            JArr [JObj [("message",
                                         JObj [("content", JNum num_40)])]])]) |}.

Definition reply_list : Response :=
  {| status := 200; parsed := Some (JArr [JStr "ok"]) |}.

(** ** Messages as the heap may hold them *)

(** A message object with any [role] at all, and a [text] that is a string
    or is not there. *)
Record Message : Type := mkMessage { msg_role : val; msg_text : option string }.

Definition read_message (h : gmap loc obj) (v : val) : option Message :=
  match v with
  | VRef l =>
      match h !! l with
      | Some (Obj props) =>
          let r := default VUndefined (prop_lookup "role" props) in
          match prop_lookup "text" props with
          | None | Some VUndefined => Some {| msg_role := r; msg_text := None |}
          | Some (VStr t) => Some {| msg_role := r; msg_text := Some t |}
          | _ => None
          end
      | _ => None
      end
  | _ => None
  end.

Definition read_messages (h : gmap loc obj) (v : val) : option (list Message) :=
  match v with
  | VRef l =>
      match h !! l with
      | Some (Arr elems) => mapM (read_message h) elems
      | _ => None
      end
  | _ => None
  end.

(** The message has the string [name] as its role. *)
Definition has_role (name : string) (m : Message) : bool :=
  match msg_role m with
  | VStr r => String.eqb r name
  | _ => false
  end.

Definition text_val (t : option string) : val :=
  match t with
  | Some s => VStr s
  | None => VUndefined
  end.

(** The member [name] of a serialised object for a text that may be absent:
    [JSON.stringify] leaves out a property that is [undefined]. *)
Definition text_member (name : string) (t : option string) : list (string * json) :=
  match t with
  | Some s => [(name, JStr s)]
  | None => []
  end.

(** What [getAIResponse] sends for a message: ["user"] stays ["user"] and
    every other role becomes ["model"]. *)
Definition gemini_turn (m : Message) : json :=
  JObj [("role", JStr (if has_role "user" m then "user" else "model"));
        ("parts", JArr [JObj (text_member "text" (msg_text m))])].

(** What [getOpenAIResponse] sends for a message: ["model"] becomes
    ["assistant"] and every other role becomes ["user"]. *)
Definition openai_message (m : Message) : json :=
  JObj (("role", JStr (if has_role "model" m then "assistant" else "user"))
          :: text_member "content" (msg_text m)).

(** A caller's heap with a message of an unknown role and a message without
    text: [[{role: 'assistant', text: 'hello'}, {role: 'user'}]]. *)
Definition odd_heap : gmap loc obj :=
  <[3%positive := Arr [VRef 1; VRef 2]]>
    (<[2%positive := Obj [("role", VStr "user")]]>
       (<[1%positive := Obj [("role", VStr "assistant"); ("text", VStr "hello")]]> ∅)).

Definition odd_world : World := {| heap := odd_heap; console := []; network := [] |}.

Definition odd_messages : list Message :=
  [{| msg_role := VStr "assistant"; msg_text := Some "hello" |};
   {| msg_role := VStr "user"; msg_text := None |}].

(** * The component: [src/App.js] *)

(** One call of a handler of the component is followed from its start to
    its settlement, in the closure of the render it was created in.  What
    it does to the state of React and to the speech synthesiser is kept as
    a list of events, in the order of the calls; what other handlers do
    while it waits is not modelled, nor is rendering. *)

(** ** What a handler does to the screen *)

(** The text of a chat message or of an utterance: a value the handler
    holds, or the template [`Error: ${error.message || '...'}`] around a
    caught error.  The error is kept rather than the string because the
    messages of the engine's own errors are not modelled. *)
Inductive ChatText : Type :=
| Value (v : jsv)
| ErrorText (e : error).

(** The string of an [ErrorText], where the message is known: an empty
    message gives way to the fallback text. *)
Definition error_text (e : error) : option string :=
  match e with
  | Error message =>
      Some ("Error: "
              ++ (if String.eqb message ""
                  then "There was an error connecting to the AI. Please check your network or try again later."
                  else message))
  | TypeError | SyntaxError => None
  end.

(** The argument of [setChatHistory]. *)
Inductive Updater : Type :=
| SetTo (v : val)
    (** [setChatHistory(v)] *)
| AppendMessage (message : val)
    (** [setChatHistory((prev) => [...prev, message])], for a message that
        is on the heap already *)
| AppendModelMessage (text : ChatText) (model : string)
    (** [setChatHistory((prev) => [...prev, { role: 'model', text, model }])] *)
| AppendModelReply (text : ChatText)
    (** [setChatHistory((prev) => [...prev, { role: 'model', text }])] *).

Inductive Event : Type :=
| SetChatHistory (u : Updater)
| SetUserInput (s : string)
| SetIsLoading (b : bool)
| ConsoleWarn (s : string)
| Speak (text : ChatText)
    (** [speechSynthesis.speak(new SpeechSynthesisUtterance(text))] *)
| CancelSpeech.

Record Screen : Type := mkScreen { world : World; events : list Event }.

(** ** The monad of handlers *)

Definition UI (A : Type) : Type := Screen → outcome A * Screen.

Definition ui_ret {A} (a : A) : UI A := λ s, (Return a, s).

Definition ui_bind {A B} (m : UI A) (k : A → UI B) : UI B :=
  λ s, match m s with
       | (Return a, s') => k a s'
       | (Throw e, s') => (Throw e, s')
       end.

Definition ui_throw {A} (e : error) : UI A := λ s, (Throw e, s).

Definition ui_try_catch {A} (m : UI A) (handler : error → UI A) : UI A :=
  λ s, match m s with
       | (Return a, s') => (Return a, s')
       | (Throw e, s') => handler e s'
       end.

(** [try { m } finally { f }]: [f] runs whatever [m] ended in, and the end
    of [m] stands unless [f] throws. *)
Definition ui_finally {A} (m : UI A) (f : UI unit) : UI A :=
  λ s, match m s with
       | (o, s') =>
           match f s' with
           | (Return _, s'') => (o, s'')
           | (Throw e, s'') => (Throw e, s'')
           end
       end.

(** A computation on the heap, the console and the network. *)
Definition run {A} (m : M A) : UI A :=
  λ s, match m (world s) with
       | (o, w') => (o, {| world := w'; events := events s |})
       end.

Definition emit (e : Event) : UI unit :=
  λ s, (Return tt, {| world := world s; events := events s ++ [e] |}).

Declare Scope ui_scope.
Delimit Scope ui_scope with ui.
Notation "x <- m ;; k" := (ui_bind m (λ x, k))
  (at level 100, m at next level, right associativity) : ui_scope.
Notation "m ;;; k" := (ui_bind m (λ _, k))
  (at level 100, right associativity) : ui_scope.

(** ** The handlers *)

(** What a render of [App] closes over. *)
Record Closure : Type := mkClosure {
  chatHistory : val;
  userInput : string;
  isVoiceEnabled : bool;
  aiModel : string
}.

Section Component.

Variable env : string → option string.
Variable fetch : Request → FetchResult.
Variable StringToNumber : string → spec_float.
Variable ArrayToString : list json → outcome string.
(** [String.prototype.trim]. *)
Variable trim : string → string.
(** ['speechSynthesis' in window]. *)
Variable has_speech : bool.

(** [!process.env[name] || process.env[name] === placeholder]. *)
Definition key_not_set (name placeholder : string) : bool :=
  match env name with
  | None => true
  | Some k => String.eqb k "" || String.eqb k placeholder
  end.

(** Lines 27 to 38. *)
Definition speakText (c : Closure) (text : ChatText) : UI unit :=
  if negb (isVoiceEnabled c) || negb has_speech
  then emit (ConsoleWarn "Speech synthesis not supported or voice disabled.")
  else emit (Speak text).

(** Lines 41 to 95. *)
Definition sendMessage (c : Closure) : UI unit :=
  (if String.eqb (trim (userInput c)) ""
   then ui_ret tt (* Prevent sending empty messages *)
   else
     userMessage <- run (new_object [("role", VStr "user");
                                     ("text", VStr (userInput c))]) ;;
     emit (SetChatHistory (AppendMessage userMessage)) ;;;
     emit (SetUserInput "") ;;;
     emit (SetIsLoading true) ;;;
     ui_finally
       (ui_try_catch
          ((* Check if API key is set *)
           (if String.eqb (aiModel c) "gemini"
               && key_not_set "REACT_APP_GEMINI_API_KEY" "your_gemini_api_key_here"
            then ui_throw (Error "Gemini API key is not set. Please add your API key to the .env file.")
            else ui_ret tt) ;;;
           (if String.eqb (aiModel c) "openai"
               && key_not_set "REACT_APP_OPENAI_API_KEY" "your_openai_api_key_here"
            then ui_throw (Error "OpenAI API key is not set. Please add your API key to the .env file.")
            else ui_ret tt) ;;;
           length <- run (get_prop (chatHistory c) "length") ;;
           let isFirstMessage := strict_equal length (VNum num_zero) in
           aiResponseText <-
             run (if String.eqb (aiModel c) "openai"
                  then getOpenAIResponse env fetch StringToNumber ArrayToString
                         (chatHistory c) (userInput c)
                  else (* Default to Gemini *)
                    getAIResponse env fetch StringToNumber ArrayToString
                      (chatHistory c) (userInput c) isFirstMessage) ;;
           emit (SetChatHistory (AppendModelMessage (Value aiResponseText) (aiModel c))) ;;;
           speakText c (Value aiResponseText))
          (λ error,
             run (console_error "Error fetching AI response:" (LogError error)) ;;;
             let errorMessage := ErrorText error in
             emit (SetChatHistory (AppendModelMessage errorMessage (aiModel c))) ;;;
             speakText c errorMessage))
       (emit (SetIsLoading false)))%ui.

(** Lines 98 to 114. *)
Definition resetChat (c : Closure) : UI unit :=
  ((* Stop any ongoing speech *)
   (if has_speech then emit CancelSpeech else ui_ret tt) ;;;
   cleared <- run (new_array []) ;;
   emit (SetChatHistory (SetTo cleared)) ;;;
   emit (SetUserInput "") ;;;
   emit (SetIsLoading false) ;;;
   let welcomeMessage :=
     "Hello! I am your Optimum Agent. How can I assist you with your technical issue today?" in
   message <- run (new_object [("role", VStr "model");
                               ("text", VStr welcomeMessage);
                               ("model", VStr (aiModel c))]) ;;
   welcome <- run (new_array [message]) ;;
   emit (SetChatHistory (SetTo welcome)) ;;;
   speakText c (Value (Some (JStr welcomeMessage))))%ui.

(** Lines 117 to 121: the effect that runs after a render. *)
Definition welcome_effect (c : Closure) : UI unit :=
  (length <- run (get_prop (chatHistory c) "length") ;;
   if strict_equal length (VNum num_zero) then resetChat c else ui_ret tt)%ui.

(** The [try] block of [sendMessage] up to the reply: the checks of the
    key, the first-message flag and the call of the adapter. *)
Definition ask (c : Closure) : M jsv :=
  (if String.eqb (aiModel c) "gemini"
      && key_not_set "REACT_APP_GEMINI_API_KEY" "your_gemini_api_key_here"
   then throw (Error "Gemini API key is not set. Please add your API key to the .env file.")
   else ret tt) ;;;
  (if String.eqb (aiModel c) "openai"
      && key_not_set "REACT_APP_OPENAI_API_KEY" "your_openai_api_key_here"
   then throw (Error "OpenAI API key is not set. Please add your API key to the .env file.")
   else ret tt) ;;;
  length <- get_prop (chatHistory c) "length" ;;
  respond env fetch StringToNumber ArrayToString
    (if String.eqb (aiModel c) "openai" then ProviderB else ProviderA)
    (chatHistory c) (userInput c) (strict_equal length (VNum num_zero)).

End Component.

(** The chat history of the next render, when every update queued is a
    plain value: updates are applied in the order of the calls, so that the
    last one stands.  [None] when an update is a function of the state. *)
Fixpoint next_chatHistory (prev : val) (queued : list Event) : option val :=
  match queued with
  | [] => Some prev
  | SetChatHistory (SetTo v) :: rest => next_chatHistory v rest
  | SetChatHistory _ :: _ => None
  | _ :: rest => next_chatHistory prev rest
  end.

(** What [sendMessage] queues before it asks, and what it shows once it
    knows the end of the call. *)
Definition queued_first (userMessage : val) : list Event :=
  [SetChatHistory (AppendMessage userMessage); SetUserInput ""; SetIsLoading true].

Definition shown (has_speech : bool) (c : Closure) (text : ChatText) : list Event :=
  [SetChatHistory (AppendModelMessage text (aiModel c));
   if isVoiceEnabled c && has_speech
   then Speak text
   else ConsoleWarn "Speech synthesis not supported or voice disabled.";
   SetIsLoading false].

(** ** Renders to try the handlers on *)

Definition example_trim : string → string := λ s, s.

Definition example_closure : Closure :=
  {| chatHistory := example_chatHistory; userInput := "it's slow";
     isVoiceEnabled := true; aiModel := "gemini" |}.

Definition example_screen : Screen := {| world := example_world; events := [] |}.

(** The provider a render has selected: anything but ['openai'] goes to
    [getAIResponse]. *)
Definition provider_of (c : Closure) : Provider :=
  if String.eqb (aiModel c) "openai" then ProviderB else ProviderA.

Definition welcome_text : string :=
  "Hello! I am your Optimum Agent. How can I assist you with your technical issue today?".

(** The render that follows a reset of [example_closure]: the welcome is
    the third object the reset allocates. *)
Definition example_closure_after_reset : Closure :=
  {| chatHistory := VRef 6; userInput := "it's slow";
     isVoiceEnabled := false; aiModel := "gemini" |}.

(** * The earlier component: [App.js] with the request built in the handler *)

(** [speakText] is the same function in both versions of the component. *)

Module Earlier.

Section Component.

Variable env : string → option string.
Variable fetch : Request → FetchResult.
Variable StringToNumber : string → spec_float.
Variable ArrayToString : list json → outcome string.
Variable trim : string → string.
Variable has_speech : bool.

(** Lines 51 to 79 of [sendMessage]: the request object. *)
Definition sendMessage_payload (c : Closure) : M val :=
  (* Prepare the chat history for the Gemini API payload *)
  apiChatHistory <-
    array_map (λ msg,
      role <- get_prop msg "role" ;;
      text <- get_prop msg "text" ;;
      role_parts (if strict_equal role (VStr "user") then "user" else "model") text)
    (chatHistory c) ;;
  (* Add the current user message to the API chat history *)
  current <- role_parts "user" (VStr (userInput c)) ;;
  array_push apiChatHistory current ;;;
  (* Define the initial prompt for the AI to set its persona *)
  initialPrompt <- role_parts "user" (VStr initialPrompt_text) ;;
  (* If it's the very first message, include the initial persona prompt *)
  length <- get_prop (chatHistory c) "length" ;;
  payloadContents <-
    (if strict_equal length (VNum num_zero)
     then (first <- role_parts "user" (VStr (userInput c)) ;;
           new_array [initialPrompt; first])
     else ret apiChatHistory) ;;
  generationConfig <-
    new_object [("temperature", VNum num_0_7); ("topK", VNum num_40);
                ("topP", VNum num_0_95); ("maxOutputTokens", VNum num_500)] ;;
  new_object [("contents", payloadContents);
              ("generationConfig", generationConfig)].

(** Lines 82 to 89: the call. *)
Definition sendMessage_request (c : Closure) : M Response :=
  payload <- sendMessage_payload c ;;
  (* Get API key from environment variables *)
  let apiKey := env_or_empty env "REACT_APP_GEMINI_API_KEY" in
  let apiUrl :=
    "https://generativelanguage.googleapis.com/v1beta/models/gemini-2.0-flash:generateContent?key="
    ++ apiKey in
  text <- JSON_stringify payload ;;
  do_fetch fetch {| url := apiUrl; method := "POST";
                    headers := [("Content-Type", "application/json")];
                    body := text |}.

(** The condition of lines 93 to 95. *)
Definition sendMessage_valid (result : jsv) : M bool :=
  (c <- jpath result [KName "candidates"] ;; ret (truthy c))
  &&&& (n <- jpath result [KName "candidates"; KName "length"] ;;
        lift (greater_than_zero StringToNumber ArrayToString n))
  &&&& (c <- jpath result [KName "candidates"; KIndex 0; KName "content"] ;;
        ret (truthy c))
  &&&& (p <- jpath result [KName "candidates"; KIndex 0; KName "content";
                          KName "parts"] ;;
        ret (truthy p))
  &&&& (n <- jpath result [KName "candidates"; KIndex 0; KName "content";
                          KName "parts"; KName "length"] ;;
        lift (greater_than_zero StringToNumber ArrayToString n)).

(** Lines 38 to 115. *)
Definition sendMessage (c : Closure) : UI unit :=
  (if String.eqb (trim (userInput c)) ""
   then ui_ret tt (* Prevent sending empty messages *)
   else
     userMessage <- run (new_object [("role", VStr "user");
                                     ("text", VStr (userInput c))]) ;;
     emit (SetChatHistory (AppendMessage userMessage)) ;;;
     emit (SetUserInput "") ;;;
     emit (SetIsLoading true) ;;;
     ui_finally
       (ui_try_catch
          (response <- run (sendMessage_request c) ;;
           result <- run (response_json response) ;;
           let result := Some result in
           valid <- run (sendMessage_valid result) ;;
           if valid
           then
             aiResponseText <-
               run (jpath result [KName "candidates"; KIndex 0; KName "content";
                                  KName "parts"; KIndex 0; KName "text"]) ;;
             emit (SetChatHistory (AppendModelReply (Value aiResponseText))) ;;;
             speakText has_speech c (Value aiResponseText)
           else
             run (console_error "Unexpected API response structure:"
                    (LogValue result)) ;;;
             let errorMessage :=
               Value (Some (JStr "Sorry, I could not get a response from the AI. Please try again.")) in
             emit (SetChatHistory (AppendModelReply errorMessage)) ;;;
             speakText has_speech c errorMessage)
          (λ error,
             run (console_error "Error fetching AI response:" (LogError error)) ;;;
             let errorMessage :=
               Value (Some (JStr "There was an error connecting to the AI. Please check your network or try again later.")) in
             emit (SetChatHistory (AppendModelReply errorMessage)) ;;;
             speakText has_speech c errorMessage))
       (emit (SetIsLoading false)))%ui.

(** Lines 91 to 106: the text the [try] block shows for a reply, whatever
    the status of the reply. *)
Definition reply_of (response : Response) : M jsv :=
  result <- response_json response ;;
  let result := Some result in
  valid <- sendMessage_valid result ;;
  if valid
  then jpath result [KName "candidates"; KIndex 0; KName "content";
                     KName "parts"; KIndex 0; KName "text"]
  else
    console_error "Unexpected API response structure:" (LogValue result) ;;;
    ret (Some (JStr "Sorry, I could not get a response from the AI. Please try again.")).

(** The [try] block of [sendMessage] up to the text it shows. *)
Definition ask (c : Closure) : M jsv :=
  response <- sendMessage_request c ;;
  reply_of response.

End Component.

(** What the earlier [sendMessage] shows once it knows the end of the call. *)
Definition shown (has_speech : bool) (c : Closure) (text : ChatText) : list Event :=
  [SetChatHistory (AppendModelReply text);
   if isVoiceEnabled c && has_speech
   then Speak text
   else ConsoleWarn "Speech synthesis not supported or voice disabled.";
   SetIsLoading false].

End Earlier.

(** ** Bodies without the top-level list *)

(** A reply body that has no top-level list ([candidates], [choices]), or
    has it empty.  A body that is not an object has no member at all. *)
Definition list_missing_or_empty (p : Provider) (body : json) : bool :=
  match body with
  | JObj top =>
      match prop_lookup (top_field p) top with
      | None | Some (JArr []) => true
      | _ => false
      end
  | _ => true
  end.

(** A reply whose [candidates] has an object for a length, with a member
    named [toString]: [{"candidates": {"length": {"toString": 1}}}]. *)
Definition reply_length_object : Response :=
  {| status := 200;
     parsed := Some (JObj [("candidates",
                            JObj [("length", JObj [("toString", JNum num_1)])])]) |}.

(** ** Basic facts about the heap *)

Lemma fresh_loc_lookup (h : gmap loc obj) : h !! fresh_loc h = None.
Proof. unfold fresh_loc. apply (not_elem_of_dom (D := gset loc)). apply is_fresh. Qed.

Lemma fresh_loc_ne (h : gmap loc obj) l o : h !! l = Some o → fresh_loc h ≠ l.
Proof. intros Hl Heq. rewrite <- Heq, fresh_loc_lookup in Hl. discriminate. Qed.

Lemma alloc_extends (h : gmap loc obj) o : h ⊆ <[fresh_loc h := o]> h.
Proof. apply insert_subseteq, fresh_loc_lookup. Qed.

Lemma alloc_size (h : gmap loc obj) o : size (<[fresh_loc h := o]> h) = S (size h).
Proof. apply map_size_insert_None, fresh_loc_lookup. Qed.

(** [push] writes to the array it is called on: had an adapter pushed onto
    the caller's array, the caller would see it. *)
Example array_push_in_place :
  heap (array_push example_chatHistory VNull example_world).2 !! 3%positive
  = Some (Arr [VRef 1; VRef 2; VNull]).
Proof. vm_compute. reflexivity. Qed.

Lemma sub_fresh (g h : gmap loc obj) : g ⊆ h → g !! fresh_loc h = None.
Proof.
  intros Hsub. destruct (g !! fresh_loc h) as [o|] eqn:E; [|done].
  eapply lookup_weaken in E; [|exact Hsub]. by rewrite fresh_loc_lookup in E.
Qed.

(** The numeric literals are the doubles JavaScript reads them as. *)
Lemma num_literals :
  nearest_binary64 num_0_7 7 10 ∧ nearest_binary64 num_0_95 95 100
  ∧ nearest_binary64 num_40 40 1 ∧ nearest_binary64 num_500 500 1
  ∧ nearest_binary64 num_1 1 1.
Proof. repeat split; vm_compute; congruence. Qed.

(** ** Serialisation is stable under heap growth and more fuel *)

Lemma stringify_items_ext (rec rec' : val → option (option json)) vs js :
  (∀ x r, rec x = Some r → rec' x = Some r) →
  stringify_items rec vs = Some js → stringify_items rec' vs = Some js.
Proof.
  intros Hrec. revert js. induction vs as [|x rest IH]; intros js; simpl; [done|].
  destruct (rec x) as [j|] eqn:Ex; [|done].
  destruct (stringify_items rec rest) as [js'|] eqn:Er; [|done].
  intros [= <-]. by rewrite (Hrec _ _ Ex), (IH _ eq_refl).
Qed.

Lemma stringify_members_ext (rec rec' : val → option (option json)) ps fs :
  (∀ x r, rec x = Some r → rec' x = Some r) →
  stringify_members rec ps = Some fs → stringify_members rec' ps = Some fs.
Proof.
  intros Hrec. revert fs. induction ps as [|[k x] rest IH]; intros fs; simpl; [done|].
  destruct (rec x) as [j|] eqn:Ex; [|done].
  rewrite (Hrec _ _ Ex).
  destruct (stringify_members rec rest) as [fs'|] eqn:Er.
  - rewrite (IH _ eq_refl). by destruct j.
  - by destruct j.
Qed.

Lemma stringify_ref (n : nat) (g : gmap loc obj) l :
  stringify (S n) g (VRef l)
  = match g !! l with
    | None => None
    | Some (Arr elems) =>
        match stringify_items (stringify n g) elems with
        | Some js => Some (Some (JArr js))
        | None => None
        end
    | Some (Obj props) =>
        match stringify_members (stringify n g) props with
        | Some fs => Some (Some (JObj fs))
        | None => None
        end
    end.
Proof. reflexivity. Qed.

Lemma stringify_mono (n m : nat) (g g' : gmap loc obj) v r :
  (n ≤ m)%nat → g ⊆ g' → stringify n g v = Some r → stringify m g' v = Some r.
Proof.
  intros Hnm Hsub. revert m Hnm v r.
  induction n as [|n IH]; intros m Hnm v r; destruct v; simpl;
    try (destruct m; simpl; done).
  destruct m as [|m]; [lia|]. simpl.
  destruct (g !! l) as [o|] eqn:El; [|done].
  rewrite (lookup_weaken _ _ _ _ El Hsub).
  assert (Hrec : ∀ x r, stringify n g x = Some r → stringify m g' x = Some r)
    by (intros; apply IH; [lia|done]).
  destruct o as [elems|props].
  - destruct (stringify_items (stringify n g) elems) as [js|] eqn:E; [|done].
    by rewrite (stringify_items_ext _ _ _ _ Hrec E).
  - destruct (stringify_members (stringify n g) props) as [fs|] eqn:E; [|done].
    by rewrite (stringify_members_ext _ _ _ _ Hrec E).
Qed.

(** An array whose elements serialise to [js] contributes exactly [js]. *)
Lemma stringify_items_Forall2 (rec : val → option (option json)) vs js :
  Forall2 (λ v j, rec v = Some (Some j)) vs js → stringify_items rec vs = Some js.
Proof.
  induction 1 as [|v j vs js Hv _ IH]; simpl; [done|]. by rewrite Hv, IH.
Qed.

(** ** Steps of a computation that only grow the heap *)

Lemma grows_refl g w : g ⊆ heap w → grows g w g w.
Proof. intros. by constructor. Qed.

Lemma grows_trans g w g' w' g'' w'' :
  grows g w g' w' → grows g' w' g'' w'' → grows g w g'' w''.
Proof.
  intros [] []. constructor; try (etrans; done); try congruence.
  intros l [o Hl]. rewrite grows_old1, grows_old0; eauto.
  exists o. by eapply lookup_weaken.
Qed.

(** Allocation, with the new object added to the known part. *)
Lemma alloc_grows g w o :
  g ⊆ heap w →
  let l := fresh_loc (heap w) in
  let w' := set_heap (<[l := o]> (heap w)) w in
  alloc o w = (Return (VRef l), w')
  ∧ grows g w (<[l := o]> g) w'
  ∧ size (heap w') = S (size (heap w)).
Proof.
  intros Hsub l w'. subst l w'. split; [done|]. split.
  - constructor; simpl; try done.
    + apply insert_subseteq, sub_fresh, Hsub.
    + by apply insert_mono.
    + apply alloc_extends.
    + intros l' [o' Hl']. apply lookup_insert_ne. by eapply fresh_loc_ne.
    + rewrite alloc_size. lia.
  - apply alloc_size.
Qed.

(** Allocation of an object that is kept out of the known part. *)
Lemma alloc_grows_aside g w o :
  g ⊆ heap w →
  let l := fresh_loc (heap w) in
  let w' := set_heap (<[l := o]> (heap w)) w in
  alloc o w = (Return (VRef l), w')
  ∧ grows g w g w'
  ∧ g !! l = None ∧ heap w' !! l = Some o.
Proof.
  intros Hsub l w'. subst l w'. split; [done|]. split; [|split].
  - constructor; simpl; try done.
    + etrans; [exact Hsub|apply alloc_extends].
    + apply alloc_extends.
    + rewrite alloc_size. lia.
  - by apply sub_fresh.
  - simpl. apply lookup_insert_eq.
Qed.

Lemma role_parts_run g w r t :
  g ⊆ heap w →
  ∃ v w' g',
    role_parts r (VStr t) w = (Return v, w')
    ∧ grows g w g' w'
    ∧ stringify 3 g' v = Some (Some (role_parts_json r t))
    ∧ size (heap w') = S (S (S (size (heap w)))).
Proof.
  intros Hsub. unfold role_parts, new_object, new_array, bind.
  destruct (alloc_grows g w (Obj [("text", VStr t)]) Hsub) as (E1 & G1 & S1).
  rewrite E1.
  set (l1 := fresh_loc (heap w)) in *.
  set (w1 := set_heap _ w) in *.
  set (g1 := <[l1 := _]> g) in *.
  destruct (alloc_grows g1 w1 (Arr [VRef l1]) (grows_sub _ _ _ _ G1)) as (E2 & G2 & S2).
  rewrite E2.
  set (l2 := fresh_loc (heap w1)) in *.
  set (w2 := set_heap _ w1) in *.
  set (g2 := <[l2 := _]> g1) in *.
  destruct (alloc_grows g2 w2 (Obj [("role", VStr r); ("parts", VRef l2)])
              (grows_sub _ _ _ _ G2)) as (E3 & G3 & S3).
  rewrite E3.
  set (l3 := fresh_loc (heap w2)) in *.
  set (w3 := set_heap _ w2) in *.
  set (g3 := <[l3 := _]> g2) in *.
  assert (H1 : g3 !! l1 = Some (Obj [("text", VStr t)])).
  { eapply lookup_weaken; [|exact (grows_known _ _ _ _ G3)].
    eapply lookup_weaken; [|exact (grows_known _ _ _ _ G2)].
    apply lookup_insert_eq. }
  assert (H2 : g3 !! l2 = Some (Arr [VRef l1])).
  { eapply lookup_weaken; [|exact (grows_known _ _ _ _ G3)].
    apply lookup_insert_eq. }
  assert (H3 : g3 !! l3 = Some (Obj [("role", VStr r); ("parts", VRef l2)]))
    by apply lookup_insert_eq.
  clearbody g3 l3 l2 l1.
  exists (VRef l3), w3, g3. split; [done|]. split; [|split].
  - eapply grows_trans; [exact G1|]. eapply grows_trans; [exact G2|exact G3].
  - simpl. rewrite H3. simpl. rewrite H2. simpl. by rewrite H1.
  - lia.
Qed.

(** ** Reading the conversation *)

Lemma read_turn_inv g v t :
  read_turn g v = Some t →
  ∃ l props r,
    v = VRef l ∧ g !! l = Some (Obj props)
    ∧ prop_lookup "role" props = Some (VStr r)
    ∧ prop_lookup "text" props = Some (VStr (text t))
    ∧ speaker_of_role r = Some (role t).
Proof.
  unfold read_turn. destruct v as [| | | | |l]; try done.
  destruct (g !! l) as [[|props]|] eqn:El; try done.
  destruct (prop_lookup "role" props) as [[| | | |r|]|] eqn:Erole; try done.
  destruct (prop_lookup "text" props) as [[| | | |s|]|] eqn:Etext; try done.
  destruct (speaker_of_role r) as [sp|] eqn:Er; [|done].
  intros [= <-]. by exists l, props, r.
Qed.

Lemma read_turn_weaken g g' v t :
  g ⊆ g' → read_turn g v = Some t → read_turn g' v = Some t.
Proof.
  intros Hsub Hr. destruct (read_turn_inv _ _ _ Hr) as (l & props & r & -> & Hl & _).
  unfold read_turn in *. rewrite Hl in Hr. by rewrite (lookup_weaken _ _ _ _ Hl Hsub).
Qed.

Lemma read_history_inv g v history :
  read_history g v = Some history →
  ∃ l elems,
    v = VRef l ∧ g !! l = Some (Arr elems)
    ∧ Forall2 (λ x t, read_turn g x = Some t) elems history.
Proof.
  unfold read_history. destruct v as [| | | | |l]; try done.
  destruct (g !! l) as [[elems|]|] eqn:El; try done.
  intros Hm. exists l, elems. split; [done|]. split; [done|]. by apply mapM_Some_1.
Qed.

Lemma get_prop_object w l props name :
  heap w !! l = Some (Obj props) →
  get_prop (VRef l) name w = (Return (default VUndefined (prop_lookup name props)), w).
Proof. intros Hl. unfold get_prop. by rewrite Hl. Qed.

Lemma speaker_of_role_A r s :
  speaker_of_role r = Some s →
  (if strict_equal (VStr r) (VStr "user") then "user" else "model") = providerA_role s.
Proof.
  unfold speaker_of_role. simpl. destruct (String.eqb r "user") eqn:E1.
  - by intros [= <-].
  - destruct (String.eqb r "model"); [|done]. by intros [= <-].
Qed.

Lemma speaker_of_role_B r s :
  speaker_of_role r = Some s →
  (if strict_equal (VStr r) (VStr "model") then "assistant" else "user") = providerB_role s.
Proof.
  unfold speaker_of_role. simpl. destruct (String.eqb r "user") eqn:E1.
  - intros [= <-]. apply String.eqb_eq in E1 as ->. done.
  - destruct (String.eqb r "model"); [|done]. by intros [= <-].
Qed.

(** Every conversation of the specification is the reading of some heap:
    the properties below, stated for conversations read from the heap, cover
    all of them. *)
Lemma store_turns_read ts : ∀ h,
  h ⊆ (store_turns ts h).2
  ∧ Forall2 (λ v t, read_turn (store_turns ts h).2 v = Some t) (store_turns ts h).1 ts.
Proof.
  induction ts as [|t rest IH]; intros h; simpl.
  - split; [done|constructor].
  - destruct (IH (<[fresh_loc h := turn_object t]> h)) as [Hsub Hall].
    destruct (store_turns rest (<[fresh_loc h := turn_object t]> h)) as [vs h'] eqn:E.
    simpl in *. split.
    + etrans; [apply alloc_extends|exact Hsub].
    + constructor; [|exact Hall].
      unfold read_turn.
      rewrite (lookup_weaken _ _ _ _ (lookup_insert_eq h (fresh_loc h) (turn_object t)) Hsub).
      by destruct t as [[] ?].
Qed.

Lemma store_history_read ts h :
  h ⊆ (store_history ts h).2
  ∧ read_history (store_history ts h).2 (store_history ts h).1 = Some ts.
Proof.
  unfold store_history. destruct (store_turns_read ts h) as [Hsub Hall].
  destruct (store_turns ts h) as [vs h'] eqn:E. simpl in *. split.
  - etrans; [exact Hsub|apply alloc_extends].
  - unfold read_history. rewrite lookup_insert_eq. apply mapM_Some_2.
    eapply Forall2_impl; [exact Hall|]. intros v t Hv.
    eapply read_turn_weaken; [apply alloc_extends|exact Hv].
Qed.

(** ** Mapping the conversation *)

(** A callback that turns each message object into an object serialising
    to [expected] does so for the whole conversation, in order. *)
Lemma for_each_grows (f : val → M val) (expected : Turn → json) (fuel : nat) :
  (∀ g w x t, g ⊆ heap w → read_turn g x = Some t →
     ∃ y w' g', f x w = (Return y, w') ∧ grows g w g' w'
                ∧ stringify fuel g' y = Some (Some (expected t))) →
  ∀ elems history g w,
    g ⊆ heap w →
    Forall2 (λ x t, read_turn g x = Some t) elems history →
    ∃ ys w' g',
      for_each f elems w = (Return ys, w') ∧ grows g w g' w'
      ∧ Forall2 (λ y j, stringify fuel g' y = Some (Some j)) ys (map expected history).
Proof.
  intros Hf elems. induction elems as [|x elems IH]; intros history g w Hsub Hall.
  - apply Forall2_nil_inv_l in Hall as ->.
    exists [], w, g. simpl. split; [done|]. split; [by apply grows_refl|constructor].
  - apply Forall2_cons_inv_l in Hall as (t & history' & Hx & Hrest & ->).
    rename history' into history.
    destruct (Hf g w x t Hsub Hx) as (y & w1 & g1 & Ey & G1 & Sy).
    assert (Hrest' : Forall2 (λ x t, read_turn g1 x = Some t) elems history).
    { eapply Forall2_impl; [exact Hrest|]. intros ? ? ?.
      eapply read_turn_weaken; [exact (grows_known _ _ _ _ G1)|done]. }
    destruct (IH history g1 w1 (grows_sub _ _ _ _ G1) Hrest')
      as (ys & w2 & g2 & Eys & G2 & Sys).
    exists (y :: ys), w2, g2. split; [|split].
    + simpl. unfold bind at 1. rewrite Ey. unfold bind at 1. by rewrite Eys.
    + eapply grows_trans; done.
    + simpl. constructor; [|done].
      eapply stringify_mono; [|exact (grows_known _ _ _ _ G2)|exact Sy]. lia.
Qed.

Lemma array_map_grows (f : val → M val) (expected : Turn → json) (fuel : nat) :
  (∀ g w x t, g ⊆ heap w → read_turn g x = Some t →
     ∃ y w' g', f x w = (Return y, w') ∧ grows g w g' w'
                ∧ stringify fuel g' y = Some (Some (expected t))) →
  ∀ g w v history,
    g ⊆ heap w →
    read_history g v = Some history →
    ∃ la ys w' g',
      array_map f v w = (Return (VRef la), w') ∧ grows g w g' w'
      ∧ g' !! la = None ∧ heap w' !! la = Some (Arr ys)
      ∧ Forall2 (λ y j, stringify fuel g' y = Some (Some j)) ys (map expected history).
Proof.
  intros Hf g w v history Hsub Hread.
  destruct (read_history_inv _ _ _ Hread) as (l & elems & -> & Hl & Hall).
  destruct (for_each_grows f expected fuel Hf elems history g w Hsub Hall)
    as (ys & w1 & g1 & Eys & G1 & Sys).
  destruct (alloc_grows_aside g1 w1 (Arr ys) (grows_sub _ _ _ _ G1))
    as (Ea & G2 & Hnone & Hsome).
  exists (fresh_loc (heap w1)), ys, (set_heap (<[fresh_loc (heap w1) := Arr ys]> (heap w1)) w1), g1.
  split; [|split; [|done]].
  - unfold array_map. rewrite (lookup_weaken _ _ _ _ Hl Hsub).
    unfold bind. rewrite Eys. exact Ea.
  - eapply grows_trans; done.
Qed.

(** The callback of [getAIResponse]. *)
Lemma gemini_callback_run g w x t :
  g ⊆ heap w → read_turn g x = Some t →
  ∃ y w' g',
    (role <- get_prop x "role" ;;
     text <- get_prop x "text" ;;
     role_parts (if strict_equal role (VStr "user") then "user" else "model") text) w
    = (Return y, w')
    ∧ grows g w g' w'
    ∧ stringify 3 g' y = Some (Some (providerA_turn t)).
Proof.
  intros Hsub Hread.
  destruct (read_turn_inv _ _ _ Hread) as (l & props & r & -> & Hl & Hrole & Htext & Hsp).
  pose proof (lookup_weaken _ _ _ _ Hl Hsub) as Hl'.
  unfold bind at 1. rewrite (get_prop_object _ _ _ _ Hl'), Hrole.
  unfold bind at 1. rewrite (get_prop_object _ _ _ _ Hl'), Htext. simpl default.
  rewrite (speaker_of_role_A _ _ Hsp).
  destruct (role_parts_run g w (providerA_role (role t)) (text t) Hsub)
    as (y & w' & g' & E & G & S & _).
  by exists y, w', g'.
Qed.

(** The callback of [getOpenAIResponse]. *)
Lemma openai_callback_run g w x t :
  g ⊆ heap w → read_turn g x = Some t →
  ∃ y w' g',
    (role <- get_prop x "role" ;;
     text <- get_prop x "text" ;;
     new_object [("role", VStr (if strict_equal role (VStr "model")
                                then "assistant" else "user"));
                 ("content", text)]) w
    = (Return y, w')
    ∧ grows g w g' w'
    ∧ stringify 1 g' y = Some (Some (providerB_turn t)).
Proof.
  intros Hsub Hread.
  destruct (read_turn_inv _ _ _ Hread) as (l & props & r & -> & Hl & Hrole & Htext & Hsp).
  pose proof (lookup_weaken _ _ _ _ Hl Hsub) as Hl'.
  unfold bind at 1. rewrite (get_prop_object _ _ _ _ Hl'), Hrole.
  unfold bind at 1. rewrite (get_prop_object _ _ _ _ Hl'), Htext. simpl default.
  rewrite (speaker_of_role_B _ _ Hsp). unfold new_object.
  destruct (alloc_grows g w (Obj [("role", VStr (providerB_role (role t)));
                                  ("content", VStr (text t))]) Hsub) as (E & G & _).
  eexists _, _, _. split; [exact E|]. split; [exact G|].
  simpl. by rewrite lookup_insert_eq.
Qed.

(** ** The request of [getAIResponse] *)

Lemma array_push_known g w la ys x :
  g ⊆ heap w → g !! la = None → heap w !! la = Some (Arr ys) →
  let g' := <[la := Arr (ys ++ [x])]> g in
  let w' := set_heap (<[la := Arr (ys ++ [x])]> (heap w)) w in
  array_push (VRef la) x w = (Return (VNum (num_of_nat (S (length ys)))), w')
  ∧ g ⊆ g' ∧ g' ⊆ heap w' ∧ g' !! la = Some (Arr (ys ++ [x]))
  ∧ console w' = console w ∧ network w' = network w.
Proof.
  intros Hsub Hnone Hsome g' w'. subst g' w'. unfold array_push. rewrite Hsome.
  split; [done|]. split; [by apply insert_subseteq|]. split; [by apply insert_mono|].
  split; [apply lookup_insert_eq|done].
Qed.

(** The last two allocations of [getAIResponse_payload]. *)
Lemma gemini_payload_tail g w contents js :
  g ⊆ heap w →
  stringify 4 g contents = Some (Some (JArr js)) →
  ∃ payload w' g',
    (generationConfig <-
       new_object [("temperature", VNum num_0_7); ("topK", VNum num_40);
                   ("topP", VNum num_0_95); ("maxOutputTokens", VNum num_500)] ;;
     new_object [("contents", contents); ("generationConfig", generationConfig)]) w
    = (Return payload, w')
    ∧ grows g w g' w'
    ∧ stringify 5 g' payload
      = Some (Some (JObj [("contents", JArr js);
                          ("generationConfig", generationConfig_json)]))
    ∧ size (heap w') = S (S (size (heap w))).
Proof.
  intros Hsub Hc. unfold new_object, bind.
  match goal with
  | |- context [alloc ?o w] =>
      destruct (alloc_grows g w o Hsub) as (E1 & G1 & S1); rewrite E1
  end.
  set (lg := fresh_loc (heap w)) in *.
  set (w1 := set_heap _ w) in *.
  set (g1 := <[lg := _]> g) in *.
  match goal with
  | |- context [alloc ?o w1] =>
      destruct (alloc_grows g1 w1 o (grows_sub _ _ _ _ G1)) as (E2 & G2 & S2); rewrite E2
  end.
  set (lp := fresh_loc (heap w1)) in *.
  set (w2 := set_heap _ w1) in *.
  set (g2 := <[lp := _]> g1) in *.
  assert (Hg : g2 !! lg = Some (Obj [("temperature", VNum num_0_7); ("topK", VNum num_40);
                   ("topP", VNum num_0_95); ("maxOutputTokens", VNum num_500)])).
  { eapply lookup_weaken; [|exact (grows_known _ _ _ _ G2)]. apply lookup_insert_eq. }
  assert (Hp : g2 !! lp = Some (Obj [("contents", contents); ("generationConfig", VRef lg)]))
    by apply lookup_insert_eq.
  assert (Hc2 : stringify 4 g2 contents = Some (Some (JArr js))).
  { eapply stringify_mono; [|etrans; [exact (grows_known _ _ _ _ G1)|
                                       exact (grows_known _ _ _ _ G2)]|exact Hc]. lia. }
  clearbody g2 lp lg.
  exists (VRef lp), w2, g2. split; [done|]. split; [|split].
  - eapply grows_trans; done.
  - rewrite stringify_ref, Hp. unfold stringify_members. rewrite Hc2.
    rewrite stringify_ref, Hg. done.
  - lia.
Qed.

Lemma getAIResponse_payload_run w chatHistory history userInput isFirstMessage :
  read_history (heap w) chatHistory = Some history →
  ∃ payload w',
    getAIResponse_payload chatHistory userInput isFirstMessage w = (Return payload, w')
    ∧ heap w ⊆ heap w' ∧ console w' = console w ∧ network w' = network w
    ∧ JSON_stringify payload w'
      = (Return (Some (providerA_body history userInput isFirstMessage)), w').
Proof.
  intros Hread. unfold getAIResponse_payload.
  match goal with
  | |- context [array_map ?f _] =>
      destruct (array_map_grows f providerA_turn 3 gemini_callback_run
                  (heap w) w chatHistory history (reflexivity _) Hread)
        as (la & ys & w1 & g1 & E1 & G1 & Hnone & Hsome & Hys)
  end.
  unfold bind at 1. rewrite E1.
  destruct (role_parts_run g1 w1 "user" userInput (grows_sub _ _ _ _ G1))
    as (cur & w2 & g2 & E2 & G2 & Scur & _).
  unfold bind at 1. rewrite E2.
  assert (Hnone2 : g2 !! la = None).
  { rewrite (grows_old _ _ _ _ G2); [done|]. by rewrite Hsome. }
  pose proof (lookup_weaken _ _ _ _ Hsome (grows_heap _ _ _ _ G2)) as Hsome2.
  destruct (array_push_known g2 w2 la ys cur (grows_sub _ _ _ _ G2) Hnone2 Hsome2)
    as (E3 & K3 & Sub3 & Hla & C3 & N3).
  unfold bind at 1. rewrite E3.
  set (w3 := set_heap _ w2) in *.
  set (g3 := <[la := _]> g2) in *.
  clearbody g3 w3.
  destruct (role_parts_run g3 w3 "user" initialPrompt_text Sub3)
    as (ip & w4 & g4 & E4 & G4 & Sip & Z4).
  unfold bind at 1. rewrite E4.
  assert (Hhist : stringify 4 g3 (VRef la)
                  = Some (Some (JArr (map providerA_turn history
                                        ++ [role_parts_json "user" userInput])))).
  { rewrite stringify_ref, Hla.
    erewrite stringify_items_Forall2; [done|].
    apply Forall2_app.
    - eapply Forall2_impl; [exact Hys|]. intros y j Hy. cbv beta in Hy.
      eapply stringify_mono; [|etrans; [exact (grows_known _ _ _ _ G2)|exact K3]|exact Hy].
      lia.
    - constructor; [|constructor].
      eapply stringify_mono; [|exact K3|exact Scur]. lia. }
  assert (Hframe : heap w ⊆ g4).
  { etrans; [exact (grows_known _ _ _ _ G1)|].
    etrans; [exact (grows_known _ _ _ _ G2)|].
    etrans; [exact K3|exact (grows_known _ _ _ _ G4)]. }
  assert (Hio : console w4 = console w ∧ network w4 = network w).
  { rewrite (grows_console _ _ _ _ G4), (grows_network _ _ _ _ G4), C3, N3.
    rewrite (grows_console _ _ _ _ G2), (grows_network _ _ _ _ G2).
    by rewrite (grows_console _ _ _ _ G1), (grows_network _ _ _ _ G1). }
  destruct Hio as [Hc4 Hn4].
  assert (Hcontents : ∃ contents w5 g5,
    (if isFirstMessage
     then (first <- role_parts "user" (VStr userInput) ;; new_array [ip; first])
     else ret (VRef la)) w4 = (Return contents, w5)
    ∧ grows g4 w4 g5 w5
    ∧ stringify 4 g5 contents
      = Some (Some (JArr (providerA_contents history userInput isFirstMessage)))).
  { destruct isFirstMessage.
    - destruct (role_parts_run g4 w4 "user" userInput (grows_sub _ _ _ _ G4))
        as (first & w5 & g5 & E5 & G5 & Sfirst & _).
      unfold bind, new_array. rewrite E5.
      destruct (alloc_grows g5 w5 (Arr [ip; first]) (grows_sub _ _ _ _ G5))
        as (E6 & G6 & _).
      eexists _, _, _. split; [exact E6|]. split; [by eapply grows_trans|].
      rewrite stringify_ref, lookup_insert_eq.
      erewrite stringify_items_Forall2; [done|].
      constructor; [|constructor; [|constructor]].
      + eapply stringify_mono; [|etrans; [exact (grows_known _ _ _ _ G5)|
                                           exact (grows_known _ _ _ _ G6)]|exact Sip].
        lia.
      + eapply stringify_mono; [|exact (grows_known _ _ _ _ G6)|exact Sfirst]. lia.
    - exists (VRef la), w4, g4. split; [done|].
      split; [apply grows_refl, (grows_sub _ _ _ _ G4)|].
      eapply stringify_mono; [|exact (grows_known _ _ _ _ G4)|exact Hhist]. lia. }
  destruct Hcontents as (contents & w5 & g5 & E5 & G5 & Sc).
  unfold bind at 1. rewrite E5.
  destruct (gemini_payload_tail g5 w5 contents _ (grows_sub _ _ _ _ G5) Sc)
    as (payload & w6 & g6 & E6 & G6 & Sp & Z6).
  exists payload, w6. split; [exact E6|]. split; [|split; [|split]].
  - etrans; [exact Hframe|]. etrans; [exact (grows_known _ _ _ _ G5)|].
    etrans; [exact (grows_known _ _ _ _ G6)|exact (grows_sub _ _ _ _ G6)].
  - by rewrite (grows_console _ _ _ _ G6), (grows_console _ _ _ _ G5).
  - by rewrite (grows_network _ _ _ _ G6), (grows_network _ _ _ _ G5).
  - unfold JSON_stringify.
    erewrite stringify_mono; [done| |exact (grows_sub _ _ _ _ G6)|exact Sp].
    pose proof (grows_size _ _ _ _ G5). lia.
Qed.

(** ** The request of [getOpenAIResponse] *)

Lemma read_history_weaken g g' v history :
  g ⊆ g' → read_history g v = Some history → read_history g' v = Some history.
Proof.
  intros Hsub Hr. destruct (read_history_inv _ _ _ Hr) as (l & elems & -> & Hl & Hall).
  unfold read_history. rewrite (lookup_weaken _ _ _ _ Hl Hsub).
  apply mapM_Some_2. eapply Forall2_impl; [exact Hall|].
  intros x t Hx. by eapply read_turn_weaken.
Qed.

Lemma spread_array w la ys :
  heap w !! la = Some (Arr ys) → spread (VRef la) w = (Return ys, w).
Proof. intros H. unfold spread. by rewrite H. Qed.

Lemma getOpenAIResponse_messages_run w chatHistory history userInput :
  read_history (heap w) chatHistory = Some history →
  ∃ messages w' g',
    getOpenAIResponse_messages chatHistory userInput w = (Return messages, w')
    ∧ grows (heap w) w g' w'
    ∧ stringify 2 g' messages
      = Some (Some (JArr (providerB_messages history userInput)))
    ∧ (1 ≤ size (heap w'))%nat.
Proof.
  intros Hread. unfold getOpenAIResponse_messages, new_object, new_array.
  match goal with
  | |- context [alloc ?o] =>
      destruct (alloc_grows (heap w) w o (reflexivity _)) as (E1 & G1 & Z1)
  end.
  unfold bind at 1. rewrite E1.
  set (ls := fresh_loc (heap w)) in *.
  set (w1 := set_heap _ w) in *.
  set (g1 := <[ls := _]> (heap w)) in *.
  assert (Hs : stringify 1 g1 (VRef ls)
               = Some (Some (message_json "system" system_content))).
  { rewrite stringify_ref. unfold g1. by rewrite lookup_insert_eq. }
  clearbody g1 w1 ls.
  pose proof (read_history_weaken _ _ _ _ (grows_known _ _ _ _ G1) Hread) as Hread1.
  match goal with
  | |- context [array_map ?f _] =>
      destruct (array_map_grows f providerB_turn 1 openai_callback_run
                  g1 w1 chatHistory history (grows_sub _ _ _ _ G1) Hread1)
        as (la & ys & w2 & g2 & E2 & G2 & Hnone & Hsome & Hys)
  end.
  unfold bind at 1. rewrite E2.
  unfold bind at 1. rewrite (spread_array _ _ _ Hsome).
  match goal with
  | |- context [alloc ?o] =>
      destruct (alloc_grows g2 w2 o (grows_sub _ _ _ _ G2)) as (E3 & G3 & Z3)
  end.
  unfold bind at 1. rewrite E3.
  set (lc := fresh_loc (heap w2)) in *.
  set (w3 := set_heap _ w2) in *.
  set (g3 := <[lc := _]> g2) in *.
  assert (Hc : stringify 1 g3 (VRef lc) = Some (Some (message_json "user" userInput))).
  { rewrite stringify_ref. unfold g3. by rewrite lookup_insert_eq. }
  clearbody g3 w3 lc.
  destruct (alloc_grows g3 w3 (Arr (VRef ls :: ys ++ [VRef lc])) (grows_sub _ _ _ _ G3))
    as (E4 & G4 & Z4).
  eexists _, _, _. split; [exact E4|]. split; [|split].
  - eapply grows_trans; [exact G1|]. eapply grows_trans; [exact G2|].
    eapply grows_trans; [exact G3|exact G4].
  - rewrite stringify_ref, lookup_insert_eq.
    erewrite stringify_items_Forall2; [done|].
    unfold providerB_messages. constructor; [|apply Forall2_app].
    + eapply stringify_mono; [|etrans; [exact (grows_known _ _ _ _ G2)|
                                  etrans; [exact (grows_known _ _ _ _ G3)|
                                           exact (grows_known _ _ _ _ G4)]]|exact Hs].
      lia.
    + eapply Forall2_impl; [exact Hys|]. intros y j Hy. cbv beta in Hy.
      eapply stringify_mono; [|etrans; [exact (grows_known _ _ _ _ G3)|
                                        exact (grows_known _ _ _ _ G4)]|exact Hy].
      lia.
    + constructor; [|constructor].
      eapply stringify_mono; [|exact (grows_known _ _ _ _ G4)|exact Hc]. lia.
  - rewrite Z4. lia.
Qed.

(** ** A call, up to the answer of the network *)

Section Run.

Variable env : string → option string.
Variable fetch : Request → FetchResult.
Variable StringToNumber : string → spec_float.
Variable ArrayToString : list json → outcome string.

Lemma respond_run p w chatHistory history userText isFirstTurn :
  read_history (heap w) chatHistory = Some history →
  let req := expected_request env p history userText isFirstTurn in
  ∃ w1,
    heap w ⊆ heap w1 ∧ console w1 = console w ∧ network w1 = (network w ++ [req])%list
    ∧ respond env fetch StringToNumber ArrayToString p chatHistory userText isFirstTurn w
      = after_fetch StringToNumber ArrayToString p (fetch req) w1.
Proof.
  intros Hread req. destruct p; simpl in req.
  - destruct (getAIResponse_payload_run w chatHistory history userText isFirstTurn Hread)
      as (payload & w' & E & Hsub & Hc & Hn & Es).
    exists {| heap := heap w'; console := console w'; network := network w' ++ [req] |}.
    simpl. rewrite Hn. split; [done|]. split; [done|]. split; [done|].
    unfold getAIResponse, after_fetch, try_catch, result_phase.
    unfold bind at 1. rewrite E. unfold bind at 1. rewrite Es.
    unfold bind at 1. unfold do_fetch. fold req. rewrite Hn.
    by destruct (fetch req).
  - destruct (getOpenAIResponse_messages_run w chatHistory history userText Hread)
      as (messages & w' & g' & E & G & Sm & Z).
    unfold respond, getOpenAIResponse, after_fetch, try_catch, result_phase.
    unfold bind at 1. rewrite E. unfold new_object.
    match goal with
    | |- context [alloc ?o] =>
        destruct (alloc_grows g' w' o (grows_sub _ _ _ _ G)) as (E1 & G1 & Z1)
    end.
    unfold bind at 1. rewrite E1.
    set (lr := fresh_loc (heap w')) in *.
    set (w2 := set_heap _ w') in *.
    set (g2 := <[lr := _]> g') in *.
    assert (Hr : stringify 3 g2 (VRef lr) = Some (Some (providerB_body history userText))).
    { rewrite stringify_ref. unfold g2 at 1. rewrite lookup_insert_eq.
      unfold stringify_members.
      erewrite (stringify_mono 2 2 g' g2 messages); [..|exact Sm];
        [done|lia|exact (grows_known _ _ _ _ G1)]. }
    assert (Es : JSON_stringify (VRef lr) w2
                 = (Return (Some (providerB_body history userText)), w2)).
    { unfold JSON_stringify.
      erewrite stringify_mono; [done| |exact (grows_sub _ _ _ _ G1)|exact Hr]. lia. }
    clearbody g2 w2 lr.
    exists {| heap := heap w2; console := console w2; network := network w2 ++ [req] |}.
    simpl.
    rewrite (grows_console _ _ _ _ G1), (grows_console _ _ _ _ G).
    rewrite (grows_network _ _ _ _ G1), (grows_network _ _ _ _ G).
    split; [|split; [done|split; [done|]]].
    { etrans; [exact (grows_heap _ _ _ _ G)|exact (grows_heap _ _ _ _ G1)]. }
    unfold bind at 1. rewrite Es.
    unfold bind at 1. unfold do_fetch. fold req.
    rewrite (grows_console _ _ _ _ G1), (grows_console _ _ _ _ G).
    rewrite (grows_network _ _ _ _ G1), (grows_network _ _ _ _ G).
    by destruct (fetch req).
Qed.

End Run.

(** ** What a computation leaves alone *)

Lemma preserves_ret {A} h0 (a : A) (Q : A → Prop) : Q a → preserves h0 (ret a) Q.
Proof. by intros Ha w Hw. Qed.

Lemma preserves_throw {A} h0 e (Q : A → Prop) : preserves h0 (throw e) Q.
Proof. by intros w Hw. Qed.

Lemma preserves_lift {A} h0 (o : outcome A) : preserves h0 (lift o) any.
Proof. intros w Hw. split; [done|]. simpl. by destruct o. Qed.

Lemma preserves_weaken {A} h0 (m : M A) (Q Q' : A → Prop) :
  (∀ a, Q a → Q' a) → preserves h0 m Q → preserves h0 m Q'.
Proof.
  intros HQ Hm w Hw. destruct (Hm w Hw) as [H1 H2]. split; [done|].
  destruct (m w).1; auto.
Qed.

Lemma preserves_bind {A B} h0 (m : M A) (k : A → M B) (Q : A → Prop) (R : B → Prop) :
  preserves h0 m Q → (∀ a, Q a → preserves h0 (k a) R) → preserves h0 (bind m k) R.
Proof.
  intros Hm Hk w Hw. destruct (Hm w Hw) as [H1 H2]. unfold bind.
  destruct (m w) as [[a|e] w']; simpl in *; [|done]. by apply Hk.
Qed.

Lemma preserves_try_catch {A} h0 (m : M A) (handler : error → M A) (Q : A → Prop) :
  preserves h0 m Q → (∀ e, preserves h0 (handler e) Q) →
  preserves h0 (try_catch m handler) Q.
Proof.
  intros Hm Hh w Hw. destruct (Hm w Hw) as [H1 H2]. unfold try_catch.
  destruct (m w) as [[a|e] w']; simpl in *; [done|]. by apply Hh.
Qed.

Lemma preserves_alloc h0 o : preserves h0 (alloc o) (fresh_for h0).
Proof.
  intros w Hw. simpl. split.
  - etrans; [exact Hw|apply alloc_extends].
  - exists (fresh_loc (heap w)). split; [done|]. by apply sub_fresh.
Qed.

Lemma preserves_get_prop h0 v name : preserves h0 (get_prop v name) any.
Proof.
  intros w Hw. unfold get_prop.
  destruct v as [| | | | |l]; try done.
  by destruct (heap w !! l) as [[|]|].
Qed.

Lemma preserves_array_push h0 v x : fresh_for h0 v → preserves h0 (array_push v x) any.
Proof.
  intros (l & -> & Hl) w Hw. unfold array_push.
  destruct (heap w !! l) as [[elems|]|]; try done.
  simpl. split; [|done]. by apply insert_subseteq_r.
Qed.

Lemma preserves_spread h0 v : preserves h0 (spread v) any.
Proof.
  intros w Hw. unfold spread. destruct v as [| | | | |l]; try done.
  by destruct (heap w !! l) as [[|]|].
Qed.

Lemma preserves_for_each h0 (f : val → M val) elems :
  (∀ x, preserves h0 (f x) any) → preserves h0 (for_each f elems) any.
Proof.
  intros Hf. induction elems as [|x rest IH]; simpl.
  - by apply preserves_ret.
  - eapply preserves_bind; [apply Hf|]. intros y _.
    eapply preserves_bind; [apply IH|]. intros ys _. by apply preserves_ret.
Qed.

Lemma preserves_array_map h0 (f : val → M val) v :
  (∀ x, preserves h0 (f x) any) → preserves h0 (array_map f v) (fresh_for h0).
Proof.
  intros Hf w Hw. unfold array_map.
  destruct v as [| | | | |l]; try done.
  destruct (heap w !! l) as [[elems|]|]; try done.
  revert w Hw. change (preserves h0 (ys <- for_each f elems ;; new_array ys) (fresh_for h0)).
  eapply preserves_bind; [by apply preserves_for_each|].
  intros ys _. apply preserves_alloc.
Qed.

Lemma preserves_JSON_stringify h0 v : preserves h0 (JSON_stringify v) any.
Proof. intros w Hw. unfold JSON_stringify. by destruct (stringify _ _ _). Qed.

Lemma preserves_console_error h0 label x : preserves h0 (console_error label x) any.
Proof. by intros w Hw. Qed.

Lemma preserves_response_json h0 r : preserves h0 (response_json r) any.
Proof. intros w Hw. unfold response_json. by destruct (parsed r). Qed.

Lemma preserves_jpath h0 ks : ∀ v, preserves h0 (jpath v ks) any.
Proof.
  induction ks as [|k rest IH]; intros v; simpl.
  - by apply preserves_ret.
  - eapply preserves_bind; [apply preserves_lift|]. intros x _. apply IH.
Qed.

Lemma preserves_js_and h0 (a b : M bool) :
  preserves h0 a any → preserves h0 b any → preserves h0 (js_and a b) any.
Proof.
  intros Ha Hb. eapply preserves_bind; [exact Ha|].
  intros [|] _; [done|by apply preserves_ret].
Qed.

Lemma preserves_role_parts h0 r t : preserves h0 (role_parts r t) any.
Proof.
  unfold role_parts, new_object, new_array.
  eapply preserves_bind; [apply preserves_alloc|]. intros part _.
  eapply preserves_bind; [apply preserves_alloc|]. intros parts _.
  eapply preserves_weaken; [|apply preserves_alloc]. done.
Qed.

(** A test of a value reached by a path. *)
Lemma preserves_test h0 v ks (test : jsv → bool) :
  preserves h0 (x <- jpath v ks ;; ret (test x)) any.
Proof.
  eapply preserves_bind; [apply preserves_jpath|]. intros x _. by apply preserves_ret.
Qed.

Lemma preserves_getAIResponse_payload h0 chatHistory userInput isFirstMessage :
  preserves h0 (getAIResponse_payload chatHistory userInput isFirstMessage) any.
Proof.
  unfold getAIResponse_payload.
  eapply preserves_bind.
  { apply preserves_array_map. intros msg.
    eapply preserves_bind; [apply preserves_get_prop|]. intros role _.
    eapply preserves_bind; [apply preserves_get_prop|]. intros text _.
    apply preserves_role_parts. }
  intros apiChatHistory Hfresh.
  eapply preserves_bind; [apply preserves_role_parts|]. intros current _.
  eapply preserves_bind; [by apply preserves_array_push|]. intros _ _.
  eapply preserves_bind; [apply preserves_role_parts|]. intros initialPrompt _.
  eapply preserves_bind with (Q := any).
  { destruct isFirstMessage; [|by apply preserves_ret].
    eapply preserves_bind; [apply preserves_role_parts|]. intros first _.
    eapply preserves_weaken; [|apply preserves_alloc]. done. }
  intros payloadContents _. unfold new_object.
  eapply preserves_bind; [apply preserves_alloc|]. intros generationConfig _.
  eapply preserves_weaken; [|apply preserves_alloc]. done.
Qed.

Lemma preserves_getOpenAIResponse_messages h0 chatHistory userInput :
  preserves h0 (getOpenAIResponse_messages chatHistory userInput) any.
Proof.
  unfold getOpenAIResponse_messages, new_object, new_array.
  eapply preserves_bind; [apply preserves_alloc|]. intros system _.
  eapply preserves_bind.
  { apply preserves_array_map. intros msg.
    eapply preserves_bind; [apply preserves_get_prop|]. intros role _.
    eapply preserves_bind; [apply preserves_get_prop|]. intros text _.
    eapply preserves_weaken; [|apply preserves_alloc]. done. }
  intros converted _.
  eapply preserves_bind; [apply preserves_spread|]. intros history _.
  eapply preserves_bind; [apply preserves_alloc|]. intros current _.
  eapply preserves_weaken; [|apply preserves_alloc]. done.
Qed.

(** ** The reply *)

Section Reply.

Variable StringToNumber : string → spec_float.
Variable ArrayToString : list json → outcome string.

Lemma greater_than_zero_length (n : nat) :
  greater_than_zero StringToNumber ArrayToString (Some (JNum (num_of_nat n)))
  = Return (negb (Nat.eqb n 0)).
Proof. by destruct n. Qed.

Lemma result_phase_http_failure p r w :
  ok r = false →
  result_phase StringToNumber ArrayToString p r w = (Throw (HttpFailure p (status r)), w).
Proof.
  intros Hok. destruct p; simpl;
    unfold getAIResponse_result, getOpenAIResponse_result; by rewrite Hok.
Qed.

Lemma jpath_run v ks w : jpath v ks w = (path_value v ks, w).
Proof.
  revert v. induction ks as [|k rest IH]; intros v; simpl; [done|].
  unfold bind, lift. destruct (jget v k); [apply IH|done].
Qed.

Local Arguments jpath : simpl never.

Lemma test_run v ks (test : jsv → bool) w :
  (x <- jpath v ks ;; ret (test x)) w
  = (match path_value v ks with
     | Return x => Return (test x)
     | Throw e => Throw e
     end, w).
Proof. unfold bind. rewrite jpath_run. by destruct (path_value v ks). Qed.

(** The same for a test that may throw. *)
Lemma check_run v ks (test : jsv → outcome bool) w :
  (x <- jpath v ks ;; lift (test x)) w
  = (match path_value v ks with
     | Return x => test x
     | Throw e => Throw e
     end, w).
Proof. unfold bind, lift. rewrite jpath_run. by destruct (path_value v ks). Qed.

Ltac run_test :=
  match goal with
  | |- context [bind (jpath ?v ?ks) (λ x, ret (@?t x)) ?w] => rewrite (test_run v ks t w)
  | |- context [bind (jpath ?v ?ks) (λ x, lift (@?t x)) ?w] => rewrite (check_run v ks t w)
  end.

Lemma js_and_true (a b : M bool) w : a w = (Return true, w) → js_and a b w = b w.
Proof. intros H. unfold js_and, bind. by rewrite H. Qed.

Lemma js_and_false (a b : M bool) w :
  a w = (Return false, w) → js_and a b w = (Return false, w).
Proof. intros H. unfold js_and, bind. by rewrite H. Qed.

Lemma result_phase_text p r w body s :
  ok r = true → parsed r = Some body → reply_text p body = Text s →
  result_phase StringToNumber ArrayToString p r w = (Return (Some (JStr s)), w).
Proof.
  intros Hok Hparsed Htext. destruct p; simpl in *.
  - unfold getAIResponse_result, response_json. rewrite Hok, Hparsed.
    cbn [negb]. cbv beta iota.
    unfold reply_text_A in Htext.
    repeat match type of Htext with
           | context [match ?x with _ => _ end] => destruct x eqn:?; try discriminate
           end.
    injection Htext as ->. subst.
    unfold bind at 1. unfold ret at 1. unfold bind at 1.
    rewrite js_and_true; [|run_test; simpl; by rewrite Heqo].
    rewrite js_and_true; [|run_test; simpl; by rewrite Heqo].
    rewrite js_and_true; [|run_test; simpl; rewrite Heqo; simpl; by rewrite Heqo0].
    rewrite js_and_true;
      [|run_test; simpl; rewrite Heqo; simpl; rewrite Heqo0; simpl; by rewrite Heqo1].
    run_test. simpl. rewrite Heqo. simpl. rewrite Heqo0. simpl. rewrite Heqo1. simpl.
    rewrite jpath_run. simpl. rewrite Heqo. simpl. rewrite Heqo0. simpl. rewrite Heqo1.
    simpl. by rewrite Heqo2.
  - unfold getOpenAIResponse_result, response_json. rewrite Hok, Hparsed.
    cbn [negb]. cbv beta iota.
    unfold reply_text_B in Htext.
    repeat match type of Htext with
           | context [match ?x with _ => _ end] => destruct x eqn:?; try discriminate
           end.
    injection Htext as ->. subst.
    unfold bind at 1. unfold ret at 1. unfold bind at 1.
    rewrite js_and_true; [|run_test; simpl; by rewrite Heqo].
    rewrite js_and_true; [|run_test; simpl; by rewrite Heqo].
    run_test. simpl. rewrite Heqo. simpl. rewrite Heqo0. simpl.
    rewrite jpath_run. simpl. rewrite Heqo. simpl. rewrite Heqo0. simpl. by rewrite Heqo1.
Qed.

Lemma result_phase_malformed p r w body :
  ok r = true → parsed r = Some body → reply_text p body = Malformed →
  (result_phase StringToNumber ArrayToString p r w).1 = Throw (MalformedResponse p).
Proof.
  intros Hok Hparsed Htext. destruct p; simpl in *.
  - unfold getAIResponse_result, response_json. rewrite Hok, Hparsed.
    cbn [negb]. cbv beta iota.
    unfold reply_text_A in Htext.
    repeat match type of Htext with
           | context [match ?x with _ => _ end] => destruct x eqn:?; try discriminate
           end;
    subst; unfold bind at 1; unfold ret at 1; unfold bind at 1;
    repeat first
      [ rewrite js_and_true
          by (run_test;
              repeat (progress (simpl; rewrite ?Heqo, ?Heqo0, ?Heqo1)); reflexivity)
      | rewrite js_and_false
          by (run_test;
              repeat (progress (simpl; rewrite ?Heqo, ?Heqo0, ?Heqo1)); reflexivity)
      | run_test;
        repeat (progress (simpl; rewrite ?Heqo, ?Heqo0, ?Heqo1)) ];
    reflexivity.
  - unfold getOpenAIResponse_result, response_json. rewrite Hok, Hparsed.
    cbn [negb]. cbv beta iota.
    unfold reply_text_B in Htext.
    repeat match type of Htext with
           | context [match ?x with _ => _ end] => destruct x eqn:?; try discriminate
           end;
    subst; unfold bind at 1; unfold ret at 1; unfold bind at 1;
    repeat first
      [ rewrite js_and_true
          by (run_test;
              repeat (progress (simpl; rewrite ?Heqo, ?Heqo0)); reflexivity)
      | rewrite js_and_false
          by (run_test;
              repeat (progress (simpl; rewrite ?Heqo, ?Heqo0)); reflexivity)
      | run_test;
        repeat (progress (simpl; rewrite ?Heqo, ?Heqo0)) ];
    reflexivity.
Qed.

(** The [catch] clause logs and throws the same error again: the outcome of
    a call is that of its [try] block. *)
Lemma after_fetch_outcome p r w :
  (after_fetch StringToNumber ArrayToString p (Responded r) w).1
  = (result_phase StringToNumber ArrayToString p r w).1.
Proof.
  unfold after_fetch, try_catch.
  by destruct (result_phase StringToNumber ArrayToString p r w) as [[a|e] w'].
Qed.

End Reply.

(** ** Computations that touch neither the heap nor the network *)

Lemma quiet_ret {A} (a : A) : quiet (ret a).
Proof. by intros w. Qed.

Lemma quiet_throw {A} e : quiet (@throw A e).
Proof. by intros w. Qed.

Lemma quiet_lift {A} (o : outcome A) : quiet (lift o).
Proof. by intros w. Qed.

Lemma quiet_console_error label x : quiet (console_error label x).
Proof. by intros w. Qed.

Lemma quiet_bind {A B} (m : M A) (k : A → M B) :
  quiet m → (∀ a, quiet (k a)) → quiet (bind m k).
Proof.
  intros Hm Hk w. destruct (Hm w) as [H1 H2]. unfold bind.
  destruct (m w) as [[a|e] w']; simpl in *; [|done].
  destruct (Hk a w') as [H3 H4]. split; congruence.
Qed.

Lemma quiet_try_catch {A} (m : M A) (handler : error → M A) :
  quiet m → (∀ e, quiet (handler e)) → quiet (try_catch m handler).
Proof.
  intros Hm Hh w. destruct (Hm w) as [H1 H2]. unfold try_catch.
  destruct (m w) as [[a|e] w']; simpl in *; [done|].
  destruct (Hh e w') as [H3 H4]. split; congruence.
Qed.

Lemma quiet_jpath ks : ∀ v, quiet (jpath v ks).
Proof. intros v w. by rewrite jpath_run. Qed.

Lemma quiet_test v ks (test : jsv → bool) : quiet (x <- jpath v ks ;; ret (test x)).
Proof. intros w. by rewrite test_run. Qed.

Lemma quiet_check v ks (test : jsv → outcome bool) :
  quiet (x <- jpath v ks ;; lift (test x)).
Proof. intros w. by rewrite check_run. Qed.

Lemma quiet_js_and (a b : M bool) : quiet a → quiet b → quiet (js_and a b).
Proof.
  intros Ha Hb. apply quiet_bind; [done|]. intros [|]; [done|apply quiet_ret].
Qed.

Lemma quiet_response_json r : quiet (response_json r).
Proof. unfold response_json. destruct (parsed r); [apply quiet_ret|apply quiet_throw]. Qed.

Lemma quiet_result_phase s2n a2s p r : quiet (result_phase s2n a2s p r).
Proof.
  destruct p; simpl; unfold getAIResponse_result, getOpenAIResponse_result;
    (destruct (negb (ok r)); [apply quiet_throw|]);
    (apply quiet_bind; [apply quiet_response_json|]); intros body;
    (apply quiet_bind;
       [repeat first [apply quiet_test | apply quiet_check | apply quiet_js_and]|]);
    intros [|];
    first [apply quiet_jpath
          |apply quiet_bind; [apply quiet_console_error|intros _; apply quiet_throw]].
Qed.

Lemma quiet_after_fetch s2n a2s p answer : quiet (after_fetch s2n a2s p answer).
Proof.
  apply quiet_try_catch.
  - destruct answer; [apply quiet_throw|apply quiet_result_phase].
  - intros e. apply quiet_bind; [apply quiet_console_error|intros _; apply quiet_throw].
Qed.

Lemma quiet_preserves {A} h0 (m : M A) : quiet m → preserves h0 m any.
Proof.
  intros Hm w Hw. destruct (Hm w) as [H1 _]. rewrite H1. split; [done|].
  by destruct (m w).1.
Qed.

Lemma preserves_do_fetch h0 fetch req : preserves h0 (do_fetch fetch req) any.
Proof. intros w Hw. unfold do_fetch. by destruct (fetch req). Qed.

(** Every object that exists when an adapter is called is the same
    afterwards. *)
Lemma preserves_respond env fetch s2n a2s p h0 chatHistory userText isFirstTurn :
  preserves h0 (respond env fetch s2n a2s p chatHistory userText isFirstTurn) any.
Proof.
  destruct p; simpl; unfold getAIResponse, getOpenAIResponse.
  - apply preserves_try_catch.
    + eapply preserves_bind; [apply preserves_getAIResponse_payload|]. intros payload _.
      eapply preserves_bind; [apply preserves_JSON_stringify|]. intros text _.
      eapply preserves_bind; [apply preserves_do_fetch|]. intros response _.
      apply quiet_preserves, (quiet_result_phase s2n a2s ProviderA).
    + intros e. apply quiet_preserves.
      apply quiet_bind; [apply quiet_console_error|intros _; apply quiet_throw].
  - apply preserves_try_catch.
    + eapply preserves_bind; [apply preserves_getOpenAIResponse_messages|].
      intros messages _. unfold new_object.
      eapply preserves_bind; [apply preserves_alloc|]. intros request _.
      eapply preserves_bind; [apply preserves_JSON_stringify|]. intros text _.
      eapply preserves_bind; [apply preserves_do_fetch|]. intros response _.
      apply quiet_preserves, (quiet_result_phase s2n a2s ProviderB).
    + intros e. apply quiet_preserves.
      apply quiet_bind; [apply quiet_console_error|intros _; apply quiet_throw].
Qed.

(** ** The status in a failure message *)

Lemma string_of_N_inj (a b : N) : string_of_N a = string_of_N b → a = b.
Proof.
  unfold string_of_N. intros H.
  assert (Hnn : ∀ n, N.to_uint n ≠ Decimal.Nil).
  { intros [|q]; [discriminate|apply DecimalPos.Unsigned.to_uint_nonnil]. }
  pose proof (NilZero.usu _ (Hnn a)) as Ha.
  pose proof (NilZero.usu _ (Hnn b)) as Hb.
  rewrite H, Hb in Ha. injection Ha as Ha.
  by apply DecimalN.Unsigned.to_uint_inj.
Qed.

Lemma append_inv_head (p a b : string) : p ++ a = p ++ b → a = b.
Proof. induction p as [|c p IH]; simpl; [done|]. intros [= H]. by apply IH. Qed.

(** The message of an HTTP failure determines the status it reports. *)
Lemma HttpFailure_inj p (a b : N) : HttpFailure p a = HttpFailure p b → a = b.
Proof.
  destruct p; unfold HttpFailure; intros [= H];
    apply append_inv_head in H; by apply string_of_N_inj.
Qed.

(** ** A call, as far as its caller can tell *)

Section Calls.

Variable env : string → option string.
Variable fetch : Request → FetchResult.
Variable StringToNumber : string → spec_float.
Variable ArrayToString : list json → outcome string.

Lemma respond_network p w chatHistory history userText isFirstTurn :
  read_history (heap w) chatHistory = Some history →
  network (respond env fetch StringToNumber ArrayToString p
             chatHistory userText isFirstTurn w).2
  = (network w ++ [expected_request env p history userText isFirstTurn])%list.
Proof.
  intros Hread.
  destruct (respond_run env fetch StringToNumber ArrayToString p w chatHistory history
              userText isFirstTurn Hread) as (w1 & _ & _ & Hn & ->).
  rewrite <- Hn. apply quiet_after_fetch.
Qed.

Lemma respond_outcome p w chatHistory history userText isFirstTurn r :
  read_history (heap w) chatHistory = Some history →
  fetch (expected_request env p history userText isFirstTurn) = Responded r →
  ∃ w1,
    (respond env fetch StringToNumber ArrayToString p chatHistory userText isFirstTurn w).1
    = (result_phase StringToNumber ArrayToString p r w1).1.
Proof.
  intros Hread Hfetch.
  destruct (respond_run env fetch StringToNumber ArrayToString p w chatHistory history
              userText isFirstTurn Hread) as (w1 & _ & _ & _ & ->).
  exists w1. rewrite Hfetch. apply after_fetch_outcome.
Qed.

End Calls.

(** ** Replies outside the expected shape *)

(** The guards stop one level above the text: a reply whose last object has
    no text at all passes them, and the call returns [undefined]. *)
Example absent_text_is_undefined :
  (respond example_env (answering reply_no_text) example_StringToNumber
     example_ArrayToString ProviderA example_chatHistory "it's slow" false
     example_world).1
  = Return undefined.
Proof. vm_compute. reflexivity. Qed.

Example absent_content_is_undefined :
  (respond example_env (answering reply_no_content) example_StringToNumber
     example_ArrayToString ProviderB example_chatHistory "it's slow" false
     example_world).1
  = Return undefined.
Proof. vm_compute. reflexivity. Qed.

(** The guards read properties of values they have not tested: a body that
    is [null], or a [null] first candidate, makes the read itself throw. *)
Example null_body_is_TypeError :
  (respond example_env (answering reply_null) example_StringToNumber
     example_ArrayToString ProviderA example_chatHistory "it's slow" false
     example_world).1
  = Throw TypeError.
Proof. vm_compute. reflexivity. Qed.

Example null_candidate_is_TypeError :
  (respond example_env (answering reply_null_candidate) example_StringToNumber
     example_ArrayToString ProviderA example_chatHistory "it's slow" false
     example_world).1
  = Throw TypeError.
Proof. vm_compute. reflexivity. Qed.

(** * The claims of the specification *)

(** ** Request construction *)

(** C1.  ProviderA, first turn: whatever the history, the request carries
    exactly two turns, the persona text as a ["user"] turn and the new user
    text as a ["user"] turn; the mapped history is not in it. *)
Theorem providerA_first_turn_contents
    env fetch StringToNumber ArrayToString w chatHistory history userText :
  read_history (heap w) chatHistory = Some history →
  ∃ req contents,
    network (respond env fetch StringToNumber ArrayToString ProviderA
               chatHistory userText true w).2
    = (network w ++ [req])%list
    ∧ sent_turns ProviderA req = Some contents
    ∧ length contents = 2
    ∧ contents
      = [JObj [("role", JStr "user");
               ("parts", JArr [JObj [("text", JStr initialPrompt_text)]])];
         JObj [("role", JStr "user");
               ("parts", JArr [JObj [("text", JStr userText)]])]].
Proof.
  intros Hread.
  exists (expected_request env ProviderA history userText true).
  eexists. split; [by apply respond_network|]. done.
Qed.

Lemma providerA_first_turn_contents_witness :
  read_history (heap example_world) example_chatHistory = Some example_history
  ∧ ∃ req contents,
      network (respond example_env (answering reply_unparsed)
                 example_StringToNumber example_ArrayToString ProviderA
                 example_chatHistory "my wifi is down" true example_world).2
      = (network example_world ++ [req])%list
      ∧ sent_turns ProviderA req = Some contents
      ∧ length contents = 2
      ∧ contents
        = [JObj [("role", JStr "user");
                 ("parts", JArr [JObj [("text", JStr initialPrompt_text)]])];
           JObj [("role", JStr "user");
                 ("parts", JArr [JObj [("text", JStr "my wifi is down")]])]].
Proof.
  split; [reflexivity|].
  apply (providerA_first_turn_contents example_env (answering reply_unparsed)
           example_StringToNumber example_ArrayToString example_world
           example_chatHistory example_history "my wifi is down").
  reflexivity.
Defined.

(** C2.  ProviderA, later turn: the request carries the history, turn by
    turn and in order, with User as ["user"] and Agent as ["model"] and each
    text as a one-element [parts] list, and then the new user text as a
    ["user"] turn: [length history + 1] turns in all. *)
Theorem providerA_later_turn_contents
    env fetch StringToNumber ArrayToString w chatHistory history userText :
  read_history (heap w) chatHistory = Some history →
  ∃ req contents,
    network (respond env fetch StringToNumber ArrayToString ProviderA
               chatHistory userText false w).2
    = (network w ++ [req])%list
    ∧ sent_turns ProviderA req = Some contents
    ∧ length contents = length history + 1
    ∧ contents
      = (map (λ t, JObj [("role", JStr match role t with
                                       | User => "user"
                                       | Agent => "model"
                                       end);
                         ("parts", JArr [JObj [("text", JStr (text t))]])]) history
         ++ [JObj [("role", JStr "user");
                   ("parts", JArr [JObj [("text", JStr userText)]])]])%list.
Proof.
  intros Hread.
  exists (expected_request env ProviderA history userText false).
  eexists. split; [by apply respond_network|]. split; [done|].
  split; [|done]. simpl. rewrite length_app, length_map. done.
Qed.

Lemma providerA_later_turn_contents_witness :
  read_history (heap example_world) example_chatHistory = Some example_history
  ∧ ∃ req contents,
      network (respond example_env (answering reply_unparsed)
                 example_StringToNumber example_ArrayToString ProviderA
                 example_chatHistory "it's slow" false example_world).2
      = (network example_world ++ [req])%list
      ∧ sent_turns ProviderA req = Some contents
      ∧ length contents = length example_history + 1
      ∧ contents
        = (map (λ t, JObj [("role", JStr match role t with
                                         | User => "user"
                                         | Agent => "model"
                                         end);
                           ("parts", JArr [JObj [("text", JStr (text t))]])])
             example_history
           ++ [JObj [("role", JStr "user");
                     ("parts", JArr [JObj [("text", JStr "it's slow")]])]])%list.
Proof.
  split; [reflexivity|].
  apply (providerA_later_turn_contents example_env (answering reply_unparsed)
           example_StringToNumber example_ArrayToString example_world
           example_chatHistory example_history "it's slow").
  reflexivity.
Defined.

(** C3.  ProviderB, every call: the request carries a system message with
    the persona text, then the history in order with Agent as
    ["assistant"] and User as ["user"] and [content] the text, then the
    new user text as a ["user"] message: [length history + 2] messages. *)
Theorem providerB_messages_sent
    env fetch StringToNumber ArrayToString w chatHistory history userText isFirstTurn :
  read_history (heap w) chatHistory = Some history →
  ∃ req messages,
    network (respond env fetch StringToNumber ArrayToString ProviderB
               chatHistory userText isFirstTurn w).2
    = (network w ++ [req])%list
    ∧ sent_turns ProviderB req = Some messages
    ∧ length messages = length history + 2
    ∧ messages
      = (JObj [("role", JStr "system"); ("content", JStr system_content)]
         :: map (λ t, JObj [("role", JStr match role t with
                                          | Agent => "assistant"
                                          | User => "user"
                                          end);
                            ("content", JStr (text t))]) history
         ++ [JObj [("role", JStr "user"); ("content", JStr userText)]])%list.
Proof.
  intros Hread.
  exists (expected_request env ProviderB history userText isFirstTurn).
  eexists. split; [by apply respond_network|]. split; [done|].
  split.
  - unfold providerB_messages. simpl. rewrite length_app, length_map. simpl. lia.
  - reflexivity.
Qed.

Lemma providerB_messages_sent_witness :
  read_history (heap example_world) example_chatHistory = Some example_history
  ∧ ∃ req messages,
      network (respond example_env (answering reply_unparsed)
                 example_StringToNumber example_ArrayToString ProviderB
                 example_chatHistory "it's slow" false example_world).2
      = (network example_world ++ [req])%list
      ∧ sent_turns ProviderB req = Some messages
      ∧ length messages = length example_history + 2
      ∧ messages
        = (JObj [("role", JStr "system"); ("content", JStr system_content)]
           :: map (λ t, JObj [("role", JStr match role t with
                                            | Agent => "assistant"
                                            | User => "user"
                                            end);
                              ("content", JStr (text t))]) example_history
           ++ [JObj [("role", JStr "user"); ("content", JStr "it's slow")]])%list.
Proof.
  split; [reflexivity|].
  apply (providerB_messages_sent example_env (answering reply_unparsed)
           example_StringToNumber example_ArrayToString example_world
           example_chatHistory example_history "it's slow" false).
  reflexivity.
Defined.

(** ** Replies *)

(** C5.  A reply whose status is not 2xx makes the call fail with the HTTP
    failure for exactly that status, whatever the body of the reply is: the
    body is not looked at. *)
Theorem non_2xx_is_http_failure
    env fetch StringToNumber ArrayToString p w chatHistory history userText isFirstTurn r :
  read_history (heap w) chatHistory = Some history →
  fetch (expected_request env p history userText isFirstTurn) = Responded r →
  (status r < 200 ∨ 299 < status r)%N →
  (respond env fetch StringToNumber ArrayToString p chatHistory userText isFirstTurn w).1
  = Throw (HttpFailure p (status r))
  ∧ ∀ s, HttpFailure p s = HttpFailure p (status r) → s = status r.
Proof.
  intros Hread Hfetch Hstatus. split; [|intros s Hs; by apply (HttpFailure_inj p)].
  destruct (respond_outcome env fetch StringToNumber ArrayToString p w chatHistory
              history userText isFirstTurn r Hread Hfetch) as (w1 & ->).
  rewrite result_phase_http_failure; [done|].
  unfold ok. apply andb_false_iff. rewrite !N.leb_gt. lia.
Qed.

Lemma non_2xx_is_http_failure_witness :
  read_history (heap example_world) example_chatHistory = Some example_history
  ∧ answering reply_503
      (expected_request example_env ProviderA example_history "it's slow" false)
    = Responded reply_503
  ∧ (status reply_503 < 200 ∨ 299 < status reply_503)%N
  ∧ (respond example_env (answering reply_503) example_StringToNumber
       example_ArrayToString ProviderA example_chatHistory "it's slow" false
       example_world).1
    = Throw (HttpFailure ProviderA (status reply_503)).
Proof.
  split; [reflexivity|]. split; [reflexivity|]. split; [right; reflexivity|].
  apply (non_2xx_is_http_failure example_env (answering reply_503)
           example_StringToNumber example_ArrayToString ProviderA example_world
           example_chatHistory example_history "it's slow" false reply_503);
    [reflexivity|reflexivity|right; reflexivity].
Defined.

(** The success body of the specification holds its text where the adapters
    look for it. *)
Lemma success_body_text p s : reply_text p (success_body p s) = Text s.
Proof. by destruct p. Qed.

(** C7.  Round trip: on a 2xx reply whose body has the expected shape around
    a string, the call returns that very string. *)
Theorem success_text_round_trip
    env fetch StringToNumber ArrayToString p w chatHistory history userText isFirstTurn
    r body s :
  read_history (heap w) chatHistory = Some history →
  fetch (expected_request env p history userText isFirstTurn) = Responded r →
  ok r = true →
  parsed r = Some body →
  reply_text p body = Text s →
  (respond env fetch StringToNumber ArrayToString p chatHistory userText isFirstTurn w).1
  = Return (Some (JStr s)).
Proof.
  intros Hread Hfetch Hok Hparsed Htext.
  destruct (respond_outcome env fetch StringToNumber ArrayToString p w chatHistory
              history userText isFirstTurn r Hread Hfetch) as (w1 & ->).
  by rewrite (result_phase_text _ _ p r w1 body s Hok Hparsed Htext).
Qed.

Lemma success_text_round_trip_witness :
  read_history (heap example_world) example_chatHistory = Some example_history
  ∧ answering reply_padded
      (expected_request example_env ProviderA example_history "it's slow" false)
    = Responded reply_padded
  ∧ ok reply_padded = true
  ∧ parsed reply_padded = Some (success_body ProviderA padded_text)
  ∧ reply_text ProviderA (success_body ProviderA padded_text) = Text padded_text
  ∧ (respond example_env (answering reply_padded) example_StringToNumber
       example_ArrayToString ProviderA example_chatHistory "it's slow" false
       example_world).1
    = Return (Some (JStr padded_text)).
Proof.
  split; [reflexivity|]. split; [reflexivity|]. split; [reflexivity|].
  split; [reflexivity|]. split; [reflexivity|].
  apply (success_text_round_trip example_env (answering reply_padded)
           example_StringToNumber example_ArrayToString ProviderA example_world
           example_chatHistory example_history "it's slow" false reply_padded
           (success_body ProviderA padded_text) padded_text);
    reflexivity.
Defined.




(** ** The persona *)

(** C8, as stated, fails: the text ProviderA injects on a first turn and the
    text ProviderB prepends are two different strings. *)
Lemma persona_texts_differ :
  ∃ reqA reqB a b,
    network (respond example_env (answering reply_unparsed)
               example_StringToNumber example_ArrayToString ProviderA
               example_chatHistory "my wifi is down" true example_world).2 = [reqA]
    ∧ network (respond example_env (answering reply_unparsed)
                 example_StringToNumber example_ArrayToString ProviderB
                 example_chatHistory "my wifi is down" true example_world).2 = [reqB]
    ∧ head <$> sent_turns ProviderA reqA = Some (Some (role_parts_json "user" a))
    ∧ head <$> sent_turns ProviderB reqB = Some (Some (message_json "system" b))
    ∧ a ≠ b.
Proof.
  exists (expected_request example_env ProviderA example_history "my wifi is down" true),
    (expected_request example_env ProviderB example_history "my wifi is down" true),
    initialPrompt_text, system_content.
  split; [vm_compute; reflexivity|]. split; [vm_compute; reflexivity|].
  split; [reflexivity|]. split; [reflexivity|].
  apply String.eqb_neq. vm_compute. reflexivity.
Qed.

(** C8, amended.  Each adapter has a fixed persona text of its own, and
    ProviderA's is ProviderB's followed by two more sentences.  ProviderA
    puts its text first, as a ["user"] turn, when [isFirstTurn] is true, and
    sends the mapped history and the new user turn, with nothing added,
    when it is false; ProviderB puts its text first, as a system message,
    on every call. *)
Theorem persona_per_adapter
    env fetch StringToNumber ArrayToString w chatHistory history userText :
  read_history (heap w) chatHistory = Some history →
  (∃ req rest,
     network (respond env fetch StringToNumber ArrayToString ProviderA
                chatHistory userText true w).2 = (network w ++ [req])%list
     ∧ sent_turns ProviderA req
       = Some (role_parts_json "user" initialPrompt_text :: rest))
  ∧ (∃ req,
       network (respond env fetch StringToNumber ArrayToString ProviderA
                  chatHistory userText false w).2 = (network w ++ [req])%list
       ∧ sent_turns ProviderA req
         = Some (map providerA_turn history ++ [role_parts_json "user" userText])%list)
  ∧ (∀ isFirstTurn, ∃ req rest,
       network (respond env fetch StringToNumber ArrayToString ProviderB
                  chatHistory userText isFirstTurn w).2 = (network w ++ [req])%list
       ∧ sent_turns ProviderB req
         = Some (message_json "system" system_content :: rest))
  ∧ initialPrompt_text
    = system_content
      ++ " This is for training purposes, so be thorough in your explanations. Start by asking the user what problem they are experiencing.".
Proof.
  intros Hread. split; [|split; [|split]].
  - eexists _, _. split; [by apply respond_network|]. reflexivity.
  - eexists. split; [by apply respond_network|]. reflexivity.
  - intros isFirstTurn. eexists _, _. split; [by apply respond_network|]. reflexivity.
  - reflexivity.
Qed.

Lemma persona_per_adapter_witness :
  read_history (heap example_world) example_chatHistory = Some example_history
  ∧ ∃ req,
      network (respond example_env (answering reply_unparsed)
                 example_StringToNumber example_ArrayToString ProviderA
                 example_chatHistory "it's slow" false example_world).2
      = (network example_world ++ [req])%list
      ∧ sent_turns ProviderA req
        = Some (map providerA_turn example_history
                  ++ [role_parts_json "user" "it's slow"])%list.
Proof.
  split; [reflexivity|].
  apply (persona_per_adapter example_env (answering reply_unparsed)
           example_StringToNumber example_ArrayToString example_world
           example_chatHistory example_history "it's slow").
  reflexivity.
Defined.

(** ** The caller's conversation *)

(** C9.  Whatever the arguments and whatever the network answers, every
    object that is in the heap when an adapter is called, the history array
    and each of its turns among them, is there unchanged when the call ends:
    the adapter writes only to objects it has allocated itself.  A
    conversation read from the heap before the call is read the same
    after it. *)
Theorem history_not_mutated
    env fetch StringToNumber ArrayToString p w chatHistory userText isFirstTurn :
  heap w
  ⊆ heap (respond env fetch StringToNumber ArrayToString p
            chatHistory userText isFirstTurn w).2
  ∧ ∀ history,
      read_history (heap w) chatHistory = Some history →
      read_history
        (heap (respond env fetch StringToNumber ArrayToString p
                 chatHistory userText isFirstTurn w).2) chatHistory
      = Some history.
Proof.
  assert (Hsub : heap w ⊆ heap (respond env fetch StringToNumber ArrayToString p
                                  chatHistory userText isFirstTurn w).2).
  { by apply (preserves_respond env fetch StringToNumber ArrayToString p (heap w)). }
  split; [exact Hsub|]. intros history. by apply read_history_weaken.
Qed.

Lemma history_not_mutated_witness :
  read_history (heap example_world) example_chatHistory = Some example_history
  ∧ read_history
      (heap (respond example_env (answering reply_padded) example_StringToNumber
               example_ArrayToString ProviderA example_chatHistory "it's slow" false
               example_world).2)
      example_chatHistory
    = Some example_history.
Proof.
  split; [reflexivity|].
  apply (history_not_mutated example_env (answering reply_padded)
           example_StringToNumber example_ArrayToString ProviderA example_world
           example_chatHistory "it's slow" false).
  reflexivity.
Defined.

(** ** Determinism *)

(** C10.  The body of the request is a function of the conversation, the
    new user text and the first-turn flag alone: two calls of the same
    adapter with the same three, in any two worlds (other heap contents,
    other locations, other console and network logs), with any environment
    and any network, send the same body. *)
Theorem request_body_deterministic
    p env1 fetch1 StringToNumber1 ArrayToString1 env2 fetch2 StringToNumber2 ArrayToString2
    w1 w2 chatHistory1 chatHistory2 history userText isFirstTurn :
  read_history (heap w1) chatHistory1 = Some history →
  read_history (heap w2) chatHistory2 = Some history →
  ∃ req1 req2 b,
    network (respond env1 fetch1 StringToNumber1 ArrayToString1 p
               chatHistory1 userText isFirstTurn w1).2 = (network w1 ++ [req1])%list
    ∧ network (respond env2 fetch2 StringToNumber2 ArrayToString2 p
                 chatHistory2 userText isFirstTurn w2).2 = (network w2 ++ [req2])%list
    ∧ body req1 = Some b
    ∧ body req2 = Some b.
Proof.
  intros H1 H2.
  exists (expected_request env1 p history userText isFirstTurn),
    (expected_request env2 p history userText isFirstTurn).
  destruct p.
  - exists (providerA_body history userText isFirstTurn).
    split; [by apply respond_network|]. split; [by apply respond_network|]. done.
  - exists (providerB_body history userText).
    split; [by apply respond_network|]. split; [by apply respond_network|]. done.
Qed.

Lemma request_body_deterministic_witness :
  read_history (heap example_world) example_chatHistory = Some example_history
  ∧ read_history (heap example_world_later) example_chatHistory = Some example_history
  ∧ ∃ req1 req2 b,
      network (respond example_env (answering reply_unparsed) example_StringToNumber
                 example_ArrayToString ProviderA example_chatHistory "and now?" false
                 example_world).2
      = (network example_world ++ [req1])%list
      ∧ network (respond example_env_keyed (answering reply_503) example_StringToNumber
                   example_ArrayToString ProviderA example_chatHistory "and now?" false
                   example_world_later).2
        = (network example_world_later ++ [req2])%list
      ∧ body req1 = Some b
      ∧ body req2 = Some b.
Proof.
  split; [reflexivity|]. split; [vm_compute; reflexivity|].
  apply (request_body_deterministic ProviderA
           example_env (answering reply_unparsed) example_StringToNumber
           example_ArrayToString
           example_env_keyed (answering reply_503) example_StringToNumber
           example_ArrayToString
           example_world example_world_later example_chatHistory example_chatHistory
           example_history "and now?" false);
    [reflexivity|vm_compute; reflexivity].
Defined.

(** * Further properties of the adapters *)

(** ** What stays as it is *)

Section Keeps.

Context {B : Type} (f : World → B).

Lemma keeps_ret {A} (a : A) : keeps f (ret a).
Proof. by intros w. Qed.

Lemma keeps_throw {A} e : keeps f (@throw A e).
Proof. by intros w. Qed.

Lemma keeps_lift {A} (o : outcome A) : keeps f (lift o).
Proof. by intros w. Qed.

Lemma keeps_bind {A C} (m : M A) (k : A → M C) :
  keeps f m → (∀ a, keeps f (k a)) → keeps f (bind m k).
Proof.
  intros Hm Hk w. specialize (Hm w). unfold bind.
  destruct (m w) as [[a|e] w']; simpl in *; [|done]. by rewrite Hk.
Qed.

Lemma keeps_try_catch {A} (m : M A) (handler : error → M A) :
  keeps f m → (∀ e, keeps f (handler e)) → keeps f (try_catch m handler).
Proof.
  intros Hm Hh w. specialize (Hm w). unfold try_catch.
  destruct (m w) as [[a|e] w']; simpl in *; [done|]. by rewrite Hh.
Qed.

Lemma keeps_get_prop v name : keeps f (get_prop v name).
Proof.
  intros w. unfold get_prop. destruct v as [| | | | |l]; try done.
  by destruct (heap w !! l) as [[|]|].
Qed.

Lemma keeps_spread v : keeps f (spread v).
Proof.
  intros w. unfold spread. destruct v as [| | | | |l]; try done.
  by destruct (heap w !! l) as [[|]|].
Qed.

Lemma keeps_JSON_stringify v : keeps f (JSON_stringify v).
Proof. intros w. unfold JSON_stringify. by destruct (stringify _ _ _). Qed.

Lemma keeps_response_json r : keeps f (response_json r).
Proof. unfold response_json. destruct (parsed r); [apply keeps_ret|apply keeps_throw]. Qed.

Lemma keeps_jpath v ks : keeps f (jpath v ks).
Proof. intros w. by rewrite jpath_run. Qed.

Hypothesis Hblind : heap_blind f.

Lemma keeps_alloc o : keeps f (alloc o).
Proof. intros w. apply Hblind. Qed.

Lemma keeps_array_push v x : keeps f (array_push v x).
Proof.
  intros w. unfold array_push. destruct v as [| | | | |l]; try done.
  destruct (heap w !! l) as [[|]|]; try done. apply Hblind.
Qed.

Lemma keeps_for_each (g : val → M val) elems :
  (∀ x, keeps f (g x)) → keeps f (for_each g elems).
Proof.
  intros Hg. induction elems as [|x rest IH]; simpl; [apply keeps_ret|].
  apply keeps_bind; [apply Hg|]. intros y.
  apply keeps_bind; [apply IH|]. intros ys. apply keeps_ret.
Qed.

Lemma keeps_array_map (g : val → M val) v :
  (∀ x, keeps f (g x)) → keeps f (array_map g v).
Proof.
  intros Hg w. unfold array_map. destruct v as [| | | | |l]; try done.
  destruct (heap w !! l) as [[elems|]|]; try done.
  revert w. change (keeps f (ys <- for_each g elems ;; new_array ys)).
  apply keeps_bind; [by apply keeps_for_each|]. intros ys. apply keeps_alloc.
Qed.

Lemma keeps_role_parts r t : keeps f (role_parts r t).
Proof.
  unfold role_parts, new_object, new_array.
  apply keeps_bind; [apply keeps_alloc|]. intros part.
  apply keeps_bind; [apply keeps_alloc|]. intros parts. apply keeps_alloc.
Qed.

Lemma keeps_getAIResponse_payload chatHistory userInput isFirstMessage :
  keeps f (getAIResponse_payload chatHistory userInput isFirstMessage).
Proof.
  unfold getAIResponse_payload, new_object, new_array.
  apply keeps_bind.
  { apply keeps_array_map. intros msg.
    apply keeps_bind; [apply keeps_get_prop|]. intros role.
    apply keeps_bind; [apply keeps_get_prop|]. intros text. apply keeps_role_parts. }
  intros apiChatHistory.
  apply keeps_bind; [apply keeps_role_parts|]. intros current.
  apply keeps_bind; [apply keeps_array_push|]. intros _.
  apply keeps_bind; [apply keeps_role_parts|]. intros initialPrompt.
  apply keeps_bind.
  { destruct isFirstMessage; [|apply keeps_ret].
    apply keeps_bind; [apply keeps_role_parts|]. intros first. apply keeps_alloc. }
  intros payloadContents.
  apply keeps_bind; [apply keeps_alloc|]. intros generationConfig. apply keeps_alloc.
Qed.

Lemma keeps_getOpenAIResponse_messages chatHistory userInput :
  keeps f (getOpenAIResponse_messages chatHistory userInput).
Proof.
  unfold getOpenAIResponse_messages, new_object, new_array.
  apply keeps_bind; [apply keeps_alloc|]. intros system.
  apply keeps_bind.
  { apply keeps_array_map. intros msg.
    apply keeps_bind; [apply keeps_get_prop|]. intros role.
    apply keeps_bind; [apply keeps_get_prop|]. intros text. apply keeps_alloc. }
  intros converted.
  apply keeps_bind; [apply keeps_spread|]. intros history.
  apply keeps_bind; [apply keeps_alloc|]. intros current. apply keeps_alloc.
Qed.

End Keeps.

Lemma console_heap_blind : heap_blind console.
Proof. by intros h w. Qed.

Lemma network_heap_blind : heap_blind network.
Proof. by intros h w. Qed.

Lemma keeps_console_do_fetch fetch req : keeps console (do_fetch fetch req).
Proof. intros w. unfold do_fetch. by destruct (fetch req). Qed.

(** ** The console *)

Lemma keeps_silent {A} (m : M A) : keeps console m → silent_on_return m.
Proof.
  intros Hm w. specialize (Hm w). destruct (m w).1; [done|].
  exists []. by rewrite app_nil_r.
Qed.

Lemma silent_bind {A C} (m : M A) (k : A → M C) :
  silent_on_return m → (∀ a, silent_on_return (k a)) → silent_on_return (bind m k).
Proof.
  intros Hm Hk w. specialize (Hm w). unfold bind.
  destruct (m w) as [[a|e] w']; simpl in *; [|done].
  specialize (Hk a w'). destruct (k a w') as [[c|e] w'']; simpl in *.
  - congruence.
  - destruct Hk as [extra ->]. exists extra. by rewrite Hm.
Qed.

Lemma silent_log_and_throw {A} label x e :
  silent_on_return (console_error label x ;;; @throw A e).
Proof. intros w. simpl. by eexists. Qed.

Lemma keeps_console_test v ks (test : jsv → bool) :
  keeps console (x <- jpath v ks ;; ret (test x)).
Proof. intros w. by rewrite test_run. Qed.

Lemma keeps_console_check v ks (test : jsv → outcome bool) :
  keeps console (x <- jpath v ks ;; lift (test x)).
Proof. intros w. by rewrite check_run. Qed.

Lemma keeps_console_js_and (a b : M bool) :
  keeps console a → keeps console b → keeps console (js_and a b).
Proof.
  intros Ha Hb. apply keeps_bind; [done|]. intros [|]; [done|apply keeps_ret].
Qed.

Lemma silent_result_phase s2n a2s p r : silent_on_return (result_phase s2n a2s p r).
Proof.
  destruct p; simpl; unfold getAIResponse_result, getOpenAIResponse_result;
    (destruct (negb (ok r)); [apply keeps_silent, keeps_throw|]);
    (apply silent_bind; [apply keeps_silent, keeps_response_json|]); intros body;
    (apply silent_bind;
       [apply keeps_silent;
        repeat first [apply keeps_console_test | apply keeps_console_check
                     | apply keeps_console_js_and]|]);
    intros [|];
    first [apply keeps_silent, keeps_jpath | apply silent_log_and_throw].
Qed.

Lemma silent_try_block env fetch s2n a2s p chatHistory userText isFirstTurn :
  ∃ block : M jsv,
    silent_on_return block
    ∧ respond env fetch s2n a2s p chatHistory userText isFirstTurn
      = try_catch block
          (λ error, console_error (catch_label p) (LogError error) ;;; throw error).
Proof.
  destruct p; simpl; unfold getAIResponse, getOpenAIResponse;
    eexists; (split; [|reflexivity]).
  - apply silent_bind;
      [apply keeps_silent, keeps_getAIResponse_payload, console_heap_blind|].
    intros payload.
    apply silent_bind; [apply keeps_silent, keeps_JSON_stringify|]. intros text.
    apply silent_bind; [apply keeps_silent, keeps_console_do_fetch|]. intros response.
    apply (silent_result_phase s2n a2s ProviderA).
  - apply silent_bind;
      [apply keeps_silent, keeps_getOpenAIResponse_messages, console_heap_blind|].
    intros messages.
    apply silent_bind; [apply keeps_silent, keeps_alloc, console_heap_blind|].
    intros request.
    apply silent_bind; [apply keeps_silent, keeps_JSON_stringify|]. intros text.
    apply silent_bind; [apply keeps_silent, keeps_console_do_fetch|]. intros response.
    apply (silent_result_phase s2n a2s ProviderB).
Qed.

(** X1.  For every input and every answer of the network: a call that
    returns has logged nothing, and a call that throws [e] has [e], under
    the label of its service, as the last entry of the console. *)
Theorem console_tells_the_outcome
    env fetch StringToNumber ArrayToString p w chatHistory userText isFirstTurn :
  match (respond env fetch StringToNumber ArrayToString p
           chatHistory userText isFirstTurn w).1 with
  | Return _ =>
      console (respond env fetch StringToNumber ArrayToString p
                 chatHistory userText isFirstTurn w).2
      = console w
  | Throw e =>
      ∃ extra,
        console (respond env fetch StringToNumber ArrayToString p
                   chatHistory userText isFirstTurn w).2
        = (console w ++ extra ++ [(catch_label p, LogError e)])%list
  end.
Proof.
  destruct (silent_try_block env fetch StringToNumber ArrayToString p chatHistory
              userText isFirstTurn) as (block & Hsilent & ->).
  specialize (Hsilent w). unfold try_catch.
  destruct (block w) as [[a|e] w']; simpl in *; [done|].
  destruct Hsilent as [extra ->]. exists extra. by rewrite app_assoc.
Qed.

(** ** Failures before the request is sent *)

Lemma only_TypeError_ret {A} (a : A) : only_TypeError (ret a).
Proof. by intros w. Qed.

Lemma only_TypeError_bind {A C} (m : M A) (k : A → M C) :
  only_TypeError m → (∀ a, only_TypeError (k a)) → only_TypeError (bind m k).
Proof.
  intros Hm Hk w. specialize (Hm w). unfold bind.
  destruct (m w) as [[a|e] w']; simpl in *; [apply Hk|done].
Qed.

Lemma only_TypeError_alloc o : only_TypeError (alloc o).
Proof. by intros w. Qed.

Lemma only_TypeError_get_prop v name : only_TypeError (get_prop v name).
Proof.
  intros w. unfold get_prop. destruct v as [| | | | |l]; try done.
  by destruct (heap w !! l) as [[|]|].
Qed.

Lemma only_TypeError_array_push v x : only_TypeError (array_push v x).
Proof.
  intros w. unfold array_push. destruct v as [| | | | |l]; try done.
  by destruct (heap w !! l) as [[|]|].
Qed.

Lemma only_TypeError_spread v : only_TypeError (spread v).
Proof.
  intros w. unfold spread. destruct v as [| | | | |l]; try done.
  by destruct (heap w !! l) as [[|]|].
Qed.

Lemma only_TypeError_JSON_stringify v : only_TypeError (JSON_stringify v).
Proof. intros w. unfold JSON_stringify. by destruct (stringify _ _ _). Qed.

Lemma only_TypeError_for_each (g : val → M val) elems :
  (∀ x, only_TypeError (g x)) → only_TypeError (for_each g elems).
Proof.
  intros Hg. induction elems as [|x rest IH]; simpl; [apply only_TypeError_ret|].
  apply only_TypeError_bind; [apply Hg|]. intros y.
  apply only_TypeError_bind; [apply IH|]. intros ys. apply only_TypeError_ret.
Qed.

Lemma only_TypeError_array_map (g : val → M val) v :
  (∀ x, only_TypeError (g x)) → only_TypeError (array_map g v).
Proof.
  intros Hg w. unfold array_map. destruct v as [| | | | |l]; try done.
  destruct (heap w !! l) as [[elems|]|]; try done.
  revert w. change (only_TypeError (ys <- for_each g elems ;; new_array ys)).
  apply only_TypeError_bind; [by apply only_TypeError_for_each|].
  intros ys. apply only_TypeError_alloc.
Qed.

Lemma only_TypeError_role_parts r t : only_TypeError (role_parts r t).
Proof.
  unfold role_parts, new_object, new_array.
  apply only_TypeError_bind; [apply only_TypeError_alloc|]. intros part.
  apply only_TypeError_bind; [apply only_TypeError_alloc|]. intros parts.
  apply only_TypeError_alloc.
Qed.

Lemma only_TypeError_getAIResponse_payload chatHistory userInput isFirstMessage :
  only_TypeError (getAIResponse_payload chatHistory userInput isFirstMessage).
Proof.
  unfold getAIResponse_payload, new_object, new_array.
  apply only_TypeError_bind.
  { apply only_TypeError_array_map. intros msg.
    apply only_TypeError_bind; [apply only_TypeError_get_prop|]. intros role.
    apply only_TypeError_bind; [apply only_TypeError_get_prop|]. intros text.
    apply only_TypeError_role_parts. }
  intros apiChatHistory.
  apply only_TypeError_bind; [apply only_TypeError_role_parts|]. intros current.
  apply only_TypeError_bind; [apply only_TypeError_array_push|]. intros _.
  apply only_TypeError_bind; [apply only_TypeError_role_parts|]. intros initialPrompt.
  apply only_TypeError_bind.
  { destruct isFirstMessage; [|apply only_TypeError_ret].
    apply only_TypeError_bind; [apply only_TypeError_role_parts|]. intros first.
    apply only_TypeError_alloc. }
  intros payloadContents.
  apply only_TypeError_bind; [apply only_TypeError_alloc|]. intros generationConfig.
  apply only_TypeError_alloc.
Qed.

Lemma only_TypeError_getOpenAIResponse_messages chatHistory userInput :
  only_TypeError (getOpenAIResponse_messages chatHistory userInput).
Proof.
  unfold getOpenAIResponse_messages, new_object, new_array.
  apply only_TypeError_bind; [apply only_TypeError_alloc|]. intros system.
  apply only_TypeError_bind.
  { apply only_TypeError_array_map. intros msg.
    apply only_TypeError_bind; [apply only_TypeError_get_prop|]. intros role.
    apply only_TypeError_bind; [apply only_TypeError_get_prop|]. intros text.
    apply only_TypeError_alloc. }
  intros converted.
  apply only_TypeError_bind; [apply only_TypeError_spread|]. intros history.
  apply only_TypeError_bind; [apply only_TypeError_alloc|]. intros current.
  apply only_TypeError_alloc.
Qed.

(** The part of a call that comes before [fetch]: the serialised request. *)
Lemma before_fetch env fetch s2n a2s p chatHistory userText isFirstTurn :
  ∃ (build : M jsv) (req_of : jsv → Request),
    keeps network build ∧ keeps console build ∧ only_TypeError build
    ∧ ∀ w,
        respond env fetch s2n a2s p chatHistory userText isFirstTurn w
        = try_catch
            (text <- build ;;
             response <- do_fetch fetch (req_of text) ;;
             result_phase s2n a2s p response)
            (λ error, console_error (catch_label p) (LogError error) ;;; throw error) w.
Proof.
  destruct p; simpl; unfold getAIResponse, getOpenAIResponse.
  - exists (payload <- getAIResponse_payload chatHistory userText isFirstTurn ;;
            JSON_stringify payload).
    eexists (λ text, {| url := _; method := _; headers := _; body := text |}).
    split; [|split; [|split]].
    + apply keeps_bind; [apply keeps_getAIResponse_payload, network_heap_blind|].
      intros. apply keeps_JSON_stringify.
    + apply keeps_bind; [apply keeps_getAIResponse_payload, console_heap_blind|].
      intros. apply keeps_JSON_stringify.
    + apply only_TypeError_bind; [apply only_TypeError_getAIResponse_payload|].
      intros. apply only_TypeError_JSON_stringify.
    + intros w. unfold try_catch, bind.
      by destruct (getAIResponse_payload chatHistory userText isFirstTurn w) as [[a|e] w'].
  - exists (messages <- getOpenAIResponse_messages chatHistory userText ;;
            request <- new_object [("model", VStr "gpt-3.5-turbo"); ("messages", messages);
                                   ("temperature", VNum num_0_7);
                                   ("max_tokens", VNum num_500)] ;;
            JSON_stringify request).
    eexists (λ text, {| url := _; method := _; headers := _; body := text |}).
    split; [|split; [|split]].
    + apply keeps_bind; [apply keeps_getOpenAIResponse_messages, network_heap_blind|].
      intros. apply keeps_bind; [apply keeps_alloc, network_heap_blind|].
      intros. apply keeps_JSON_stringify.
    + apply keeps_bind; [apply keeps_getOpenAIResponse_messages, console_heap_blind|].
      intros. apply keeps_bind; [apply keeps_alloc, console_heap_blind|].
      intros. apply keeps_JSON_stringify.
    + apply only_TypeError_bind; [apply only_TypeError_getOpenAIResponse_messages|].
      intros. apply only_TypeError_bind; [apply only_TypeError_alloc|].
      intros. apply only_TypeError_JSON_stringify.
    + intros w. unfold try_catch, bind, new_object.
      by destruct (getOpenAIResponse_messages chatHistory userText w) as [[a|e] w'].
Qed.

(** X2.  For every input and every answer of the network, a call hands at
    most one request to [fetch] (there is no retry), and a call that hands it
    none has failed with a [TypeError]. *)
Theorem one_request_or_none
    env fetch StringToNumber ArrayToString p w chatHistory userText isFirstTurn :
  (network (respond env fetch StringToNumber ArrayToString p
              chatHistory userText isFirstTurn w).2 = network w
   ∧ (respond env fetch StringToNumber ArrayToString p
        chatHistory userText isFirstTurn w).1 = Throw TypeError)
  ∨ ∃ req,
      network (respond env fetch StringToNumber ArrayToString p
                 chatHistory userText isFirstTurn w).2
      = (network w ++ [req])%list.
Proof.
  destruct (before_fetch env fetch StringToNumber ArrayToString p chatHistory userText
              isFirstTurn) as (build & req_of & Hnet & _ & Hty & ->).
  specialize (Hnet w). specialize (Hty w). unfold try_catch, bind, do_fetch.
  destruct (build w) as [[text|e] w1]; simpl in *.
  - right. exists (req_of text). rewrite <- Hnet.
    destruct (fetch (req_of text)) as [|r]; [done|].
    pose proof (quiet_result_phase StringToNumber ArrayToString p r
                  {| heap := heap w1; console := console w1;
                     network := network w1 ++ [req_of text] |}) as [_ Hq].
    destruct (result_phase _ _ p r _) as [[a|e] w2]; simpl in *; done.
  - left. subst e. done.
Qed.

Lemma array_map_not_array (g : val → M val) v w :
  is_array (heap w) v = false → array_map g v w = (Throw TypeError, w).
Proof.
  unfold is_array, array_map. destruct v as [| | | | |l]; try done.
  by destruct (heap w !! l) as [[|]|].
Qed.

Lemma is_array_alloc h v props :
  is_array h v = false → is_array (<[fresh_loc h := Obj props]> h) v = false.
Proof.
  unfold is_array. destruct v as [| | | | |l]; try done.
  destruct (decide (fresh_loc h = l)) as [<-|Hne].
  - by rewrite lookup_insert_eq.
  - by rewrite lookup_insert_ne.
Qed.

(** X3.  A history that is not an array ([undefined], [null], a string, a
    plain object) makes the call fail with a [TypeError] before anything is
    sent; the failure is logged under the label of the service. *)
Theorem history_not_an_array
    env fetch StringToNumber ArrayToString p w chatHistory userText isFirstTurn :
  is_array (heap w) chatHistory = false →
  (respond env fetch StringToNumber ArrayToString p
     chatHistory userText isFirstTurn w).1 = Throw TypeError
  ∧ network (respond env fetch StringToNumber ArrayToString p
               chatHistory userText isFirstTurn w).2 = network w
  ∧ console (respond env fetch StringToNumber ArrayToString p
               chatHistory userText isFirstTurn w).2
    = (console w ++ [(catch_label p, LogError TypeError)])%list.
Proof.
  intros Hna.
  assert (E : ∃ w',
    respond env fetch StringToNumber ArrayToString p chatHistory userText isFirstTurn w
    = (Throw TypeError, w')
    ∧ network w' = network w
    ∧ console w' = (console w ++ [(catch_label p, LogError TypeError)])%list).
  { destruct p; simpl.
    - unfold getAIResponse, try_catch, getAIResponse_payload, bind.
      rewrite array_map_not_array; [|done]. by eexists.
    - unfold getOpenAIResponse, try_catch, getOpenAIResponse_messages, bind, new_object.
      unfold alloc at 1.
      rewrite array_map_not_array; [|by apply is_array_alloc]. by eexists. }
  destruct E as (w' & -> & Hn & Hc). done.
Qed.

Lemma history_not_an_array_witness :
  is_array (heap example_world) VUndefined = false
  ∧ (respond example_env (answering reply_padded) example_StringToNumber
       example_ArrayToString ProviderB VUndefined "it's slow" false example_world).1
    = Throw TypeError
  ∧ network (respond example_env (answering reply_padded) example_StringToNumber
               example_ArrayToString ProviderB VUndefined "it's slow" false
               example_world).2
    = network example_world
  ∧ console (respond example_env (answering reply_padded) example_StringToNumber
               example_ArrayToString ProviderB VUndefined "it's slow" false
               example_world).2
    = (console example_world ++ [(catch_label ProviderB, LogError TypeError)])%list.
Proof.
  split; [reflexivity|].
  apply (history_not_an_array example_env (answering reply_padded)
           example_StringToNumber example_ArrayToString ProviderB example_world
           VUndefined "it's slow" false).
  reflexivity.
Defined.

(** ** Failures of the network and of the parser *)

Section Failures.

Variable env : string → option string.
Variable fetch : Request → FetchResult.
Variable StringToNumber : string → spec_float.
Variable ArrayToString : list json → outcome string.

(** X4.  When [fetch] rejects, the request having been handed to it, the
    call fails with the [TypeError] of the rejection and logs it under the
    label of the service. *)
Theorem network_failure_is_rethrown p w chatHistory history userText isFirstTurn :
  read_history (heap w) chatHistory = Some history →
  fetch (expected_request env p history userText isFirstTurn) = NetworkFailure →
  (respond env fetch StringToNumber ArrayToString p
     chatHistory userText isFirstTurn w).1 = Throw TypeError
  ∧ network (respond env fetch StringToNumber ArrayToString p
               chatHistory userText isFirstTurn w).2
    = (network w ++ [expected_request env p history userText isFirstTurn])%list
  ∧ console (respond env fetch StringToNumber ArrayToString p
               chatHistory userText isFirstTurn w).2
    = (console w ++ [(catch_label p, LogError TypeError)])%list.
Proof.
  intros Hread Hfetch.
  destruct (respond_run env fetch StringToNumber ArrayToString p w chatHistory history
              userText isFirstTurn Hread) as (w1 & _ & Hc & Hn & ->).
  rewrite Hfetch. unfold after_fetch, try_catch. simpl. by rewrite Hc, Hn.
Qed.

(** X5.  A 2xx reply whose body is not JSON makes the call fail with the
    [SyntaxError] of [response.json()], logged under the label of the
    service: no malformed-response error is made of it. *)
Theorem unparsable_reply_is_SyntaxError p w chatHistory history userText isFirstTurn r :
  read_history (heap w) chatHistory = Some history →
  fetch (expected_request env p history userText isFirstTurn) = Responded r →
  ok r = true →
  parsed r = None →
  (respond env fetch StringToNumber ArrayToString p
     chatHistory userText isFirstTurn w).1 = Throw SyntaxError
  ∧ console (respond env fetch StringToNumber ArrayToString p
               chatHistory userText isFirstTurn w).2
    = (console w ++ [(catch_label p, LogError SyntaxError)])%list.
Proof.
  intros Hread Hfetch Hok Hparsed.
  destruct (respond_run env fetch StringToNumber ArrayToString p w chatHistory history
              userText isFirstTurn Hread) as (w1 & _ & Hc & Hn & ->).
  rewrite Hfetch. unfold after_fetch, try_catch, result_phase.
  destruct p; unfold getAIResponse_result, getOpenAIResponse_result, response_json;
    rewrite Hok, Hparsed; simpl; by rewrite Hc.
Qed.

End Failures.

Lemma network_failure_is_rethrown_witness :
  read_history (heap example_world) example_chatHistory = Some example_history
  ∧ unreachable (expected_request example_env ProviderA example_history "it's slow" false)
    = NetworkFailure
  ∧ (respond example_env unreachable example_StringToNumber example_ArrayToString
       ProviderA example_chatHistory "it's slow" false example_world).1
    = Throw TypeError.
Proof.
  split; [reflexivity|]. split; [reflexivity|].
  apply (network_failure_is_rethrown example_env unreachable example_StringToNumber
           example_ArrayToString ProviderA example_world example_chatHistory
           example_history "it's slow" false);
    reflexivity.
Defined.

Lemma unparsable_reply_is_SyntaxError_witness :
  read_history (heap example_world) example_chatHistory = Some example_history
  ∧ answering reply_unparsed
      (expected_request example_env ProviderB example_history "it's slow" false)
    = Responded reply_unparsed
  ∧ ok reply_unparsed = true
  ∧ parsed reply_unparsed = None
  ∧ (respond example_env (answering reply_unparsed) example_StringToNumber
       example_ArrayToString ProviderB example_chatHistory "it's slow" false
       example_world).1
    = Throw SyntaxError.
Proof.
  split; [reflexivity|]. split; [reflexivity|]. split; [reflexivity|].
  split; [reflexivity|].
  apply (unparsable_reply_is_SyntaxError example_env (answering reply_unparsed)
           example_StringToNumber example_ArrayToString ProviderB example_world
           example_chatHistory example_history "it's slow" false reply_unparsed);
    reflexivity.
Defined.

(** ** Replies the guards let through, and replies they stop *)

Section Guards.

Variable env : string → option string.
Variable fetch : Request → FetchResult.
Variable StringToNumber : string → spec_float.
Variable ArrayToString : list json → outcome string.

Local Arguments jpath : simpl never.

Ltac run_test :=
  match goal with
  | |- context [bind (jpath ?v ?ks) (λ x, ret (@?t x)) ?w] => rewrite (test_run v ks t w)
  | |- context [bind (jpath ?v ?ks) (λ x, lift (@?t x)) ?w] => rewrite (check_run v ks t w)
  end.

(** Evaluating the paths of a guard in a body whose lookups are known. *)
Ltac eval_lookups :=
  repeat (progress (simpl;
                    repeat match goal with
                           | H : prop_lookup _ _ = _ |- _ => rewrite H
                           | H : truthy _ = _ |- _ => rewrite H
                           end)).

Ltac eval_guard :=
  unfold bind at 1; unfold ret at 1; unfold bind at 1;
  repeat first
    [ rewrite js_and_true by (run_test; eval_lookups; reflexivity)
    | rewrite js_and_false by (run_test; eval_lookups; reflexivity)
    | run_test; eval_lookups
    | rewrite jpath_run; eval_lookups ].


Lemma result_phase_leaf p r w body v :
  ok r = true → parsed r = Some body → reply_leaf p body = Some v →
  result_phase StringToNumber ArrayToString p r w = (Return v, w).
Proof.
  intros Hok Hparsed Hleaf. destruct p; simpl in *.
  - unfold getAIResponse_result, response_json. rewrite Hok, Hparsed.
    cbn [negb]. cbv beta iota.
    repeat match type of Hleaf with
           | context [match ?x with _ => _ end] => destruct x eqn:?; try discriminate
           end.
    injection Hleaf as <-. subst.
    eval_guard. reflexivity.
  - unfold getOpenAIResponse_result, response_json. rewrite Hok, Hparsed.
    cbn [negb]. cbv beta iota.
    repeat match type of Hleaf with
           | context [match ?x with _ => _ end] => destruct x eqn:?; try discriminate
           end.
    injection Hleaf as <-. subst.
    eval_guard. reflexivity.
Qed.

Lemma result_phase_not_object p r w body :
  ok r = true → parsed r = Some body → is_object body = false →
  (result_phase StringToNumber ArrayToString p r w).1
  = Throw match body with
          | JNull => TypeError
          | _ => MalformedResponse p
          end.
Proof.
  intros Hok Hparsed Hno.
  destruct p; simpl; unfold getAIResponse_result, getOpenAIResponse_result, response_json;
    rewrite Hok, Hparsed; cbn [negb]; cbv beta iota;
    destruct body; try discriminate; eval_guard; reflexivity.
Qed.


(** X7.  The text field is returned whatever it holds: on a 2xx reply of
    the expected shape down to the last object, the call returns the value
    of [text] ([content] for ProviderB) as it is, be it a string, a number,
    [null] or an object, and returns [undefined] when the property is
    absent.  There is no check that the reply text is a string. *)
Theorem leaf_is_returned_untested p w chatHistory history userText isFirstTurn r body v :
  read_history (heap w) chatHistory = Some history →
  fetch (expected_request env p history userText isFirstTurn) = Responded r →
  ok r = true →
  parsed r = Some body →
  reply_leaf p body = Some v →
  (respond env fetch StringToNumber ArrayToString p chatHistory userText isFirstTurn w).1
  = Return v.
Proof.
  intros Hread Hfetch Hok Hparsed Hleaf.
  destruct (respond_outcome env fetch StringToNumber ArrayToString p w chatHistory
              history userText isFirstTurn r Hread Hfetch) as (w1 & ->).
  by rewrite (result_phase_leaf p r w1 body v).
Qed.

(** X8.  A 2xx reply whose body is JSON but not an object: a list, a
    string, a number or a boolean has no [candidates] or [choices] and fails
    with the malformed-response error; [null] makes the very first read of
    the guard throw, and the call fails with that [TypeError] instead. *)
Theorem body_not_an_object p w chatHistory history userText isFirstTurn r body :
  read_history (heap w) chatHistory = Some history →
  fetch (expected_request env p history userText isFirstTurn) = Responded r →
  ok r = true →
  parsed r = Some body →
  is_object body = false →
  (respond env fetch StringToNumber ArrayToString p chatHistory userText isFirstTurn w).1
  = Throw match body with
          | JNull => TypeError
          | _ => MalformedResponse p
          end.
Proof.
  intros Hread Hfetch Hok Hparsed Hno.
  destruct (respond_outcome env fetch StringToNumber ArrayToString p w chatHistory
              history userText isFirstTurn r Hread Hfetch) as (w1 & ->).
  by apply (result_phase_not_object p r w1 body).
Qed.

End Guards.


Lemma leaf_is_returned_untested_witness :
  read_history (heap example_world) example_chatHistory = Some example_history
  ∧ answering reply_number_text
      (expected_request example_env ProviderB example_history "it's slow" false)
    = Responded reply_number_text
  ∧ ok reply_number_text = true
  ∧ parsed reply_number_text
    = Some (JObj [("choices",
                   JArr [JObj [("message", JObj [("content", JNum num_40)])]])])
  ∧ reply_leaf ProviderB
      (JObj [("choices", JArr [JObj [("message", JObj [("content", JNum num_40)])]])])
    = Some (Some (JNum num_40))
  ∧ (respond example_env (answering reply_number_text) example_StringToNumber
       example_ArrayToString ProviderB example_chatHistory "it's slow" false
       example_world).1
    = Return (Some (JNum num_40)).
Proof.
  split; [reflexivity|]. split; [reflexivity|]. split; [reflexivity|].
  split; [reflexivity|]. split; [reflexivity|].
  apply (leaf_is_returned_untested example_env (answering reply_number_text)
           example_StringToNumber example_ArrayToString ProviderB example_world
           example_chatHistory example_history "it's slow" false reply_number_text
           (JObj [("choices",
                   JArr [JObj [("message", JObj [("content", JNum num_40)])]])])
           (Some (JNum num_40)));
    reflexivity.
Defined.

Lemma body_not_an_object_witness :
  read_history (heap example_world) example_chatHistory = Some example_history
  ∧ answering reply_list
      (expected_request example_env ProviderA example_history "it's slow" false)
    = Responded reply_list
  ∧ ok reply_list = true
  ∧ parsed reply_list = Some (JArr [JStr "ok"])
  ∧ is_object (JArr [JStr "ok"]) = false
  ∧ (respond example_env (answering reply_list) example_StringToNumber
       example_ArrayToString ProviderA example_chatHistory "it's slow" false
       example_world).1
    = Throw (MalformedResponse ProviderA).
Proof.
  split; [reflexivity|]. split; [reflexivity|]. split; [reflexivity|].
  split; [reflexivity|]. split; [reflexivity|].
  apply (body_not_an_object example_env (answering reply_list) example_StringToNumber
           example_ArrayToString ProviderA example_world example_chatHistory
           example_history "it's slow" false reply_list (JArr [JStr "ok"]));
    reflexivity.
Defined.

(** ** Malformed-response detection, over every body *)

(** C6.  A 2xx reply (200 in particular) whose JSON body has no top-level
    list ([candidates], [choices]), or has it empty, makes the call fail, and
    no text is returned.  The failure is the malformed-response error for
    every such body but one: on the body [null] the first read of the guard
    throws, and the call fails with that [TypeError] instead. *)
Theorem list_missing_or_empty_outcome
    env fetch StringToNumber ArrayToString p w chatHistory history userText isFirstTurn
    r body :
  read_history (heap w) chatHistory = Some history →
  fetch (expected_request env p history userText isFirstTurn) = Responded r →
  ok r = true →
  parsed r = Some body →
  list_missing_or_empty p body = true →
  (respond env fetch StringToNumber ArrayToString p chatHistory userText isFirstTurn w).1
  = Throw match body with
          | JNull => TypeError
          | _ => MalformedResponse p
          end.
Proof.
  intros Hread Hfetch Hok Hparsed Hlist.
  destruct (respond_outcome env fetch StringToNumber ArrayToString p w chatHistory
              history userText isFirstTurn r Hread Hfetch) as (w1 & ->).
  destruct (is_object body) eqn:Hobj.
  - destruct body as [| | | | |top]; try discriminate.
    apply (result_phase_malformed _ _ p r w1 (JObj top) Hok Hparsed).
    unfold list_missing_or_empty in Hlist.
    destruct p; simpl in *; unfold reply_text_A, reply_text_B;
      destruct (prop_lookup _ top) as [[| | | |[|]|]|]; by try discriminate.
  - by apply (result_phase_not_object StringToNumber ArrayToString p r w1 body).
Qed.

Lemma list_missing_or_empty_outcome_witness :
  read_history (heap example_world) example_chatHistory = Some example_history
  ∧ ok reply_null = true
  ∧ parsed reply_null = Some JNull
  ∧ list_missing_or_empty ProviderA JNull = true
  ∧ list_missing_or_empty ProviderB JNull = true
  ∧ (respond example_env (answering reply_null) example_StringToNumber
       example_ArrayToString ProviderA example_chatHistory "it's slow" false
       example_world).1
    = Throw TypeError
  ∧ (respond example_env (answering reply_null) example_StringToNumber
       example_ArrayToString ProviderB example_chatHistory "it's slow" false
       example_world).1
    = Throw TypeError.
Proof.
  split; [reflexivity|]. split; [reflexivity|]. split; [reflexivity|].
  split; [reflexivity|]. split; [reflexivity|]. split.
  - apply (list_missing_or_empty_outcome example_env (answering reply_null)
             example_StringToNumber example_ArrayToString ProviderA example_world
             example_chatHistory example_history "it's slow" false reply_null JNull);
      reflexivity.
  - apply (list_missing_or_empty_outcome example_env (answering reply_null)
             example_StringToNumber example_ArrayToString ProviderB example_world
             example_chatHistory example_history "it's slow" false reply_null JNull);
      reflexivity.
Defined.

(** The comparison of a length with zero converts the length to a number,
    and the conversion of an object with a member named [toString] throws. *)
Example unconvertible_length_is_TypeError :
  (respond example_env (answering reply_length_object) example_StringToNumber
     example_ArrayToString ProviderA example_chatHistory "it's slow" false
     example_world).1
  = Throw TypeError.
Proof. vm_compute. reflexivity. Qed.

(** [JSON.stringify(-0)] is [0]. *)
Example negative_zero_is_written_as_zero :
  stringify 0 ∅ (VNum (S754_zero true)) = Some (Some (JNum (S754_zero false))).
Proof. reflexivity. Qed.

(** ** Messages of any role, with or without text *)

Lemma read_message_inv g v m :
  read_message g v = Some m →
  ∃ l props,
    v = VRef l ∧ g !! l = Some (Obj props)
    ∧ default VUndefined (prop_lookup "role" props) = msg_role m
    ∧ default VUndefined (prop_lookup "text" props) = text_val (msg_text m).
Proof.
  unfold read_message. destruct v as [| | | | |l]; try done.
  destruct (g !! l) as [[|props]|] eqn:El; try done.
  destruct (prop_lookup "text" props) as [[| | | |t|]|] eqn:Et; try done;
    intros [= <-]; exists l, props; simpl; rewrite ?Et; repeat split; done.
Qed.

Lemma read_message_weaken g g' v m :
  g ⊆ g' → read_message g v = Some m → read_message g' v = Some m.
Proof.
  intros Hsub Hr. destruct (read_message_inv _ _ _ Hr) as (l & props & -> & Hl & _).
  unfold read_message in *. rewrite Hl in Hr. by rewrite (lookup_weaken _ _ _ _ Hl Hsub).
Qed.

Lemma read_messages_inv g v ms :
  read_messages g v = Some ms →
  ∃ l elems,
    v = VRef l ∧ g !! l = Some (Arr elems)
    ∧ Forall2 (λ x m, read_message g x = Some m) elems ms.
Proof.
  unfold read_messages. destruct v as [| | | | |l]; try done.
  destruct (g !! l) as [[elems|]|] eqn:El; try done.
  intros Hm. exists l, elems. split; [done|]. split; [done|]. by apply mapM_Some_1.
Qed.

Lemma read_messages_weaken g g' v ms :
  g ⊆ g' → read_messages g v = Some ms → read_messages g' v = Some ms.
Proof.
  intros Hsub Hr. destruct (read_messages_inv _ _ _ Hr) as (l & elems & -> & Hl & Hall).
  unfold read_messages. rewrite (lookup_weaken _ _ _ _ Hl Hsub).
  apply mapM_Some_2. eapply Forall2_impl; [exact Hall|].
  intros x t Hx. by eapply read_message_weaken.
Qed.

Lemma strict_equal_has_role name m :
  strict_equal (msg_role m) (VStr name) = has_role name m.
Proof. unfold has_role. by destruct (msg_role m). Qed.

(** The literal [{ role: r, parts: [{ text: t }] }] for a text that may be
    [undefined]. *)
Lemma role_parts_run_text g w r (t : option string) :
  g ⊆ heap w →
  ∃ v w' g',
    role_parts r (text_val t) w = (Return v, w')
    ∧ grows g w g' w'
    ∧ stringify 3 g' v
      = Some (Some (JObj [("role", JStr r);
                          ("parts", JArr [JObj (text_member "text" t)])])).
Proof.
  intros Hsub. unfold role_parts, new_object, new_array, bind.
  destruct (alloc_grows g w (Obj [("text", text_val t)]) Hsub) as (E1 & G1 & S1).
  rewrite E1.
  set (l1 := fresh_loc (heap w)) in *.
  set (w1 := set_heap _ w) in *.
  set (g1 := <[l1 := _]> g) in *.
  destruct (alloc_grows g1 w1 (Arr [VRef l1]) (grows_sub _ _ _ _ G1)) as (E2 & G2 & S2).
  rewrite E2.
  set (l2 := fresh_loc (heap w1)) in *.
  set (w2 := set_heap _ w1) in *.
  set (g2 := <[l2 := _]> g1) in *.
  destruct (alloc_grows g2 w2 (Obj [("role", VStr r); ("parts", VRef l2)])
              (grows_sub _ _ _ _ G2)) as (E3 & G3 & S3).
  rewrite E3.
  set (l3 := fresh_loc (heap w2)) in *.
  set (w3 := set_heap _ w2) in *.
  set (g3 := <[l3 := _]> g2) in *.
  assert (H1 : g3 !! l1 = Some (Obj [("text", text_val t)])).
  { eapply lookup_weaken; [|exact (grows_known _ _ _ _ G3)].
    eapply lookup_weaken; [|exact (grows_known _ _ _ _ G2)].
    apply lookup_insert_eq. }
  assert (H2 : g3 !! l2 = Some (Arr [VRef l1])).
  { eapply lookup_weaken; [|exact (grows_known _ _ _ _ G3)].
    apply lookup_insert_eq. }
  assert (H3 : g3 !! l3 = Some (Obj [("role", VStr r); ("parts", VRef l2)]))
    by apply lookup_insert_eq.
  clearbody g3 l3 l2 l1.
  exists (VRef l3), w3, g3. split; [done|]. split.
  - eapply grows_trans; [exact G1|]. eapply grows_trans; [exact G2|exact G3].
  - rewrite stringify_ref, H3. unfold stringify_members.
    rewrite stringify_ref, H2. unfold stringify_items.
    rewrite stringify_ref, H1. by destruct t.
Qed.

Lemma gemini_callback_run_message g w x m :
  g ⊆ heap w → read_message g x = Some m →
  ∃ y w' g',
    (role <- get_prop x "role" ;;
     text <- get_prop x "text" ;;
     role_parts (if strict_equal role (VStr "user") then "user" else "model") text) w
    = (Return y, w')
    ∧ grows g w g' w'
    ∧ stringify 3 g' y = Some (Some (gemini_turn m)).
Proof.
  intros Hsub Hread.
  destruct (read_message_inv _ _ _ Hread) as (l & props & -> & Hl & Hrole & Htext).
  pose proof (lookup_weaken _ _ _ _ Hl Hsub) as Hl'.
  unfold bind at 1. rewrite (get_prop_object _ _ _ _ Hl'), Hrole.
  unfold bind at 1. rewrite (get_prop_object _ _ _ _ Hl'), Htext.
  rewrite strict_equal_has_role.
  apply (role_parts_run_text g w _ (msg_text m) Hsub).
Qed.

Lemma openai_callback_run_message g w x m :
  g ⊆ heap w → read_message g x = Some m →
  ∃ y w' g',
    (role <- get_prop x "role" ;;
     text <- get_prop x "text" ;;
     new_object [("role", VStr (if strict_equal role (VStr "model")
                                then "assistant" else "user"));
                 ("content", text)]) w
    = (Return y, w')
    ∧ grows g w g' w'
    ∧ stringify 1 g' y = Some (Some (openai_message m)).
Proof.
  intros Hsub Hread.
  destruct (read_message_inv _ _ _ Hread) as (l & props & -> & Hl & Hrole & Htext).
  pose proof (lookup_weaken _ _ _ _ Hl Hsub) as Hl'.
  unfold bind at 1. rewrite (get_prop_object _ _ _ _ Hl'), Hrole.
  unfold bind at 1. rewrite (get_prop_object _ _ _ _ Hl'), Htext.
  rewrite strict_equal_has_role. unfold new_object.
  match goal with
  | |- context [alloc ?o w] => destruct (alloc_grows g w o Hsub) as (E & G & _)
  end.
  eexists _, _, _. split; [exact E|]. split; [exact G|].
  rewrite stringify_ref, lookup_insert_eq. unfold openai_message.
  by destruct (msg_text m).
Qed.

(** Mapping an array of the heap whose elements are read by [rd]. *)
Lemma array_map_reads {T} (rd : gmap loc obj → val → option T)
    (f : val → M val) (expected : T → json) (fuel : nat) :
  (∀ g g' x t, g ⊆ g' → rd g x = Some t → rd g' x = Some t) →
  (∀ g w x t, g ⊆ heap w → rd g x = Some t →
     ∃ y w' g', f x w = (Return y, w') ∧ grows g w g' w'
                ∧ stringify fuel g' y = Some (Some (expected t))) →
  ∀ g w l elems ts,
    g ⊆ heap w →
    g !! l = Some (Arr elems) →
    Forall2 (λ x t, rd g x = Some t) elems ts →
    ∃ la ys w' g',
      array_map f (VRef l) w = (Return (VRef la), w') ∧ grows g w g' w'
      ∧ g' !! la = None ∧ heap w' !! la = Some (Arr ys)
      ∧ Forall2 (λ y j, stringify fuel g' y = Some (Some j)) ys (map expected ts).
Proof.
  intros Hrd Hf g w l elems ts Hsub Hl Hall.
  assert (Hloop : ∃ ys w1 g1,
    for_each f elems w = (Return ys, w1) ∧ grows g w g1 w1
    ∧ Forall2 (λ y j, stringify fuel g1 y = Some (Some j)) ys (map expected ts)).
  { clear Hl. revert ts g w Hsub Hall.
    induction elems as [|x elems IH]; intros ts g w Hsub Hall.
    - apply Forall2_nil_inv_l in Hall as ->.
      exists [], w, g. simpl. split; [done|]. split; [by apply grows_refl|constructor].
    - apply Forall2_cons_inv_l in Hall as (t & ts' & Hx & Hrest & ->).
      destruct (Hf g w x t Hsub Hx) as (y & w1 & g1 & Ey & G1 & Sy).
      assert (Hrest' : Forall2 (λ x t, rd g1 x = Some t) elems ts').
      { eapply Forall2_impl; [exact Hrest|]. intros ? ? ?.
        eapply Hrd; [exact (grows_known _ _ _ _ G1)|done]. }
      destruct (IH ts' g1 w1 (grows_sub _ _ _ _ G1) Hrest')
        as (ys & w2 & g2 & Eys & G2 & Sys).
      exists (y :: ys), w2, g2. split; [|split].
      + simpl. unfold bind at 1. rewrite Ey. unfold bind at 1. by rewrite Eys.
      + eapply grows_trans; done.
      + simpl. constructor; [|done].
        eapply stringify_mono; [|exact (grows_known _ _ _ _ G2)|exact Sy]. lia. }
  destruct Hloop as (ys & w1 & g1 & Eys & G1 & Sys).
  destruct (alloc_grows_aside g1 w1 (Arr ys) (grows_sub _ _ _ _ G1))
    as (Ea & G2 & Hnone & Hsome).
  exists (fresh_loc (heap w1)), ys,
    (set_heap (<[fresh_loc (heap w1) := Arr ys]> (heap w1)) w1), g1.
  split; [|split; [|done]].
  - unfold array_map. rewrite (lookup_weaken _ _ _ _ Hl Hsub).
    unfold bind. rewrite Eys. exact Ea.
  - eapply grows_trans; done.
Qed.

Lemma getAIResponse_payload_run_messages w chatHistory ms userInput isFirstMessage :
  read_messages (heap w) chatHistory = Some ms →
  ∃ payload w',
    getAIResponse_payload chatHistory userInput isFirstMessage w = (Return payload, w')
    ∧ console w' = console w ∧ network w' = network w
    ∧ JSON_stringify payload w'
      = (Return
           (Some (JObj [("contents",
                         JArr (if isFirstMessage
                               then [role_parts_json "user" initialPrompt_text;
                                     role_parts_json "user" userInput]
                               else map gemini_turn ms
                                      ++ [role_parts_json "user" userInput])%list);
                        ("generationConfig", generationConfig_json)])), w').
Proof.
  intros Hread. unfold getAIResponse_payload.
  destruct (read_messages_inv _ _ _ Hread) as (l & elems & -> & Hl & Hall).
  match goal with
  | |- context [array_map ?f _] =>
      destruct (array_map_reads read_message f gemini_turn 3 read_message_weaken
                  gemini_callback_run_message (heap w) w l elems ms
                  (reflexivity _) Hl Hall)
        as (la & ys & w1 & g1 & E1 & G1 & Hnone & Hsome & Hys)
  end.
  unfold bind at 1. rewrite E1.
  destruct (role_parts_run g1 w1 "user" userInput (grows_sub _ _ _ _ G1))
    as (cur & w2 & g2 & E2 & G2 & Scur & _).
  unfold bind at 1. rewrite E2.
  assert (Hnone2 : g2 !! la = None).
  { rewrite (grows_old _ _ _ _ G2); [done|]. by rewrite Hsome. }
  pose proof (lookup_weaken _ _ _ _ Hsome (grows_heap _ _ _ _ G2)) as Hsome2.
  destruct (array_push_known g2 w2 la ys cur (grows_sub _ _ _ _ G2) Hnone2 Hsome2)
    as (E3 & K3 & Sub3 & Hla & C3 & N3).
  unfold bind at 1. rewrite E3.
  set (w3 := set_heap _ w2) in *.
  set (g3 := <[la := _]> g2) in *.
  clearbody g3 w3.
  destruct (role_parts_run g3 w3 "user" initialPrompt_text Sub3)
    as (ip & w4 & g4 & E4 & G4 & Sip & Z4).
  unfold bind at 1. rewrite E4.
  assert (Hhist : stringify 4 g3 (VRef la)
                  = Some (Some (JArr (map gemini_turn ms
                                        ++ [role_parts_json "user" userInput])))).
  { rewrite stringify_ref, Hla.
    erewrite stringify_items_Forall2; [done|].
    apply Forall2_app.
    - eapply Forall2_impl; [exact Hys|]. intros y j Hy. cbv beta in Hy.
      eapply stringify_mono; [|etrans; [exact (grows_known _ _ _ _ G2)|exact K3]|exact Hy].
      lia.
    - constructor; [|constructor].
      eapply stringify_mono; [|exact K3|exact Scur]. lia. }
  assert (Hio : console w4 = console w ∧ network w4 = network w).
  { rewrite (grows_console _ _ _ _ G4), (grows_network _ _ _ _ G4), C3, N3.
    rewrite (grows_console _ _ _ _ G2), (grows_network _ _ _ _ G2).
    by rewrite (grows_console _ _ _ _ G1), (grows_network _ _ _ _ G1). }
  destruct Hio as [Hc4 Hn4].
  assert (Hcontents : ∃ contents w5 g5,
    (if isFirstMessage
     then (first <- role_parts "user" (VStr userInput) ;; new_array [ip; first])
     else ret (VRef la)) w4 = (Return contents, w5)
    ∧ grows g4 w4 g5 w5
    ∧ stringify 4 g5 contents
      = Some (Some (JArr (if isFirstMessage
                          then [role_parts_json "user" initialPrompt_text;
                                role_parts_json "user" userInput]
                          else map gemini_turn ms
                                 ++ [role_parts_json "user" userInput])%list))).
  { destruct isFirstMessage.
    - destruct (role_parts_run g4 w4 "user" userInput (grows_sub _ _ _ _ G4))
        as (first & w5 & g5 & E5 & G5 & Sfirst & _).
      unfold bind, new_array. rewrite E5.
      destruct (alloc_grows g5 w5 (Arr [ip; first]) (grows_sub _ _ _ _ G5))
        as (E6 & G6 & _).
      eexists _, _, _. split; [exact E6|]. split; [by eapply grows_trans|].
      rewrite stringify_ref, lookup_insert_eq.
      erewrite stringify_items_Forall2; [done|].
      constructor; [|constructor; [|constructor]].
      + eapply stringify_mono; [|etrans; [exact (grows_known _ _ _ _ G5)|
                                           exact (grows_known _ _ _ _ G6)]|exact Sip].
        lia.
      + eapply stringify_mono; [|exact (grows_known _ _ _ _ G6)|exact Sfirst]. lia.
    - exists (VRef la), w4, g4. split; [done|].
      split; [apply grows_refl, (grows_sub _ _ _ _ G4)|].
      eapply stringify_mono; [|exact (grows_known _ _ _ _ G4)|exact Hhist]. lia. }
  destruct Hcontents as (contents & w5 & g5 & E5 & G5 & Sc).
  unfold bind at 1. rewrite E5.
  destruct (gemini_payload_tail g5 w5 contents _ (grows_sub _ _ _ _ G5) Sc)
    as (payload & w6 & g6 & E6 & G6 & Sp & Z6).
  exists payload, w6. split; [exact E6|]. split; [|split].
  - by rewrite (grows_console _ _ _ _ G6), (grows_console _ _ _ _ G5).
  - by rewrite (grows_network _ _ _ _ G6), (grows_network _ _ _ _ G5).
  - unfold JSON_stringify.
    erewrite stringify_mono; [done| |exact (grows_sub _ _ _ _ G6)|exact Sp].
    pose proof (grows_size _ _ _ _ G5). lia.
Qed.

Lemma getOpenAIResponse_messages_run_messages w chatHistory ms userInput :
  read_messages (heap w) chatHistory = Some ms →
  ∃ messages w' g',
    getOpenAIResponse_messages chatHistory userInput w = (Return messages, w')
    ∧ grows (heap w) w g' w'
    ∧ stringify 2 g' messages
      = Some (Some (JArr (message_json "system" system_content
                            :: map openai_message ms
                            ++ [message_json "user" userInput])%list))
    ∧ (1 ≤ size (heap w'))%nat.
Proof.
  intros Hread. unfold getOpenAIResponse_messages, new_object, new_array.
  match goal with
  | |- context [alloc ?o] =>
      destruct (alloc_grows (heap w) w o (reflexivity _)) as (E1 & G1 & Z1)
  end.
  unfold bind at 1. rewrite E1.
  set (ls := fresh_loc (heap w)) in *.
  set (w1 := set_heap _ w) in *.
  set (g1 := <[ls := _]> (heap w)) in *.
  assert (Hs : stringify 1 g1 (VRef ls)
               = Some (Some (message_json "system" system_content))).
  { rewrite stringify_ref. unfold g1. by rewrite lookup_insert_eq. }
  clearbody g1 w1 ls.
  pose proof (read_messages_weaken _ _ _ _ (grows_known _ _ _ _ G1) Hread) as Hread1.
  destruct (read_messages_inv _ _ _ Hread1) as (l & elems & -> & Hl & Hall).
  match goal with
  | |- context [array_map ?f _] =>
      destruct (array_map_reads read_message f openai_message 1 read_message_weaken
                  openai_callback_run_message g1 w1 l elems ms
                  (grows_sub _ _ _ _ G1) Hl Hall)
        as (la & ys & w2 & g2 & E2 & G2 & Hnone & Hsome & Hys)
  end.
  unfold bind at 1. rewrite E2.
  unfold bind at 1. rewrite (spread_array _ _ _ Hsome).
  match goal with
  | |- context [alloc ?o] =>
      destruct (alloc_grows g2 w2 o (grows_sub _ _ _ _ G2)) as (E3 & G3 & Z3)
  end.
  unfold bind at 1. rewrite E3.
  set (lc := fresh_loc (heap w2)) in *.
  set (w3 := set_heap _ w2) in *.
  set (g3 := <[lc := _]> g2) in *.
  assert (Hc : stringify 1 g3 (VRef lc) = Some (Some (message_json "user" userInput))).
  { rewrite stringify_ref. unfold g3. by rewrite lookup_insert_eq. }
  clearbody g3 w3 lc.
  destruct (alloc_grows g3 w3 (Arr (VRef ls :: ys ++ [VRef lc])) (grows_sub _ _ _ _ G3))
    as (E4 & G4 & Z4).
  eexists _, _, _. split; [exact E4|]. split; [|split].
  - eapply grows_trans; [exact G1|]. eapply grows_trans; [exact G2|].
    eapply grows_trans; [exact G3|exact G4].
  - rewrite stringify_ref, lookup_insert_eq.
    erewrite stringify_items_Forall2; [done|].
    constructor; [|apply Forall2_app].
    + eapply stringify_mono; [|etrans; [exact (grows_known _ _ _ _ G2)|
                                  etrans; [exact (grows_known _ _ _ _ G3)|
                                           exact (grows_known _ _ _ _ G4)]]|exact Hs].
      lia.
    + eapply Forall2_impl; [exact Hys|]. intros y j Hy. cbv beta in Hy.
      eapply stringify_mono; [|etrans; [exact (grows_known _ _ _ _ G3)|
                                        exact (grows_known _ _ _ _ G4)]|exact Hy].
      lia.
    + constructor; [|constructor].
      eapply stringify_mono; [|exact (grows_known _ _ _ _ G4)|exact Hc]. lia.
  - rewrite Z4. lia.
Qed.

(** What is in the log of requests once [fetch] has been called and the
    reply dealt with. *)
Lemma network_after_fetch fetch s2n a2s p req w :
  network
    (try_catch
       (response <- do_fetch fetch req ;; result_phase s2n a2s p response)
       (λ error, console_error (catch_label p) (LogError error) ;;; throw error) w).2
  = (network w ++ [req])%list.
Proof.
  unfold try_catch, bind, do_fetch.
  destruct (fetch req) as [|r]; [done|].
  pose proof (quiet_result_phase s2n a2s p r
                {| heap := heap w; console := console w;
                   network := network w ++ [req] |}) as [_ Hq].
  destruct (result_phase s2n a2s p r _) as [[a|e] w2]; simpl in *; done.
Qed.

(** The request [getAIResponse] sends for messages of any shape. *)
Lemma getAIResponse_sends
    env fetch StringToNumber ArrayToString w chatHistory ms userText isFirstMessage :
  read_messages (heap w) chatHistory = Some ms →
  network (getAIResponse env fetch StringToNumber ArrayToString
             chatHistory userText isFirstMessage w).2
  = (network w
       ++ [{| url := ("https://generativelanguage.googleapis.com/v1beta/models/gemini-2.0-flash:generateContent?key="
                      ++ env_or_empty env "REACT_APP_GEMINI_API_KEY")%string;
              method := "POST";
              headers := [("Content-Type", "application/json")];
              body := Some (JObj [("contents",
                                   JArr (if isFirstMessage
                                         then [role_parts_json "user" initialPrompt_text;
                                               role_parts_json "user" userText]
                                         else map gemini_turn ms
                                                ++ [role_parts_json "user" userText])%list);
                                  ("generationConfig", generationConfig_json)]) |}])%list.
Proof.
  intros Hread.
  destruct (getAIResponse_payload_run_messages w chatHistory ms userText
              isFirstMessage Hread)
    as (payload & w' & E & Hc & Hn & Es).
  unfold getAIResponse.
  match goal with
  | |- network (try_catch (bind _ ?k) ?h w).2 = _ =>
      transitivity (network (try_catch (k payload) h w').2);
        [unfold try_catch, bind at 1; by rewrite E|]
  end.
  cbv beta zeta.
  match type of Es with
  | _ = (Return ?b, _) =>
      match goal with
      | |- network (try_catch (bind _ ?k) ?h w').2 = _ =>
          transitivity (network (try_catch (k b) h w').2);
            [unfold try_catch, bind at 1; by rewrite Es|]
      end
  end.
  rewrite (network_after_fetch fetch StringToNumber ArrayToString ProviderA).
  rewrite Hn. reflexivity.
Qed.

(** The request [getOpenAIResponse] sends for messages of any shape. *)
Lemma getOpenAIResponse_sends
    env fetch StringToNumber ArrayToString w chatHistory ms userText :
  read_messages (heap w) chatHistory = Some ms →
  network (getOpenAIResponse env fetch StringToNumber ArrayToString
             chatHistory userText w).2
  = (network w
       ++ [{| url := "https://api.openai.com/v1/chat/completions";
              method := "POST";
              headers := [("Content-Type", "application/json");
                          ("Authorization",
                           ("Bearer "
                              ++ env_or_empty env "REACT_APP_OPENAI_API_KEY")%string)];
              body := Some (JObj [("model", JStr "gpt-3.5-turbo");
                                  ("messages",
                                   JArr (message_json "system" system_content
                                           :: map openai_message ms
                                           ++ [message_json "user" userText])%list);
                                  ("temperature", JNum num_0_7);
                                  ("max_tokens", JNum num_500)]) |}])%list.
Proof.
  intros Hread.
  destruct (getOpenAIResponse_messages_run_messages w chatHistory ms userText Hread)
    as (messages & w' & g' & E & G & Sm & Z).
  match type of Sm with
  | _ = Some (Some (JArr ?js)) =>
      set (body := JObj [("model", JStr "gpt-3.5-turbo"); ("messages", JArr js);
                         ("temperature", JNum num_0_7); ("max_tokens", JNum num_500)])
  end.
  unfold getOpenAIResponse.
  match goal with
  | |- network (try_catch (bind _ ?k) ?h w).2 = _ =>
      transitivity (network (try_catch (k messages) h w').2);
        [unfold try_catch, bind at 1; by rewrite E|]
  end.
  cbv beta zeta. unfold new_object.
  match goal with
  | |- context [alloc ?o] =>
      destruct (alloc_grows g' w' o (grows_sub _ _ _ _ G)) as (E1 & G1 & Z1)
  end.
  set (lr := fresh_loc (heap w')) in *.
  set (w2 := set_heap _ w') in *.
  set (g2 := <[lr := _]> g') in *.
  assert (Hr : stringify 3 g2 (VRef lr) = Some (Some body)).
  { rewrite stringify_ref. unfold g2 at 1. rewrite lookup_insert_eq.
    unfold stringify_members.
    erewrite (stringify_mono 2 2 g' g2 messages); [..|exact Sm];
      [done|lia|exact (grows_known _ _ _ _ G1)]. }
  assert (Es : JSON_stringify (VRef lr) w2 = (Return (Some body), w2)).
  { unfold JSON_stringify.
    erewrite stringify_mono; [done| |exact (grows_sub _ _ _ _ G1)|exact Hr]. lia. }
  clearbody g2 w2 lr.
  match goal with
  | |- network (try_catch (bind _ ?k) ?h w').2 = _ =>
      transitivity (network (try_catch (k (VRef lr)) h w2).2);
        [unfold try_catch, bind at 1; by rewrite E1|]
  end.
  cbv beta zeta.
  match goal with
  | |- network (try_catch (bind _ ?k) ?h w2).2 = _ =>
      transitivity (network (try_catch (k (Some body)) h w2).2);
        [unfold try_catch, bind at 1; by rewrite Es|]
  end.
  rewrite (network_after_fetch fetch StringToNumber ArrayToString ProviderB).
  rewrite (grows_network _ _ _ _ G1), (grows_network _ _ _ _ G). reflexivity.
Qed.

(** ** Messages of any role, with or without text *)

(** X9.  [getAIResponse] on messages of any role, with or without text
    (later turn): a message whose role is ["user"] is sent as ["user"] and a
    message of any other role, or of none, as ["model"]; a message without
    text is sent with an empty part.  Order is kept and the new user turn
    comes last. *)
Theorem gemini_maps_every_role
    env fetch StringToNumber ArrayToString w chatHistory ms userText :
  read_messages (heap w) chatHistory = Some ms →
  ∃ req,
    network (getAIResponse env fetch StringToNumber ArrayToString
               chatHistory userText false w).2
    = (network w ++ [req])%list
    ∧ sent_turns ProviderA req
      = Some (map (λ m, JObj [("role", JStr (if has_role "user" m
                                             then "user" else "model"));
                              ("parts",
                               JArr [JObj match msg_text m with
                                          | Some s => [("text", JStr s)]
                                          | None => []
                                          end])]) ms
                ++ [JObj [("role", JStr "user");
                          ("parts", JArr [JObj [("text", JStr userText)]])]])%list.
Proof.
  intros Hread. eexists. split.
  - by apply getAIResponse_sends.
  - reflexivity.
Qed.

Lemma gemini_maps_every_role_witness :
  read_messages (heap odd_world) (VRef 3) = Some odd_messages
  ∧ ∃ req,
      network (getAIResponse example_env (answering reply_padded)
                 example_StringToNumber example_ArrayToString
                 (VRef 3) "hi" false odd_world).2
      = (network odd_world ++ [req])%list
      ∧ sent_turns ProviderA req
        = Some [JObj [("role", JStr "model");
                      ("parts", JArr [JObj [("text", JStr "hello")]])];
                JObj [("role", JStr "user"); ("parts", JArr [JObj []])];
                JObj [("role", JStr "user");
                      ("parts", JArr [JObj [("text", JStr "hi")]])]].
Proof.
  split; [vm_compute; reflexivity|].
  apply (gemini_maps_every_role example_env (answering reply_padded)
           example_StringToNumber example_ArrayToString odd_world (VRef 3)
           odd_messages "hi").
  vm_compute; reflexivity.
Defined.

(** X10.  [getOpenAIResponse] on messages of any role, with or without
    text: after the persona message, a message whose role is ["model"] is
    sent as ["assistant"] and a message of any other role, or of none, as
    ["user"]; a message without text is sent without content.  Order is
    kept and the new user message comes last. *)
Theorem openai_maps_every_role
    env fetch StringToNumber ArrayToString w chatHistory ms userText :
  read_messages (heap w) chatHistory = Some ms →
  ∃ req,
    network (getOpenAIResponse env fetch StringToNumber ArrayToString
               chatHistory userText w).2
    = (network w ++ [req])%list
    ∧ sent_turns ProviderB req
      = Some (JObj [("role", JStr "system"); ("content", JStr system_content)]
                :: map (λ m, JObj (("role", JStr (if has_role "model" m
                                                  then "assistant" else "user"))
                                     :: match msg_text m with
                                        | Some s => [("content", JStr s)]
                                        | None => []
                                        end)) ms
                ++ [JObj [("role", JStr "user"); ("content", JStr userText)]])%list.
Proof.
  intros Hread. eexists. split.
  - by apply getOpenAIResponse_sends.
  - reflexivity.
Qed.

Lemma openai_maps_every_role_witness :
  read_messages (heap odd_world) (VRef 3) = Some odd_messages
  ∧ ∃ req,
      network (getOpenAIResponse example_env (answering reply_padded)
                 example_StringToNumber example_ArrayToString
                 (VRef 3) "hi" odd_world).2
      = (network odd_world ++ [req])%list
      ∧ sent_turns ProviderB req
        = Some [JObj [("role", JStr "system"); ("content", JStr system_content)];
                JObj [("role", JStr "user"); ("content", JStr "hello")];
                JObj [("role", JStr "user")];
                JObj [("role", JStr "user"); ("content", JStr "hi")]].
Proof.
  split; [vm_compute; reflexivity|].
  apply (openai_maps_every_role example_env (answering reply_padded)
           example_StringToNumber example_ArrayToString odd_world (VRef 3)
           odd_messages "hi").
  vm_compute; reflexivity.
Defined.

(** X11.  The envelope of the request does not depend on the conversation:
    a POST to the provider's endpoint with a JSON content type and the
    provider's fixed settings around the turns.  The key is read from the
    environment, an unset key counting as the empty string, and travels in
    the query string for [getAIResponse] and in the [Authorization] header
    for [getOpenAIResponse]. *)
Theorem request_envelope
    env fetch StringToNumber ArrayToString p w chatHistory ms userText isFirstTurn :
  read_messages (heap w) chatHistory = Some ms →
  ∃ req turns,
    network (respond env fetch StringToNumber ArrayToString p
               chatHistory userText isFirstTurn w).2
    = (network w ++ [req])%list
    ∧ method req = "POST"
    ∧ match p with
      | ProviderA =>
          url req
          = "https://generativelanguage.googleapis.com/v1beta/models/gemini-2.0-flash:generateContent?key="
            ++ default "" (env "REACT_APP_GEMINI_API_KEY")
          ∧ headers req = [("Content-Type", "application/json")]
          ∧ body req
            = Some (JObj [("contents", JArr turns);
                          ("generationConfig",
                           JObj [("temperature", JNum num_0_7);
                                 ("topK", JNum num_40);
                                 ("topP", JNum num_0_95);
                                 ("maxOutputTokens", JNum num_500)])])
      | ProviderB =>
          url req = "https://api.openai.com/v1/chat/completions"
          ∧ headers req
            = [("Content-Type", "application/json");
               ("Authorization",
                "Bearer " ++ default "" (env "REACT_APP_OPENAI_API_KEY"))]
          ∧ body req
            = Some (JObj [("model", JStr "gpt-3.5-turbo");
                          ("messages", JArr turns);
                          ("temperature", JNum num_0_7);
                          ("max_tokens", JNum num_500)])
      end.
Proof.
  intros Hread. destruct p; simpl.
  - eexists _, _. split; [by apply getAIResponse_sends|].
    simpl. unfold env_or_empty. by destruct (env _).
  - eexists _, _. split; [by apply getOpenAIResponse_sends|].
    simpl. unfold env_or_empty. by destruct (env _).
Qed.

Lemma request_envelope_witness :
  read_messages (heap odd_world) (VRef 3) = Some odd_messages
  ∧ ∃ req turns,
      network (respond example_env_keyed (answering reply_padded)
                 example_StringToNumber example_ArrayToString ProviderB
                 (VRef 3) "hi" false odd_world).2
      = (network odd_world ++ [req])%list
      ∧ method req = "POST"
      ∧ url req = "https://api.openai.com/v1/chat/completions"
      ∧ headers req
        = [("Content-Type", "application/json"); ("Authorization", "Bearer k")]
      ∧ body req
        = Some (JObj [("model", JStr "gpt-3.5-turbo");
                      ("messages", JArr turns);
                      ("temperature", JNum num_0_7);
                      ("max_tokens", JNum num_500)]).
Proof.
  split; [vm_compute; reflexivity|].
  apply (request_envelope example_env_keyed (answering reply_padded)
           example_StringToNumber example_ArrayToString ProviderB odd_world
           (VRef 3) odd_messages "hi" false).
  vm_compute; reflexivity.
Defined.

(** * The component *)

Section ComponentFacts.

Variable env : string → option string.
Variable fetch : Request → FetchResult.
Variable StringToNumber : string → spec_float.
Variable ArrayToString : list json → outcome string.
Variable trim : string → string.
Variable has_speech : bool.

Lemma speakText_run c text s :
  speakText has_speech c text s
  = (Return tt,
     {| world := world s;
        events := events s
                    ++ [if isVoiceEnabled c && has_speech
                        then Speak text
                        else ConsoleWarn
                               "Speech synthesis not supported or voice disabled."] |}).
Proof. unfold speakText, emit. by destruct (isVoiceEnabled c), has_speech. Qed.

Local Ltac shown_events :=
  rewrite speakText_run; cbv beta iota; cbn [world events];
  unfold queued_first, shown; by rewrite <- !app_assoc.

(** [sendMessage] in terms of its [try] block. *)
Lemma sendMessage_run c s :
  String.eqb (trim (userInput c)) "" = false →
  let l := fresh_loc (heap (world s)) in
  let w1 := set_heap (<[l := Obj [("role", VStr "user"); ("text", VStr (userInput c))]]>
                        (heap (world s))) (world s) in
  sendMessage env fetch StringToNumber ArrayToString trim has_speech c s
  = match ask env fetch StringToNumber ArrayToString c w1 with
    | (Return v, w2) =>
        (Return tt,
         {| world := w2;
            events := events s ++ queued_first (VRef l)
                        ++ shown has_speech c (Value v) |})
    | (Throw e, w2) =>
        (Return tt,
         {| world := {| heap := heap w2;
                        console := console w2
                                     ++ [("Error fetching AI response:", LogError e)];
                        network := network w2 |};
            events := events s ++ queued_first (VRef l)
                        ++ shown has_speech c (ErrorText e) |})
    end%list.
Proof.
  intros Hblank l w1. unfold sendMessage. rewrite Hblank.
  unfold ask, ui_finally, ui_try_catch, ui_bind, run, emit, new_object, alloc,
    ui_throw, ui_ret, bind, throw, ret, respond, console_error.
  cbn [world events]. fold l. fold w1.
  destruct (String.eqb (aiModel c) "gemini" && key_not_set env _ _);
    cbv beta iota; cbn [world events]; [shown_events|].
  destruct (String.eqb (aiModel c) "openai" && key_not_set env _ _);
    cbv beta iota; cbn [world events]; [shown_events|].
  destruct (get_prop (chatHistory c) "length" w1) as [[len|e] w'];
    cbv beta iota; cbn [world events]; [|shown_events].
  destruct (String.eqb (aiModel c) "openai").
  - destruct (getOpenAIResponse _ _ _ _ _ _ w') as [[v|e] w2];
      cbv beta iota; cbn [world events]; shown_events.
  - destruct (getAIResponse _ _ _ _ _ _ _ w') as [[v|e] w2];
      cbv beta iota; cbn [world events]; shown_events.
Qed.

End ComponentFacts.

Lemma length_is_zero (elems : list val) :
  strict_equal (VNum (num_of_nat (length elems))) (VNum num_zero)
  = match elems with [] => true | _ => false end.
Proof. by destruct elems. Qed.

Section ComponentProperties.

Variable env : string → option string.
Variable fetch : Request → FetchResult.
Variable StringToNumber : string → spec_float.
Variable ArrayToString : list json → outcome string.
Variable trim : string → string.
Variable has_speech : bool.

Lemma preserves_ask c h0 :
  preserves h0 (ask env fetch StringToNumber ArrayToString c) any.
Proof.
  unfold ask.
  eapply preserves_bind.
  { destruct (_ && _); [apply preserves_throw|by apply (preserves_ret _ _ any)]. }
  intros _ _. eapply preserves_bind.
  { destruct (_ && _); [apply preserves_throw|by apply (preserves_ret _ _ any)]. }
  intros _ _. eapply preserves_bind; [apply preserves_get_prop|].
  intros len _. apply preserves_respond.
Qed.

(** With the key of the selected provider in place and an array for a
    history, the [try] block is the call of the adapter. *)
Lemma ask_respond c w l elems :
  key_not_set env "REACT_APP_GEMINI_API_KEY" "your_gemini_api_key_here"
    && String.eqb (aiModel c) "gemini" = false →
  key_not_set env "REACT_APP_OPENAI_API_KEY" "your_openai_api_key_here"
    && String.eqb (aiModel c) "openai" = false →
  chatHistory c = VRef l → heap w !! l = Some (Arr elems) →
  ask env fetch StringToNumber ArrayToString c w
  = respond env fetch StringToNumber ArrayToString (provider_of c)
      (chatHistory c) (userInput c) (match elems with [] => true | _ => false end) w.
Proof.
  intros H1 H2 Hc Hl. unfold ask.
  rewrite andb_comm in H1. rewrite andb_comm in H2. rewrite H1, H2.
  unfold bind at 1. unfold ret at 1. unfold bind at 1. unfold ret at 1.
  unfold bind at 1. rewrite Hc. unfold get_prop at 1. rewrite Hl.
  cbn [String.eqb Ascii.eqb Bool.eqb]. by rewrite length_is_zero.
Qed.

(** X12.  [sendMessage] never rejects.  On a blank input it does nothing at
    all.  Otherwise it queues exactly two messages, the user's and one from
    the model, clears the input, and raises the loading flag before the
    call and lowers it after, whatever the call ended in; the text of the
    model's message is spoken, or a warning logged when the voice is off. *)
Theorem sendMessage_settles c s :
  ∃ s',
    sendMessage env fetch StringToNumber ArrayToString trim has_speech c s
    = (Return tt, s')
    ∧ if String.eqb (trim (userInput c)) ""
      then s' = s
      else ∃ l shownText,
          heap (world s) !! l = None
          ∧ heap (world s') !! l
            = Some (Obj [("role", VStr "user"); ("text", VStr (userInput c))])
          ∧ events s'
            = (events s
                 ++ [SetChatHistory (AppendMessage (VRef l));
                     SetUserInput "";
                     SetIsLoading true;
                     SetChatHistory (AppendModelMessage shownText (aiModel c));
                     if isVoiceEnabled c && has_speech
                     then Speak shownText
                     else ConsoleWarn "Speech synthesis not supported or voice disabled.";
                     SetIsLoading false])%list.
Proof.
  destruct (String.eqb (trim (userInput c)) "") eqn:Hblank.
  - exists s. unfold sendMessage. by rewrite Hblank.
  - rewrite (sendMessage_run env fetch StringToNumber ArrayToString trim has_speech
               c s Hblank).
    cbv zeta.
    set (l := fresh_loc (heap (world s))).
    set (o := Obj _).
    set (w1 := set_heap _ _).
    assert (Hw1 : ({[l := o]} : gmap loc obj) ⊆ heap w1).
    { unfold w1. simpl. apply map_singleton_subseteq_l, lookup_insert_eq. }
    destruct (preserves_ask c _ w1 Hw1) as [Hkeep _].
    assert (Hnone : heap (world s) !! l = None) by apply fresh_loc_lookup.
    destruct (ask env fetch StringToNumber ArrayToString c w1) as [[v|e] w2];
      simpl in Hkeep; apply map_singleton_subseteq_l in Hkeep.
    + eexists. split; [done|]. by exists l, (Value v).
    + eexists. split; [done|]. by exists l, (ErrorText e).
Qed.

(** X13.  Without the key of the selected provider (unset, empty, or still
    the placeholder of the template) [sendMessage] sends nothing: the
    adapter is not called, and the chat gets the text
    ["Error: ... API key is not set. ..."] in place of a reply. *)
Theorem missing_key_is_reported_not_sent c s name placeholder provider :
  String.eqb (trim (userInput c)) "" = false →
  (aiModel c, name, placeholder, provider)
    ∈ [("gemini", "REACT_APP_GEMINI_API_KEY", "your_gemini_api_key_here", "Gemini");
       ("openai", "REACT_APP_OPENAI_API_KEY", "your_openai_api_key_here", "OpenAI")] →
  env name ∈ [None; Some ""; Some placeholder] →
  let message :=
    provider ++ " API key is not set. Please add your API key to the .env file." in
  ∃ s' l,
    sendMessage env fetch StringToNumber ArrayToString trim has_speech c s
    = (Return tt, s')
    ∧ network (world s') = network (world s)
    ∧ console (world s')
      = (console (world s)
           ++ [("Error fetching AI response:", LogError (Error message))])%list
    ∧ events s'
      = (events s ++ queued_first (VRef l)
           ++ shown has_speech c (ErrorText (Error message)))%list
    ∧ error_text (Error message) = Some ("Error: " ++ message).
Proof.
  intros Hblank Hsel Hkey message.
  rewrite (sendMessage_run env fetch StringToNumber ArrayToString trim has_speech
             c s Hblank).
  cbv zeta. set (l := fresh_loc (heap (world s))). set (w1 := set_heap _ _).
  assert (Ek : key_not_set env name placeholder = true).
  { unfold key_not_set.
    apply elem_of_cons in Hkey as [->|Hkey]; [done|].
    apply elem_of_cons in Hkey as [->|Hkey]; [done|].
    apply list_elem_of_singleton in Hkey as ->.
    by rewrite String.eqb_refl, orb_true_r. }
  assert (Ea : ask env fetch StringToNumber ArrayToString c w1
               = (Throw (Error message), w1)).
  { unfold ask, message.
    apply elem_of_cons in Hsel as [Hsel|Hsel];
      [|apply list_elem_of_singleton in Hsel];
      injection Hsel as -> -> -> ->; by rewrite Ek. }
  rewrite Ea. eexists _, l. split; [done|]. simpl.
  repeat split; try done.
  unfold message.
  apply elem_of_cons in Hsel as [Hsel|Hsel];
    [|apply list_elem_of_singleton in Hsel];
    by injection Hsel as _ _ _ ->.
Qed.

(** A send with the key in place and a history of user and model messages:
    the adapter is called on the history of the render, and the call is
    followed up to the answer of the network. *)
Lemma sendMessage_asks c s history :
  String.eqb (trim (userInput c)) "" = false →
  (aiModel c = "gemini" →
   key_not_set env "REACT_APP_GEMINI_API_KEY" "your_gemini_api_key_here" = false) →
  (aiModel c = "openai" →
   key_not_set env "REACT_APP_OPENAI_API_KEY" "your_openai_api_key_here" = false) →
  read_history (heap (world s)) (chatHistory c) = Some history →
  let p := provider_of c in
  let req := expected_request env p history (userInput c)
               (match history with [] => true | _ => false end) in
  ∃ l w1,
    console w1 = console (world s)
    ∧ network w1 = (network (world s) ++ [req])%list
    ∧ sendMessage env fetch StringToNumber ArrayToString trim has_speech c s
      = match after_fetch StringToNumber ArrayToString p (fetch req) w1 with
        | (Return v, w2) =>
            (Return tt,
             {| world := w2;
                events := events s ++ queued_first (VRef l)
                            ++ shown has_speech c (Value v) |})
        | (Throw e, w2) =>
            (Return tt,
             {| world := {| heap := heap w2;
                            console := console w2
                                         ++ [("Error fetching AI response:", LogError e)];
                            network := network w2 |};
                events := events s ++ queued_first (VRef l)
                            ++ shown has_speech c (ErrorText e) |})
        end%list.
Proof.
  intros Hblank Hg Ho Hread p req.
  rewrite (sendMessage_run env fetch StringToNumber ArrayToString trim has_speech
             c s Hblank).
  cbv zeta. set (l := fresh_loc (heap (world s))). set (w1 := set_heap _ _).
  assert (Hsub : heap (world s) ⊆ heap w1) by apply alloc_extends.
  pose proof (read_history_weaken _ _ _ _ Hsub Hread) as Hread1.
  destruct (read_history_inv _ _ _ Hread1) as (lh & elems & Hc & Hl & Hall).
  assert (H1 : key_not_set env "REACT_APP_GEMINI_API_KEY" "your_gemini_api_key_here"
               && String.eqb (aiModel c) "gemini" = false).
  { destruct (String.eqb_spec (aiModel c) "gemini") as [E|_];
      [by rewrite (Hg E)|apply andb_false_r]. }
  assert (H2 : key_not_set env "REACT_APP_OPENAI_API_KEY" "your_openai_api_key_here"
               && String.eqb (aiModel c) "openai" = false).
  { destruct (String.eqb_spec (aiModel c) "openai") as [E|_];
      [by rewrite (Ho E)|apply andb_false_r]. }
  rewrite (ask_respond c w1 lh elems H1 H2 Hc Hl).
  assert (Hempty : match elems with [] => true | _ => false end
                   = match history with [] => true | _ => false end).
  { by destruct Hall. }
  rewrite Hempty.
  destruct (respond_run env fetch StringToNumber ArrayToString (provider_of c) w1
              (chatHistory c) history (userInput c)
              (match history with [] => true | _ => false end)
              Hread1) as (w1' & _ & Hcon & Hnet & E).
  exists l, w1'. split; [done|]. split; [done|]. by rewrite E.
Qed.

(** X14.  A reply outside 200..299 ends as a chat message: the failure is
    logged by the adapter and again by [sendMessage], and the model's
    message reads ["Error: "] followed by the message of the failure, with
    the status in it. *)
Theorem http_failure_is_shown c s history r :
  String.eqb (trim (userInput c)) "" = false →
  (aiModel c = "gemini" →
   key_not_set env "REACT_APP_GEMINI_API_KEY" "your_gemini_api_key_here" = false) →
  (aiModel c = "openai" →
   key_not_set env "REACT_APP_OPENAI_API_KEY" "your_openai_api_key_here" = false) →
  read_history (heap (world s)) (chatHistory c) = Some history →
  fetch (expected_request env (provider_of c) history (userInput c)
           (match history with [] => true | _ => false end))
  = Responded r →
  ok r = false →
  let failure := HttpFailure (provider_of c) (status r) in
  ∃ s' l,
    sendMessage env fetch StringToNumber ArrayToString trim has_speech c s
    = (Return tt, s')
    ∧ console (world s')
      = (console (world s)
           ++ [(catch_label (provider_of c), LogError failure);
               ("Error fetching AI response:", LogError failure)])%list
    ∧ events s'
      = (events s ++ queued_first (VRef l)
           ++ shown has_speech c (ErrorText failure))%list
    ∧ error_text failure
      = Some ("Error: "
                ++ (if String.eqb (aiModel c) "openai" then "OpenAI " else "")
                ++ "API request failed with status: " ++ string_of_N (status r)).
Proof.
  intros Hblank Hg Ho Hread Hfetch Hok failure.
  destruct (sendMessage_asks c s history Hblank Hg Ho Hread)
    as (l & w1 & Hcon & Hnet & ->).
  rewrite Hfetch. unfold after_fetch, try_catch.
  rewrite (result_phase_http_failure StringToNumber ArrayToString _ _ _ Hok).
  unfold bind, console_error, throw. fold failure.
  eexists _, l. split; [done|]. cbn [world console events].
  rewrite Hcon, <- app_assoc. split; [done|]. split; [done|].
  unfold failure, provider_of. by destruct (String.eqb (aiModel c) "openai").
Qed.


(** [resetChat], run. *)
Lemma resetChat_run c s :
  let h0 := heap (world s) in
  let l0 := fresh_loc h0 in
  let h1 := <[l0 := Arr []]> h0 in
  let l1 := fresh_loc h1 in
  let h2 := <[l1 := Obj [("role", VStr "model"); ("text", VStr welcome_text);
                         ("model", VStr (aiModel c))]]> h1 in
  let l2 := fresh_loc h2 in
  resetChat has_speech c s
  = (Return tt,
     {| world := set_heap (<[l2 := Arr [VRef l1]]> h2) (world s);
        events := events s
                    ++ (if has_speech then [CancelSpeech] else [])
                    ++ [SetChatHistory (SetTo (VRef l0));
                        SetUserInput "";
                        SetIsLoading false;
                        SetChatHistory (SetTo (VRef l2));
                        if isVoiceEnabled c && has_speech
                        then Speak (Value (Some (JStr welcome_text)))
                        else ConsoleWarn
                               "Speech synthesis not supported or voice disabled."] |})%list.
Proof.
  intros h0 l0 h1 l1 h2 l2.
  unfold resetChat, ui_bind, run, emit, new_object, new_array, alloc, ui_ret.
  destruct has_speech; cbv beta iota; cbn [world events heap set_heap];
    rewrite speakText_run; cbn [world events heap set_heap];
    fold h0; fold l0; fold h1; fold l1; fold welcome_text; fold h2; fold l2;
    unfold set_heap; cbn [heap console network];
    by rewrite <- ?app_assoc.
Qed.

(** X16.  [resetChat] sends nothing and writes nothing with
    [console.error].  Whatever the chat was, it queues exactly: the
    cancelling of speech where there is speech synthesis, an empty chat, an
    empty input, the lowering of the loading flag, a chat of one message,
    the welcome of the model tagged with the selected model, and the
    utterance of the welcome, or a warning through [console.warn] when the
    voice is off or there is no speech synthesis.  The second chat
    overrides the first; on the render that follows, the effect that calls
    [resetChat] on an empty chat does nothing.  No object of the heap is
    changed. *)
Theorem resetChat_leaves_the_welcome c s :
  ∃ s' cleared message welcome,
    resetChat has_speech c s = (Return tt, s')
    ∧ network (world s') = network (world s)
    ∧ console (world s') = console (world s)
    ∧ heap (world s) ⊆ heap (world s')
    ∧ events s'
      = (events s
           ++ (if has_speech then [CancelSpeech] else [])
           ++ [SetChatHistory (SetTo (VRef cleared));
               SetUserInput "";
               SetIsLoading false;
               SetChatHistory (SetTo (VRef welcome));
               if isVoiceEnabled c && has_speech
               then Speak (Value (Some (JStr "Hello! I am your Optimum Agent. How can I assist you with your technical issue today?")))
               else ConsoleWarn "Speech synthesis not supported or voice disabled."])%list
    ∧ heap (world s') !! cleared = Some (Arr [])
    ∧ heap (world s') !! message
      = Some (Obj [("role", VStr "model");
                   ("text", VStr "Hello! I am your Optimum Agent. How can I assist you with your technical issue today?");
                   ("model", VStr (aiModel c))])
    ∧ heap (world s') !! welcome = Some (Arr [VRef message])
    ∧ next_chatHistory (chatHistory c) (drop (length (events s)) (events s'))
      = Some (VRef welcome)
    ∧ ∀ c', chatHistory c' = VRef welcome →
        welcome_effect has_speech c' s' = (Return tt, s').
Proof.
  rewrite resetChat_run. cbv zeta.
  set (h0 := heap (world s)). set (l0 := fresh_loc h0).
  set (h1 := <[l0 := _]> h0). set (l1 := fresh_loc h1).
  set (h2 := <[l1 := _]> h1). set (l2 := fresh_loc h2).
  assert (N0 : h0 !! l0 = None) by apply fresh_loc_lookup.
  assert (N1 : h1 !! l1 = None) by apply fresh_loc_lookup.
  assert (N2 : h2 !! l2 = None) by apply fresh_loc_lookup.
  assert (Hl1 : (<[l2 := Arr [VRef l1]]> h2) !! l1
                = Some (Obj [("role", VStr "model"); ("text", VStr welcome_text);
                             ("model", VStr (aiModel c))])).
  { rewrite lookup_insert_ne; [apply lookup_insert_eq|].
    apply (fresh_loc_ne h2 l1 _ (lookup_insert_eq _ _ _)). }
  assert (Hl0 : (<[l2 := Arr [VRef l1]]> h2) !! l0 = Some (Arr [])).
  { assert (E0 : h1 !! l0 = Some (Arr [])) by apply lookup_insert_eq.
    assert (E1 : h2 !! l0 = Some (Arr [])).
    { unfold h2. rewrite lookup_insert_ne; [done|]. intros ->. congruence. }
    rewrite lookup_insert_ne; [done|]. intros ->. congruence. }
  exists {| world := set_heap (<[l2 := Arr [VRef l1]]> h2) (world s);
            events := events s
                        ++ (if has_speech then [CancelSpeech] else [])
                        ++ [SetChatHistory (SetTo (VRef l0)); SetUserInput "";
                            SetIsLoading false; SetChatHistory (SetTo (VRef l2));
                            if isVoiceEnabled c && has_speech
                            then Speak (Value (Some (JStr welcome_text)))
                            else ConsoleWarn
                                   "Speech synthesis not supported or voice disabled."] |}%list,
    l0, l1, l2.
  split; [done|]. unfold set_heap. cbn [world events network console heap].
  split; [done|]. split; [done|]. split.
  { etrans; [apply alloc_extends|]. etrans; [apply alloc_extends|].
    apply alloc_extends. }
  split; [done|]. split; [done|]. split; [done|].
  split; [apply lookup_insert_eq|]. split.
  - rewrite drop_app_length. by destruct has_speech, (isVoiceEnabled c).
  - intros c' Hc'. unfold welcome_effect, ui_bind, run. rewrite Hc'.
    unfold get_prop. cbn [world heap]. by rewrite lookup_insert_eq.
Qed.

(** X17.  The chat [resetChat] leaves is never empty, so a send from the
    render that follows goes out without the first-message flag: the
    request of [getAIResponse] holds the welcome and the user's text, and no
    persona prompt. *)
Theorem persona_is_not_sent_after_reset c s c' :
  next_chatHistory (chatHistory c)
    (drop (length (events s)) (events (resetChat has_speech c s).2))
  = Some (chatHistory c') →
  String.eqb (trim (userInput c')) "" = false →
  String.eqb (aiModel c') "openai" = false →
  (aiModel c' = "gemini" →
   key_not_set env "REACT_APP_GEMINI_API_KEY" "your_gemini_api_key_here" = false) →
  ∃ req,
    network (world (sendMessage env fetch StringToNumber ArrayToString trim has_speech
                      c' (resetChat has_speech c s).2).2)
    = (network (world s) ++ [req])%list
    ∧ sent_turns ProviderA req
      = Some [JObj [("role", JStr "model");
                    ("parts",
                     JArr [JObj [("text",
                                  JStr "Hello! I am your Optimum Agent. How can I assist you with your technical issue today?")]])];
              JObj [("role", JStr "user");
                    ("parts", JArr [JObj [("text", JStr (userInput c'))]])]].
Proof.
  rewrite resetChat_run. cbv zeta.
  set (h0 := heap (world s)). set (l0 := fresh_loc h0).
  set (h1 := <[l0 := _]> h0). set (l1 := fresh_loc h1).
  set (h2 := <[l1 := _]> h1). set (l2 := fresh_loc h2).
  cbn [snd events]. rewrite drop_app_length.
  intros Hnext Hblank Hmodel Hg.
  assert (Hc' : chatHistory c' = VRef l2).
  { destruct has_speech, (isVoiceEnabled c); simpl in Hnext; by injection Hnext. }
  set (s1 := {| world := _; events := _ |}).
  assert (Hl1 : (<[l2 := Arr [VRef l1]]> h2) !! l1
                = Some (Obj [("role", VStr "model"); ("text", VStr welcome_text);
                             ("model", VStr (aiModel c))])).
  { rewrite lookup_insert_ne; [apply lookup_insert_eq|].
    apply (fresh_loc_ne h2 l1 _ (lookup_insert_eq _ _ _)). }
  assert (Hread : read_history (heap (world s1)) (chatHistory c')
                  = Some [{| role := Agent; text := welcome_text |}]).
  { rewrite Hc'. unfold read_history, s1. cbn [world heap set_heap].
    rewrite lookup_insert_eq. simpl. unfold read_turn. by rewrite Hl1. }
  assert (Ho : aiModel c' = "openai" →
               key_not_set env "REACT_APP_OPENAI_API_KEY" "your_openai_api_key_here"
               = false).
  { intros E. rewrite E in Hmodel. discriminate. }
  destruct (sendMessage_asks c' s1 _ Hblank Hg Ho Hread) as (l & w1 & Hcon & Hnet & ->).
  eexists. split.
  - pose proof (quiet_after_fetch StringToNumber ArrayToString (provider_of c')
                  (fetch (expected_request env (provider_of c')
                            [{| role := Agent; text := welcome_text |}]
                            (userInput c') false)) w1) as [_ Hq].
    destruct (after_fetch _ _ _ _ w1) as [[v|e] w2]; cbn [snd world network] in *;
      rewrite Hq, Hnet; reflexivity.
  - unfold provider_of. rewrite Hmodel. reflexivity.
Qed.

End ComponentProperties.

Lemma missing_key_is_reported_not_sent_witness :
  String.eqb (example_trim (userInput example_closure)) "" = false
  ∧ example_env "REACT_APP_GEMINI_API_KEY" = None
  ∧ ∃ s' l,
      sendMessage example_env (answering reply_padded) example_StringToNumber
        example_ArrayToString example_trim true example_closure example_screen
      = (Return tt, s')
      ∧ network (world s') = network (world example_screen)
      ∧ console (world s')
        = (console (world example_screen)
             ++ [("Error fetching AI response:",
                  LogError (Error "Gemini API key is not set. Please add your API key to the .env file."))])%list
      ∧ events s'
        = (events example_screen ++ queued_first (VRef l)
             ++ shown true example_closure
                  (ErrorText (Error "Gemini API key is not set. Please add your API key to the .env file.")))%list
      ∧ error_text (Error "Gemini API key is not set. Please add your API key to the .env file.")
        = Some "Error: Gemini API key is not set. Please add your API key to the .env file.".
Proof.
  split; [reflexivity|]. split; [reflexivity|].
  apply (missing_key_is_reported_not_sent example_env (answering reply_padded)
           example_StringToNumber example_ArrayToString example_trim true
           example_closure example_screen
           "REACT_APP_GEMINI_API_KEY" "your_gemini_api_key_here" "Gemini").
  - reflexivity.
  - apply list_elem_of_here.
  - apply list_elem_of_here.
Defined.

Lemma http_failure_is_shown_witness :
  String.eqb (example_trim (userInput example_closure)) "" = false
  ∧ key_not_set example_env_keyed "REACT_APP_GEMINI_API_KEY" "your_gemini_api_key_here"
    = false
  ∧ read_history (heap (world example_screen)) (chatHistory example_closure)
    = Some example_history
  ∧ ok reply_503 = false
  ∧ ∃ s' l,
      sendMessage example_env_keyed (answering reply_503) example_StringToNumber
        example_ArrayToString example_trim true example_closure example_screen
      = (Return tt, s')
      ∧ console (world s')
        = [("Error in AI service:",
            LogError (Error "API request failed with status: 503"));
           ("Error fetching AI response:",
            LogError (Error "API request failed with status: 503"))]
      ∧ events s'
        = (events example_screen ++ queued_first (VRef l)
             ++ shown true example_closure
                  (ErrorText (Error "API request failed with status: 503")))%list
      ∧ error_text (Error "API request failed with status: 503")
        = Some "Error: API request failed with status: 503".
Proof.
  split; [reflexivity|]. split; [reflexivity|]. split; [reflexivity|].
  split; [reflexivity|].
  apply (http_failure_is_shown example_env_keyed (answering reply_503)
           example_StringToNumber example_ArrayToString example_trim true
           example_closure example_screen example_history reply_503);
    reflexivity.
Defined.


Lemma persona_is_not_sent_after_reset_witness :
  next_chatHistory (chatHistory example_closure)
    (drop (length (events example_screen))
       (events (resetChat true example_closure example_screen).2))
  = Some (chatHistory example_closure_after_reset)
  ∧ ∃ req,
      network (world (sendMessage example_env_keyed (answering reply_padded)
                        example_StringToNumber example_ArrayToString example_trim true
                        example_closure_after_reset
                        (resetChat true example_closure example_screen).2).2)
      = (network (world example_screen) ++ [req])%list
      ∧ sent_turns ProviderA req
        = Some [JObj [("role", JStr "model");
                      ("parts",
                       JArr [JObj [("text",
                                    JStr "Hello! I am your Optimum Agent. How can I assist you with your technical issue today?")]])];
                JObj [("role", JStr "user");
                      ("parts", JArr [JObj [("text", JStr "it's slow")]])]].
Proof.
  split; [vm_compute; reflexivity|].
  apply (persona_is_not_sent_after_reset example_env_keyed (answering reply_padded)
           example_StringToNumber example_ArrayToString example_trim true
           example_closure example_screen example_closure_after_reset).
  - vm_compute; reflexivity.
  - reflexivity.
  - reflexivity.
  - reflexivity.
Defined.

(** * The earlier component *)

Section EarlierFacts.

Variable env : string → option string.
Variable fetch : Request → FetchResult.
Variable StringToNumber : string → spec_float.
Variable ArrayToString : list json → outcome string.
Variable trim : string → string.
Variable has_speech : bool.

Local Ltac shown_events :=
  rewrite speakText_run; cbv beta iota; cbn [world events];
  unfold queued_first, Earlier.shown; by rewrite <- !app_assoc.

(** The earlier [sendMessage] in terms of its [try] block. *)
Lemma earlier_sendMessage_run c s :
  String.eqb (trim (userInput c)) "" = false →
  let l := fresh_loc (heap (world s)) in
  let w1 := set_heap (<[l := Obj [("role", VStr "user"); ("text", VStr (userInput c))]]>
                        (heap (world s))) (world s) in
  Earlier.sendMessage env fetch StringToNumber ArrayToString trim has_speech c s
  = match Earlier.ask env fetch StringToNumber ArrayToString c w1 with
    | (Return v, w2) =>
        (Return tt,
         {| world := w2;
            events := events s ++ queued_first (VRef l)
                        ++ Earlier.shown has_speech c (Value v) |})
    | (Throw e, w2) =>
        (Return tt,
         {| world := {| heap := heap w2;
                        console := console w2
                                     ++ [("Error fetching AI response:", LogError e)];
                        network := network w2 |};
            events := events s ++ queued_first (VRef l)
                        ++ Earlier.shown has_speech c
                             (Value (Some (JStr "There was an error connecting to the AI. Please check your network or try again later."))) |})
    end%list.
Proof.
  intros Hblank l w1. unfold Earlier.sendMessage. rewrite Hblank.
  unfold Earlier.ask, Earlier.reply_of, ui_finally, ui_try_catch, ui_bind, run, emit,
    new_object, alloc, ui_throw, ui_ret, bind, throw, ret, console_error.
  cbn [world events]. fold l. fold w1.
  destruct (Earlier.sendMessage_request env fetch c w1) as [[response|e] w'];
    cbv beta iota; cbn [world events]; [|shown_events].
  destruct (response_json response w') as [[result|e] w''];
    cbv beta iota; cbn [world events]; [|shown_events].
  destruct (Earlier.sendMessage_valid StringToNumber ArrayToString (Some result) w'')
    as [[[|]|e] w2]; cbv beta iota; cbn [world events]; [| |shown_events].
  - destruct (jpath _ _ w2) as [[v|e] w3]; cbv beta iota; cbn [world events];
      shown_events.
  - shown_events.
Qed.

Lemma bind_agree {A B} (m : M A) (k k' : A → M B) w :
  (∀ a w', m w = (Return a, w') → k a w' = k' a w') → bind m k w = bind m k' w.
Proof. intros H. unfold bind. destruct (m w) as [[a|e] w']; [by apply H|done]. Qed.

(** The request object of the earlier handler is the one of
    [getAIResponse], with the first-message flag read off the history. *)
Lemma earlier_payload_agrees c w l elems :
  chatHistory c = VRef l → heap w !! l = Some (Arr elems) →
  Earlier.sendMessage_payload c w
  = getAIResponse_payload (chatHistory c) (userInput c)
      (match elems with [] => true | _ => false end) w.
Proof.
  intros Hc Hl. set (h0 := {[l := Arr elems]} : gmap loc obj).
  assert (H0 : h0 ⊆ heap w) by (by apply map_singleton_subseteq_l).
  unfold Earlier.sendMessage_payload, getAIResponse_payload.
  apply bind_agree. intros a w1 E1.
  match type of E1 with
  | array_map ?f _ _ = _ =>
      assert (Hf : ∀ x, preserves h0 (f x) any)
  end.
  { intros msg.
    eapply preserves_bind; [apply preserves_get_prop|]. intros role _.
    eapply preserves_bind; [apply preserves_get_prop|]. intros text _.
    apply preserves_role_parts. }
  destruct (preserves_array_map h0 _ (chatHistory c) Hf w H0) as [H1 Hfresh].
  rewrite E1 in H1, Hfresh. simpl in H1, Hfresh.
  apply bind_agree. intros cur w2 E2.
  destruct (preserves_role_parts h0 "user" (VStr (userInput c)) w1 H1) as [H2 _].
  rewrite E2 in H2. simpl in H2.
  apply bind_agree. intros n w3 E3.
  destruct (preserves_array_push h0 a cur Hfresh w2 H2) as [H3 _].
  rewrite E3 in H3. simpl in H3.
  apply bind_agree. intros ip w4 E4.
  destruct (preserves_role_parts h0 "user" (VStr initialPrompt_text) w3 H3) as [H4 _].
  rewrite E4 in H4. simpl in H4.
  apply map_singleton_subseteq_l in H4.
  unfold bind at 1. rewrite Hc. unfold get_prop at 1. rewrite H4.
  cbn [String.eqb Ascii.eqb Bool.eqb]. by rewrite length_is_zero.
Qed.

(** The earlier handler up to the answer of the network. *)
Lemma earlier_request_run c w history :
  read_history (heap w) (chatHistory c) = Some history →
  let req := expected_request env ProviderA history (userInput c)
               (match history with [] => true | _ => false end) in
  ∃ w1,
    heap w ⊆ heap w1 ∧ console w1 = console w
    ∧ network w1 = (network w ++ [req])%list
    ∧ Earlier.sendMessage_request env fetch c w
      = (match fetch req with
         | NetworkFailure => Throw TypeError
         | Responded r => Return r
         end, w1).
Proof.
  intros Hread req.
  destruct (read_history_inv _ _ _ Hread) as (l & elems & Hc & Hl & Hall).
  assert (Hempty : match elems with [] => true | _ => false end
                   = match history with [] => true | _ => false end).
  { by destruct Hall. }
  destruct (getAIResponse_payload_run w (chatHistory c) history (userInput c)
              (match history with [] => true | _ => false end) Hread)
    as (payload & w' & E & Hsub & Hcon & Hn & Es).
  exists {| heap := heap w'; console := console w'; network := network w' ++ [req] |}.
  cbn [heap console network]. rewrite Hn.
  split; [done|]. split; [done|]. split; [done|].
  unfold Earlier.sendMessage_request. unfold bind at 1.
  rewrite (earlier_payload_agrees c w l elems Hc Hl), Hempty, E.
  unfold bind at 1. rewrite Es. unfold do_fetch. rewrite Hn.
  unfold req, expected_request. by destruct (fetch _).
Qed.

Lemma quiet_earlier_reply_of r :
  quiet (Earlier.reply_of StringToNumber ArrayToString r).
Proof.
  unfold Earlier.reply_of.
  apply quiet_bind; [apply quiet_response_json|]. intros body.
  apply quiet_bind.
  { unfold Earlier.sendMessage_valid.
    repeat first [apply quiet_test | apply quiet_check | apply quiet_js_and]. }
  intros [|]; [apply quiet_jpath|].
  apply quiet_bind; [apply quiet_console_error|intros _; apply quiet_ret].
Qed.

Lemma preserves_earlier_ask c h0 :
  preserves h0 (Earlier.ask env fetch StringToNumber ArrayToString c) any.
Proof.
  unfold Earlier.ask, Earlier.sendMessage_request.
  eapply preserves_bind with (Q := any); [|intros r _; apply quiet_preserves,
                                            quiet_earlier_reply_of].
  eapply preserves_bind with (Q := any).
  { unfold Earlier.sendMessage_payload.
    eapply preserves_bind.
    { apply preserves_array_map. intros msg.
      eapply preserves_bind; [apply preserves_get_prop|]. intros role _.
      eapply preserves_bind; [apply preserves_get_prop|]. intros text _.
      apply preserves_role_parts. }
    intros apiChatHistory Hfresh.
    eapply preserves_bind; [apply preserves_role_parts|]. intros current _.
    eapply preserves_bind; [by apply preserves_array_push|]. intros _ _.
    eapply preserves_bind; [apply preserves_role_parts|]. intros initialPrompt _.
    eapply preserves_bind; [apply preserves_get_prop|]. intros len _.
    eapply preserves_bind with (Q := any).
    { destruct (strict_equal _ _); [|by apply preserves_ret].
      eapply preserves_bind; [apply preserves_role_parts|]. intros first _.
      eapply preserves_weaken; [|apply preserves_alloc]. done. }
    intros payloadContents _. unfold new_object.
    eapply preserves_bind; [apply preserves_alloc|]. intros generationConfig _.
    eapply preserves_weaken; [|apply preserves_alloc]. done. }
  intros payload _.
  eapply preserves_bind; [apply preserves_JSON_stringify|]. intros text _.
  apply preserves_do_fetch.
Qed.

Local Arguments jpath : simpl never.

Local Ltac run_test :=
  match goal with
  | |- context [bind (jpath ?v ?ks) (λ x, ret (@?t x)) ?w] => rewrite (test_run v ks t w)
  | |- context [bind (jpath ?v ?ks) (λ x, lift (@?t x)) ?w] => rewrite (check_run v ks t w)
  end.


Local Ltac eval_lookups :=
  repeat (progress (simpl;
                    repeat match goal with
                           | H : prop_lookup _ _ = _ |- _ => rewrite H
                           | H : truthy _ = _ |- _ => rewrite H
                           end)).

Local Ltac eval_guard :=
  unfold bind at 1; unfold ret at 1; unfold bind at 1;
  repeat first
    [ rewrite js_and_true by (run_test; eval_lookups; reflexivity)
    | rewrite js_and_false by (run_test; eval_lookups; reflexivity)
    | run_test; eval_lookups
    | rewrite jpath_run; eval_lookups ].

(** A reply the condition stops, whatever its status. *)
Lemma earlier_reply_falsy r w body :
  parsed r = Some body → falsy_on_the_way ProviderA body = true →
  Earlier.reply_of StringToNumber ArrayToString r w
  = (Return (Some (JStr "Sorry, I could not get a response from the AI. Please try again.")),
     {| heap := heap w;
        console := console w
                     ++ [("Unexpected API response structure:", LogValue (Some body))];
        network := network w |}).
Proof.
  intros Hparsed Hf. simpl in Hf.
  unfold Earlier.reply_of, Earlier.sendMessage_valid, response_json. rewrite Hparsed.
  unfold falsy_on_the_way_A, falsy_field in Hf.
  destruct body as [| | | | |top]; try discriminate.
  destruct (truthy (prop_lookup "candidates" top)) eqn:Ht1; simpl in Hf;
    [|eval_guard; reflexivity].
  destruct (prop_lookup "candidates" top) as [[| | | |[|[| | | | |candidate] rest]|]|]
    eqn:Hc; try discriminate.
  destruct (truthy (prop_lookup "content" candidate)) eqn:Ht2; simpl in Hf;
    [|eval_guard; reflexivity].
  destruct (prop_lookup "content" candidate) as [[| | | | |content]|] eqn:Hct;
    try discriminate.
  apply negb_true_iff in Hf.
  eval_guard; reflexivity.
Qed.

(** A send of the earlier handler on a history of user and model messages,
    followed up to the answer of the network. *)
Lemma earlier_sendMessage_asks c s history :
  String.eqb (trim (userInput c)) "" = false →
  read_history (heap (world s)) (chatHistory c) = Some history →
  let req := expected_request env ProviderA history (userInput c)
               (match history with [] => true | _ => false end) in
  ∃ l w1,
    console w1 = console (world s)
    ∧ network w1 = (network (world s) ++ [req])%list
    ∧ Earlier.sendMessage env fetch StringToNumber ArrayToString trim has_speech c s
      = match (match fetch req with
               | NetworkFailure => (Throw TypeError, w1)
               | Responded r => Earlier.reply_of StringToNumber ArrayToString r w1
               end) with
        | (Return v, w2) =>
            (Return tt,
             {| world := w2;
                events := events s ++ queued_first (VRef l)
                            ++ Earlier.shown has_speech c (Value v) |})
        | (Throw e, w2) =>
            (Return tt,
             {| world := {| heap := heap w2;
                            console := console w2
                                         ++ [("Error fetching AI response:", LogError e)];
                            network := network w2 |};
                events := events s ++ queued_first (VRef l)
                            ++ Earlier.shown has_speech c
                                 (Value (Some (JStr "There was an error connecting to the AI. Please check your network or try again later."))) |})
        end%list.
Proof.
  intros Hblank Hread req.
  rewrite (earlier_sendMessage_run c s Hblank).
  cbv zeta. set (l := fresh_loc (heap (world s))). set (w1 := set_heap _ _).
  assert (Hsub : heap (world s) ⊆ heap w1) by apply alloc_extends.
  pose proof (read_history_weaken _ _ _ _ Hsub Hread) as Hread1.
  destruct (earlier_request_run c w1 history Hread1) as (w1' & _ & Hcon & Hnet & E).
  exists l, w1'. split; [done|]. split; [done|].
  unfold Earlier.ask. unfold bind at 1. rewrite E. fold req.
  by destruct (fetch req).
Qed.

(** X18.  Splitting the adapter off did not change the request: the
    earlier [sendMessage], which builds the request itself, sends what
    [getAIResponse] sends when it is called with the first-message flag
    raised on an empty history. *)
Theorem earlier_request_agrees c s history :
  String.eqb (trim (userInput c)) "" = false →
  read_history (heap (world s)) (chatHistory c) = Some history →
  ∃ req,
    network (world (Earlier.sendMessage env fetch StringToNumber ArrayToString
                      trim has_speech c s).2)
    = (network (world s) ++ [req])%list
    ∧ network (getAIResponse env fetch StringToNumber ArrayToString
                 (chatHistory c) (userInput c)
                 (match history with [] => true | _ => false end) (world s)).2
      = (network (world s) ++ [req])%list.
Proof.
  intros Hblank Hread.
  exists (expected_request env ProviderA history (userInput c)
            (match history with [] => true | _ => false end)).
  split.
  - destruct (earlier_sendMessage_asks c s history Hblank Hread)
      as (l & w1 & Hcon & Hnet & ->).
    destruct (fetch _) as [|r]; [by cbn [snd world network]|].
    pose proof (quiet_earlier_reply_of r w1) as [_ Hq].
    destruct (Earlier.reply_of _ _ r w1) as [[v|e] w2]; cbn [snd world network] in *;
      by rewrite Hq.
  - apply (respond_network env fetch StringToNumber ArrayToString ProviderA
             (world s) (chatHistory c) history (userInput c) _ Hread).
Qed.


(** X20.  A reply the condition stops is not a failure for the earlier
    [sendMessage]: the body is logged once, nothing is thrown, and the chat
    gets a fixed apology. *)
Theorem earlier_malformed_is_apologised c s history r body :
  String.eqb (trim (userInput c)) "" = false →
  read_history (heap (world s)) (chatHistory c) = Some history →
  fetch (expected_request env ProviderA history (userInput c)
           (match history with [] => true | _ => false end))
  = Responded r →
  parsed r = Some body → falsy_on_the_way ProviderA body = true →
  let apology :=
    Value (Some (JStr "Sorry, I could not get a response from the AI. Please try again.")) in
  ∃ s' l,
    Earlier.sendMessage env fetch StringToNumber ArrayToString trim has_speech c s
    = (Return tt, s')
    ∧ console (world s')
      = (console (world s)
           ++ [("Unexpected API response structure:", LogValue (Some body))])%list
    ∧ events s'
      = (events s
           ++ [SetChatHistory (AppendMessage (VRef l));
               SetUserInput "";
               SetIsLoading true;
               SetChatHistory (AppendModelReply apology);
               if isVoiceEnabled c && has_speech
               then Speak apology
               else ConsoleWarn "Speech synthesis not supported or voice disabled.";
               SetIsLoading false])%list.
Proof.
  intros Hblank Hread Hfetch Hparsed Hf apology.
  destruct (earlier_sendMessage_asks c s history Hblank Hread)
    as (l & w1 & Hcon & Hnet & ->).
  rewrite Hfetch, (earlier_reply_falsy r w1 body Hparsed Hf).
  eexists _, l. split; [done|]. cbn [world console events]. by rewrite Hcon.
Qed.

(** X21.  The earlier [sendMessage] never rejects either, and what it
    shows is always a value it holds, never the message of an error: on a
    blank input it does nothing, and otherwise it queues the user's message
    and one message of the model between raising and lowering the loading
    flag. *)
Theorem earlier_sendMessage_settles c s :
  ∃ s',
    Earlier.sendMessage env fetch StringToNumber ArrayToString trim has_speech c s
    = (Return tt, s')
    ∧ if String.eqb (trim (userInput c)) ""
      then s' = s
      else ∃ l v,
          heap (world s) !! l = None
          ∧ heap (world s') !! l
            = Some (Obj [("role", VStr "user"); ("text", VStr (userInput c))])
          ∧ events s'
            = (events s
                 ++ [SetChatHistory (AppendMessage (VRef l));
                     SetUserInput "";
                     SetIsLoading true;
                     SetChatHistory (AppendModelReply (Value v));
                     if isVoiceEnabled c && has_speech
                     then Speak (Value v)
                     else ConsoleWarn "Speech synthesis not supported or voice disabled.";
                     SetIsLoading false])%list.
Proof.
  destruct (String.eqb (trim (userInput c)) "") eqn:Hblank.
  - exists s. unfold Earlier.sendMessage. by rewrite Hblank.
  - rewrite (earlier_sendMessage_run c s Hblank).
    cbv zeta.
    set (l := fresh_loc (heap (world s))).
    set (o := Obj _).
    set (w1 := set_heap _ _).
    assert (Hw1 : ({[l := o]} : gmap loc obj) ⊆ heap w1).
    { unfold w1. simpl. apply map_singleton_subseteq_l, lookup_insert_eq. }
    destruct (preserves_earlier_ask c _ w1 Hw1) as [Hkeep _].
    assert (Hnone : heap (world s) !! l = None) by apply fresh_loc_lookup.
    destruct (Earlier.ask env fetch StringToNumber ArrayToString c w1) as [[v|e] w2];
      simpl in Hkeep; apply map_singleton_subseteq_l in Hkeep.
    + eexists. split; [done|]. by exists l, v.
    + eexists. split; [done|]. by eexists l, _.
Qed.

End EarlierFacts.

Lemma earlier_request_agrees_witness :
  String.eqb (example_trim (userInput example_closure)) "" = false
  ∧ read_history (heap (world example_screen)) (chatHistory example_closure)
    = Some example_history
  ∧ ∃ req,
      network (world (Earlier.sendMessage example_env_keyed (answering reply_padded)
                        example_StringToNumber example_ArrayToString example_trim true
                        example_closure example_screen).2)
      = (network (world example_screen) ++ [req])%list
      ∧ network (getAIResponse example_env_keyed (answering reply_padded)
                   example_StringToNumber example_ArrayToString
                   (chatHistory example_closure) (userInput example_closure) false
                   (world example_screen)).2
        = (network (world example_screen) ++ [req])%list.
Proof.
  split; [reflexivity|]. split; [reflexivity|].
  apply (earlier_request_agrees example_env_keyed (answering reply_padded)
           example_StringToNumber example_ArrayToString example_trim true
           example_closure example_screen example_history);
    reflexivity.
Defined.


Lemma earlier_malformed_is_apologised_witness :
  String.eqb (example_trim (userInput example_closure)) "" = false
  ∧ read_history (heap (world example_screen)) (chatHistory example_closure)
    = Some example_history
  ∧ parsed reply_null_content
    = Some (JObj [("candidates", JArr [JObj [("content", JNull)]])])
  ∧ falsy_on_the_way ProviderA (JObj [("candidates", JArr [JObj [("content", JNull)]])])
    = true
  ∧ ∃ s' l,
      Earlier.sendMessage example_env_keyed (answering reply_null_content)
        example_StringToNumber example_ArrayToString example_trim true
        example_closure example_screen
      = (Return tt, s')
      ∧ console (world s')
        = (console (world example_screen)
             ++ [("Unexpected API response structure:",
                  LogValue (Some (JObj [("candidates",
                                         JArr [JObj [("content", JNull)]])])))])%list
      ∧ events s'
        = (events example_screen
             ++ [SetChatHistory (AppendMessage (VRef l));
                 SetUserInput "";
                 SetIsLoading true;
                 SetChatHistory
                   (AppendModelReply
                      (Value (Some (JStr "Sorry, I could not get a response from the AI. Please try again."))));
                 Speak (Value (Some (JStr "Sorry, I could not get a response from the AI. Please try again.")));
                 SetIsLoading false])%list.
Proof.
  split; [reflexivity|]. split; [reflexivity|]. split; [reflexivity|].
  split; [reflexivity|].
  apply (earlier_malformed_is_apologised example_env_keyed (answering reply_null_content)
           example_StringToNumber example_ArrayToString example_trim true
           example_closure example_screen example_history reply_null_content
           (JObj [("candidates", JArr [JObj [("content", JNull)]])]));
    reflexivity.
Defined.

Lemma resetChat_leaves_the_welcome_witness :
  ∃ s' cleared message welcome,
    resetChat false example_closure example_screen = (Return tt, s')
    ∧ network (world s') = network (world example_screen)
    ∧ console (world s') = console (world example_screen)
    ∧ heap (world example_screen) ⊆ heap (world s')
    ∧ events s'
      = (events example_screen
           ++ [SetChatHistory (SetTo (VRef cleared));
               SetUserInput "";
               SetIsLoading false;
               SetChatHistory (SetTo (VRef welcome));
               ConsoleWarn "Speech synthesis not supported or voice disabled."])%list
    ∧ heap (world s') !! cleared = Some (Arr [])
    ∧ heap (world s') !! message
      = Some (Obj [("role", VStr "model");
                   ("text", VStr "Hello! I am your Optimum Agent. How can I assist you with your technical issue today?");
                   ("model", VStr "gemini")])
    ∧ heap (world s') !! welcome = Some (Arr [VRef message])
    ∧ next_chatHistory (chatHistory example_closure)
        (drop (length (events example_screen)) (events s'))
      = Some (VRef welcome)
    ∧ ∀ c', chatHistory c' = VRef welcome →
        welcome_effect false c' s' = (Return tt, s').
Proof. apply (resetChat_leaves_the_welcome false example_closure example_screen). Defined.
